(** * go-nms: the poll / collect / alert pipeline, embedded in Rocq

    A shallow embedding of the parts of go-nms that the specification talks
    about:

    - [internal/worker/protocols/snmp/zte/client.go]: the ZTE C320 SNMP
      adapter ([GetSystemMetrics], [GetPONPortMetrics], [GetONTMetrics],
      [extractLastOIDIndex], [pduToInt], [pduToUint32]);
    - [internal/collector/scheduler.go] with [DeviceService.ListDevices];
    - the worker's [processTask];
    - [internal/alert/engine.go] ([evaluate], [toFloat]);

    and, beyond it, of the code these parts call and are called by: the
    helpers [extractTwoLastOIDIndexes] and [formatSerialNumber] and the
    gosnmp-backed client of the ZTE adapter; the Mikrotik adapter of the
    collector ([FetchSystemResources], [parseBytes], the conversion of a
    command in [RunCommand]); [StringArray.Value] and [StringArray.Scan]
    of the device model; the HTTP handler [ListDevices]; [inc] of the
    discovery service; the target store of the monitoring feature; and
    the OLT service ([GetPONPorts], [connectToOLT], [mapPONPort]).

    Go's [int] is taken to be 64 bits wide, as on the 64-bit Linux target
    of the project's Dockerfile; [float64] is IEEE-754 binary64 as given by
    [SpecFloat] with [prec = 53] and [emax = 1024]; strings are byte
    strings. *)

From Stdlib Require Import ZArith String Ascii List Bool Lia.
From Stdlib Require Import Numbers.DecimalString Numbers.HexadecimalString.
From Stdlib Require Import Numbers.DecimalPos Numbers.DecimalZ.
From Stdlib Require Import Floats.SpecFloat.
From stdpp Require Import base option list strings gmap.

Local Open Scope string_scope.
Local Open Scope Z_scope.

(* ===================================================================== *)
(** * Go prelude: integers, floats, strings, errors                       *)
(* ===================================================================== *)

Module Go.

(** ** Fixed-width integers *)

Definition MinInt64 : Z := - 2 ^ 63.
Definition MaxInt64 : Z := 2 ^ 63 - 1.

(** Conversion of an arbitrary integer to [int64] / [int]: two's
    complement wrap-around. *)
Definition int64 (z : Z) : Z := (z + 2 ^ 63) mod 2 ^ 64 - 2 ^ 63.

(** Conversion to [uint32]: the low 32 bits. *)
Definition uint32 (z : Z) : Z := z mod 2 ^ 32.

Definition in_int64 (z : Z) : bool := (MinInt64 <=? z) && (z <=? MaxInt64).

(** ** float64 *)

Abbreviation float64 := spec_float (only parsing).

Definition prec : Z := 53.
Definition emax : Z := 1024.

(** [float64(n)] for an integer [n]: rounded to nearest, ties to even. *)
Definition float64_of_int (n : Z) : float64 := binary_normalize prec emax n 0 false.

(** The zero value of float64. *)
Definition fzero : float64 := S754_zero false.

Definition fmul (x y : float64) : float64 := SFmul prec emax x y.
Definition fdiv (x y : float64) : float64 := SFdiv prec emax x y.

(** The comparison operators of Go on float64; every comparison with a
    NaN is false. *)
Definition fgt (x y : float64) : bool := SFltb y x.
Definition flt (x y : float64) : bool := SFltb x y.
Definition feq (x y : float64) : bool := SFeqb x y.
Definition fge (x y : float64) : bool := SFleb y x.
Definition fle (x y : float64) : bool := SFleb x y.

(** The integer part of a finite float (truncation toward zero). *)
Definition ftrunc (x : float64) : option Z :=
  match x with
  | S754_zero _ => Some 0
  | S754_finite s m e =>
      let a := if 0 <=? e then Z.pos m * 2 ^ e else Z.pos m / 2 ^ (- e) in
      Some (if s then - a else a)
  | _ => None
  end.

(** [int64(x)] for a float [x]. The Go specification leaves the result
    implementation-defined when the truncated value does not fit; [oor]
    is that implementation-defined value. *)
Definition int64_of_float (oor : float64 -> Z) (x : float64) : Z :=
  match ftrunc x with
  | Some z => if in_int64 z then z else oor x
  | None => oor x
  end.

(** The exact rational value [num / den] of a finite float, as a pair. *)
Definition fvalue (x : float64) : option (Z * Z) :=
  match x with
  | S754_zero _ => Some (0, 1)
  | S754_finite s m e =>
      let n := if s then Z.neg m else Z.pos m in
      Some (if 0 <=? e then (n * 2 ^ e, 1) else (n, 2 ^ (- e)))
  | _ => None
  end.

(** [x] is finite and its value is exactly the rational [p / q]. *)
Definition represents (x : float64) (p q : Z) : Prop :=
  exists n d, fvalue x = Some (n, d) /\ 0 < d /\ 0 < q /\ n * q = p * d.

(** ** time.Duration (nanoseconds) *)

Definition Microseconds (d : Z) : Z := Z.quot d 1000.
Definition Milliseconds (d : Z) : Z := Z.quot d 1000000.

(** ** Errors *)

(** An [error] value: a message, or [fmt.Errorf(prefix + "%w", inner)]. *)
Inductive error : Type :=
| ErrorString (msg : string)
| Wrapf (prefix : string) (inner : error).

(** [err.Error()]. *)
Fixpoint Error (e : error) : string :=
  match e with
  | ErrorString m => m
  | Wrapf p inner => p ++ Error inner
  end.

(** The outcome of a call returning [(T, error)]: a value with a nil
    error, a nil value with an error, or a run-time panic (nil pointer
    dereference, failed type assertion). *)
Inductive result (A : Type) : Type :=
| Ok (a : A)
| Err (e : error)
| Panic (msg : string).
Arguments Ok {A} a.
Arguments Err {A} e.
Arguments Panic {A} msg.

Definition bind {A B} (r : result A) (k : A -> result B) : result B :=
  match r with
  | Ok a => k a
  | Err e => Err e
  | Panic m => Panic m
  end.

(** A left fold whose step may fail; the first failure ends the loop. *)
Fixpoint foldM {A S} (f : S -> A -> result S) (l : list A) (s : S) : result S :=
  match l with
  | [] => Ok s
  | x :: l' => bind (f s x) (foldM f l')
  end.

(** ** strings *)

(** [strings.HasPrefix s p]. *)
Fixpoint HasPrefix (s p : string) : bool :=
  match p, s with
  | EmptyString, _ => true
  | String c p', String d s' => if Ascii.eqb c d then HasPrefix s' p' else false
  | String _ _, EmptyString => false
  end.

Fixpoint drop_bytes (n : nat) (s : string) : string :=
  match n, s with
  | O, _ => s
  | S n', String _ s' => drop_bytes n' s'
  | S _, EmptyString => EmptyString
  end.

(** [strings.TrimPrefix s p]. *)
Definition TrimPrefix (s p : string) : string :=
  if HasPrefix s p then drop_bytes (String.length p) s else s.

(** [strings.Split s sep] for a separator of one byte, the only kind the
    code uses. The result always has at least one element. *)
Fixpoint Split (s : string) (sep : ascii) : list string :=
  match s with
  | EmptyString => [EmptyString]
  | String c s' =>
      if Ascii.eqb c sep then EmptyString :: Split s' sep
      else match Split s' sep with
           | h :: t => String c h :: t
           | [] => [String c EmptyString]
           end
  end.

(** ** fmt.Sscanf(s, "%d", &n) *)

Definition byte_of (c : ascii) : Z := Z.of_N (N_of_ascii c).

Definition is_digit (c : ascii) : bool := (48 <=? byte_of c) && (byte_of c <=? 57).
Definition is_underscore (c : ascii) : bool := byte_of c =? 95.
Definition is_sign (c : ascii) : bool := (byte_of c =? 43) || (byte_of c =? 45).

(** One-byte members of fmt's [space] table other than the newline:
    U+0009, U+000B, U+000C, U+000D, U+0020. *)
Definition is_space1 (c : ascii) : bool :=
  let b := byte_of c in
  (b =? 9) || (b =? 11) || (b =? 12) || (b =? 13) || (b =? 32).

(** Two-byte members (UTF-8): U+0085, U+00A0. *)
Definition is_space2 (c1 c2 : ascii) : bool :=
  (byte_of c1 =? 194) && ((byte_of c2 =? 133) || (byte_of c2 =? 160)).

(** Three-byte members (UTF-8): U+1680, U+2000-U+200A, U+2028, U+2029,
    U+202F, U+205F, U+3000. *)
Definition is_space3 (c1 c2 c3 : ascii) : bool :=
  let b1 := byte_of c1 in
  let b2 := byte_of c2 in
  let b3 := byte_of c3 in
  ((b1 =? 225) && (b2 =? 154) && (b3 =? 128))
  || ((b1 =? 226) && (b2 =? 128)
      && (((128 <=? b3) && (b3 <=? 138)) || (b3 =? 168) || (b3 =? 169) || (b3 =? 175)))
  || ((b1 =? 226) && (b2 =? 129) && (b3 =? 159))
  || ((b1 =? 227) && (b2 =? 128) && (b3 =? 128)).

(** [ss.SkipSpace] of a scan started by [Sscanf] (newlines are not
    spaces there): [None] is the "unexpected newline" error. *)
Fixpoint SkipSpace (s : string) : option string :=
  match s with
  | EmptyString => Some EmptyString
  | String c1 r1 =>
      if byte_of c1 =? 10 then None
      else if is_space1 c1 then SkipSpace r1
      else match r1 with
           | String c2 r2 =>
               if is_space2 c1 c2 then SkipSpace r2
               else match r2 with
                    | String c3 r3 => if is_space3 c1 c2 c3 then SkipSpace r3 else Some s
                    | EmptyString => Some s
                    end
           | EmptyString => Some s
           end
  end.

(** The longest prefix of [s] made of bytes satisfying [p], and the rest. *)
Fixpoint span (p : ascii -> bool) (s : string) : string * string :=
  match s with
  | EmptyString => (EmptyString, EmptyString)
  | String c s' =>
      if p c then let '(a, b) := span p s' in (String c a, b)
      else (EmptyString, s)
  end.

Fixpoint all_bytes (p : ascii -> bool) (s : string) : bool :=
  match s with
  | EmptyString => true
  | String c s' => p c && all_bytes p s'
  end.

(** The value of a string of decimal digits, most significant first. *)
Fixpoint decimal_value (acc : Z) (s : string) : Z :=
  match s with
  | EmptyString => acc
  | String c s' => decimal_value (10 * acc + (byte_of c - 48)) s'
  end.

(** [fmt.Sscanf(s, "%d", &n)] with [n] an [int]: [Some n] when the scan
    stores [n] and returns a nil error, [None] when it returns an error.
    The scan skips leading space, accepts one sign, takes the longest run
    of digits and underscores (at least one), hands the token to
    [strconv.ParseInt(tok, 10, 64)] (which rejects underscores and values
    outside int64), and leaves the rest of the input unread. *)
Definition Sscanf_d (s : string) : option Z :=
  match SkipSpace s with
  | None => None
  | Some s1 =>
      let '(neg, s2) :=
        match s1 with
        | String c r => if is_sign c then (byte_of c =? 45, r) else (false, s1)
        | EmptyString => (false, s1)
        end in
      let '(tok, _) := span (fun c => is_digit c || is_underscore c) s2 in
      match tok with
      | EmptyString => None
      | String _ _ =>
          if all_bytes is_digit tok then
            let v := decimal_value 0 tok in
            let n := if neg then - v else v in
            if in_int64 n then Some n else None
          else None
      end
  end.

(** ** fmt.Sprintf with the verbs "%d" and "%X" on an int *)

Definition Sprintf_d (n : Z) : string :=
  DecimalString.NilZero.string_of_int (Z.to_int n).

Definition upper (c : ascii) : ascii :=
  let b := byte_of c in
  if (97 <=? b) && (b <=? 122) then ascii_of_N (Z.to_N (b - 32)) else c.

Fixpoint ToUpper (s : string) : string :=
  match s with
  | EmptyString => EmptyString
  | String c s' => String (upper c) (ToUpper s')
  end.

Definition Sprintf_X (n : Z) : string :=
  let digits := ToUpper (HexadecimalString.NilZero.string_of_uint (N.to_hex_uint (Z.to_N (Z.abs n)))) in
  if n <? 0 then "-" ++ digits else digits.

(** ** interface{} values *)

(** The dynamic values that flow through [interface{}] in the modelled
    code: the payload of an SNMP PDU and the entries of a metric's value
    map. Each constructor is one dynamic type. *)
Inductive any : Type :=
| AInt (v : Z)
| AInt64 (v : Z)
| AUint (v : Z)
| AUint32 (v : Z)
| AUint64 (v : Z)
| AFloat64 (v : float64)
| ABool (v : bool)
| AString (v : string)
| ABytes (v : string)
| ANil.

(** [time.Time], as a number of nanoseconds. *)
Definition Time : Type := Z.

End Go.

Import Go.

(* ===================================================================== *)
(** * internal/device/model and internal/common/model                    *)
(* ===================================================================== *)

Module Model.

(** [model.Device]; only the fields read by the scheduler and the SNMP
    adapter are kept. [DeviceType] and [Protocol] are string types. *)
Record Device : Type := {
  ID : string;
  Name : string;
  IPAddress : string;
  DeviceType : string;
  Protocol : string;
  Enabled : bool;
}.

(** [model.PollTask]. *)
Record PollTask : Type := {
  task_DeviceID : string;
  task_IPAddress : string;
  task_DeviceType : string;
  task_Protocol : string;
  task_Timestamp : Time;
}.

(** [model.Metric]. *)
Record Metric : Type := {
  metric_DeviceID : string;
  metric_DeviceName : string;
  metric_IPAddress : string;
  metric_Timestamp : Time;
  metric_Values : gmap string any;
  metric_Tags : gmap string string;
}.

End Model.

(* ===================================================================== *)
(** * internal/worker/protocols/snmp/zte                                 *)
(* ===================================================================== *)

Module Zte.

(** ** OID constants *)

Definition OIDSysDescr : string := "1.3.6.1.2.1.1.1.0".
Definition OIDSysUpTime : string := "1.3.6.1.2.1.1.3.0".
Definition OIDSysName : string := "1.3.6.1.2.1.1.5.0".

Definition OIDZTECardCPUUsage : string := "1.3.6.1.4.1.3902.1015.2.1.1.3.1.9.1.1".
Definition OIDZTECardTemperature : string := "1.3.6.1.4.1.3902.1015.2.1.1.3.1.8.1.1".
Definition OIDZTECardMemoryUsage : string := "1.3.6.1.4.1.3902.1015.2.1.1.3.1.11.1.1".
Definition OIDZTECardMemoryTotal : string := "1.3.6.1.4.1.3902.1015.2.1.1.3.1.19.1.1".

Definition OIDZTEPONPortAdminStatus : string := "1.3.6.1.4.1.3902.1015.3.1.2.1.3".
Definition OIDZTEPONPortOperStatus : string := "1.3.6.1.4.1.3902.1015.3.1.2.1.4".
Definition OIDZTEPONPortTxPower : string := "1.3.6.1.4.1.3902.1015.3.1.3.1.12".
Definition OIDZTEPONPortRxPower : string := "1.3.6.1.4.1.3902.1015.3.1.3.1.10".
Definition OIDZTEPONPortONTCount : string := "1.3.6.1.4.1.3902.1015.3.1.3.1.13".

Definition OIDZTEONTOperStatus : string := "1.3.6.1.4.1.3902.1015.3.1.13.1.3".
Definition OIDZTEONTDistance : string := "1.3.6.1.4.1.3902.1015.3.1.13.1.4".
Definition OIDZTEONTRxPower : string := "1.3.6.1.4.1.3902.1015.3.1.13.1.5".
Definition OIDZTEONTTxPower : string := "1.3.6.1.4.1.3902.1015.3.1.13.1.6".
Definition OIDZTEONTSerialNumber : string := "1.3.6.1.4.1.3902.1015.3.1.13.1.1".

(** [snmpPowerScale = 10.0]. *)
Definition snmpPowerScale : float64 := float64_of_int 10.

(** ** gosnmp data *)

(** [gosnmp.Asn1BER] is a byte; the tags the code and its tests name. *)
Definition Asn1BER : Type := Z.
Definition Integer : Asn1BER := 2.
Definition OctetString : Asn1BER := 4.
Definition TimeTicks : Asn1BER := 67.

(** [gosnmp.SnmpPDU]. *)
Record SnmpPDU : Type := {
  pdu_Name : string;
  pdu_Type : Asn1BER;
  pdu_Value : any;
}.

(** [snmpclient.SNMPClient], as far as the adapter uses it.

    [Get] returns a packet pointer and an error: the packet is [None]
    for a nil pointer and otherwise its [Variables].

    [Walk oid fn] hands PDUs to [fn] one by one and finally returns an
    error or nil. Every callback of this package returns nil, so a walk
    is fully described by the PDUs it delivers and the error it ends
    with (a walk may deliver some PDUs and still fail). *)
Record SNMPClient : Type := {
  Get : list string -> option (list SnmpPDU) * option error;
  Walk : string -> list SnmpPDU * option error;
}.

(** [ZTEOLTClient]; [device] is a pointer and may be nil. *)
Record ZTEOLTClient : Type := {
  snmp : SNMPClient;
  device : option Model.Device;
  timeout : Z;
}.

(** ** Metric records (unnamed/part_006) *)

Record OLTSystemMetrics : Type := {
  sys_DeviceID : string;
  sys_Timestamp : Time;
  SysDescr : string;
  SysName : string;
  UptimeSeconds : Z;
  CPUUsagePercent : float64;
  MemoryTotalKB : Z;
  MemoryUsedKB : Z;
  MemoryUsagePercent : float64;
  TemperatureCelsius : float64;
}.

Record PONPortMetrics : Type := {
  pon_DeviceID : string;
  pon_Timestamp : Time;
  PortIndex : Z;
  AdminStatus : Z;
  OperStatus : Z;
  pon_TxPowerDBm : float64;
  pon_RxPowerDBm : float64;
  ONTCount : Z;
}.

Record ONTMetrics : Type := {
  ont_DeviceID : string;
  ont_Timestamp : Time;
  PONPortIndex : Z;
  ONTIndex : Z;
  SerialNumber : string;
  ont_OperStatus : Z;
  ont_RxPowerDBm : float64;
  ont_TxPowerDBm : float64;
  DistanceMeters : Z;
  Description : string;
}.

(** ** Helpers *)

(** [pduToInt]. *)
Definition pduToInt (pdu : SnmpPDU) : Z :=
  match pdu_Value pdu with
  | AInt v => v
  | AUint v => int64 v
  | AUint32 v => int64 v
  | AUint64 v => int64 v
  | AInt64 v => int64 v
  | _ => 0
  end.

(** [pduToUint32]. *)
Definition pduToUint32 (pdu : SnmpPDU) : Z :=
  match pdu_Value pdu with
  | AUint32 v => v
  | AUint v => uint32 v
  | AInt v => uint32 v
  | _ => 0
  end.

(** [extractLastOIDIndex]. *)
Definition extractLastOIDIndex (oid baseOID : string) : Z :=
  let oid := TrimPrefix oid "." in
  let baseOID := TrimPrefix baseOID "." in
  let suffix := TrimPrefix oid (baseOID ++ ".") in
  if String.eqb suffix oid then -1
  else
    let parts := Split suffix "." in
    if (length parts =? 0)%nat then -1
    else
      match Sscanf_d (List.last parts EmptyString) with
      | None => -1
      | Some index => index
      end.

(** ** Field updates (assignments through the record pointer) *)

Definition set_SysDescr (v : string) (m : OLTSystemMetrics) : OLTSystemMetrics :=
  {| sys_DeviceID := sys_DeviceID m; sys_Timestamp := sys_Timestamp m;
     SysDescr := v; SysName := SysName m; UptimeSeconds := UptimeSeconds m;
     CPUUsagePercent := CPUUsagePercent m; MemoryTotalKB := MemoryTotalKB m;
     MemoryUsedKB := MemoryUsedKB m; MemoryUsagePercent := MemoryUsagePercent m;
     TemperatureCelsius := TemperatureCelsius m |}.

Definition set_SysName (v : string) (m : OLTSystemMetrics) : OLTSystemMetrics :=
  {| sys_DeviceID := sys_DeviceID m; sys_Timestamp := sys_Timestamp m;
     SysDescr := SysDescr m; SysName := v; UptimeSeconds := UptimeSeconds m;
     CPUUsagePercent := CPUUsagePercent m; MemoryTotalKB := MemoryTotalKB m;
     MemoryUsedKB := MemoryUsedKB m; MemoryUsagePercent := MemoryUsagePercent m;
     TemperatureCelsius := TemperatureCelsius m |}.

Definition set_UptimeSeconds (v : Z) (m : OLTSystemMetrics) : OLTSystemMetrics :=
  {| sys_DeviceID := sys_DeviceID m; sys_Timestamp := sys_Timestamp m;
     SysDescr := SysDescr m; SysName := SysName m; UptimeSeconds := v;
     CPUUsagePercent := CPUUsagePercent m; MemoryTotalKB := MemoryTotalKB m;
     MemoryUsedKB := MemoryUsedKB m; MemoryUsagePercent := MemoryUsagePercent m;
     TemperatureCelsius := TemperatureCelsius m |}.

Definition set_CPUUsagePercent (v : float64) (m : OLTSystemMetrics) : OLTSystemMetrics :=
  {| sys_DeviceID := sys_DeviceID m; sys_Timestamp := sys_Timestamp m;
     SysDescr := SysDescr m; SysName := SysName m; UptimeSeconds := UptimeSeconds m;
     CPUUsagePercent := v; MemoryTotalKB := MemoryTotalKB m;
     MemoryUsedKB := MemoryUsedKB m; MemoryUsagePercent := MemoryUsagePercent m;
     TemperatureCelsius := TemperatureCelsius m |}.

Definition set_MemoryTotalKB (v : Z) (m : OLTSystemMetrics) : OLTSystemMetrics :=
  {| sys_DeviceID := sys_DeviceID m; sys_Timestamp := sys_Timestamp m;
     SysDescr := SysDescr m; SysName := SysName m; UptimeSeconds := UptimeSeconds m;
     CPUUsagePercent := CPUUsagePercent m; MemoryTotalKB := v;
     MemoryUsedKB := MemoryUsedKB m; MemoryUsagePercent := MemoryUsagePercent m;
     TemperatureCelsius := TemperatureCelsius m |}.

Definition set_MemoryUsedKB (v : Z) (m : OLTSystemMetrics) : OLTSystemMetrics :=
  {| sys_DeviceID := sys_DeviceID m; sys_Timestamp := sys_Timestamp m;
     SysDescr := SysDescr m; SysName := SysName m; UptimeSeconds := UptimeSeconds m;
     CPUUsagePercent := CPUUsagePercent m; MemoryTotalKB := MemoryTotalKB m;
     MemoryUsedKB := v; MemoryUsagePercent := MemoryUsagePercent m;
     TemperatureCelsius := TemperatureCelsius m |}.

Definition set_MemoryUsagePercent (v : float64) (m : OLTSystemMetrics) : OLTSystemMetrics :=
  {| sys_DeviceID := sys_DeviceID m; sys_Timestamp := sys_Timestamp m;
     SysDescr := SysDescr m; SysName := SysName m; UptimeSeconds := UptimeSeconds m;
     CPUUsagePercent := CPUUsagePercent m; MemoryTotalKB := MemoryTotalKB m;
     MemoryUsedKB := MemoryUsedKB m; MemoryUsagePercent := v;
     TemperatureCelsius := TemperatureCelsius m |}.

Definition set_TemperatureCelsius (v : float64) (m : OLTSystemMetrics) : OLTSystemMetrics :=
  {| sys_DeviceID := sys_DeviceID m; sys_Timestamp := sys_Timestamp m;
     SysDescr := SysDescr m; SysName := SysName m; UptimeSeconds := UptimeSeconds m;
     CPUUsagePercent := CPUUsagePercent m; MemoryTotalKB := MemoryTotalKB m;
     MemoryUsedKB := MemoryUsedKB m; MemoryUsagePercent := MemoryUsagePercent m;
     TemperatureCelsius := v |}.

Definition set_AdminStatus (v : Z) (p : PONPortMetrics) : PONPortMetrics :=
  {| pon_DeviceID := pon_DeviceID p; pon_Timestamp := pon_Timestamp p;
     PortIndex := PortIndex p; AdminStatus := v; OperStatus := OperStatus p;
     pon_TxPowerDBm := pon_TxPowerDBm p; pon_RxPowerDBm := pon_RxPowerDBm p;
     ONTCount := ONTCount p |}.

Definition set_OperStatus (v : Z) (p : PONPortMetrics) : PONPortMetrics :=
  {| pon_DeviceID := pon_DeviceID p; pon_Timestamp := pon_Timestamp p;
     PortIndex := PortIndex p; AdminStatus := AdminStatus p; OperStatus := v;
     pon_TxPowerDBm := pon_TxPowerDBm p; pon_RxPowerDBm := pon_RxPowerDBm p;
     ONTCount := ONTCount p |}.

Definition set_pon_TxPowerDBm (v : float64) (p : PONPortMetrics) : PONPortMetrics :=
  {| pon_DeviceID := pon_DeviceID p; pon_Timestamp := pon_Timestamp p;
     PortIndex := PortIndex p; AdminStatus := AdminStatus p; OperStatus := OperStatus p;
     pon_TxPowerDBm := v; pon_RxPowerDBm := pon_RxPowerDBm p;
     ONTCount := ONTCount p |}.

Definition set_pon_RxPowerDBm (v : float64) (p : PONPortMetrics) : PONPortMetrics :=
  {| pon_DeviceID := pon_DeviceID p; pon_Timestamp := pon_Timestamp p;
     PortIndex := PortIndex p; AdminStatus := AdminStatus p; OperStatus := OperStatus p;
     pon_TxPowerDBm := pon_TxPowerDBm p; pon_RxPowerDBm := v;
     ONTCount := ONTCount p |}.

Definition set_ONTCount (v : Z) (p : PONPortMetrics) : PONPortMetrics :=
  {| pon_DeviceID := pon_DeviceID p; pon_Timestamp := pon_Timestamp p;
     PortIndex := PortIndex p; AdminStatus := AdminStatus p; OperStatus := OperStatus p;
     pon_TxPowerDBm := pon_TxPowerDBm p; pon_RxPowerDBm := pon_RxPowerDBm p;
     ONTCount := v |}.

Definition set_ont_OperStatus (v : Z) (o : ONTMetrics) : ONTMetrics :=
  {| ont_DeviceID := ont_DeviceID o; ont_Timestamp := ont_Timestamp o;
     PONPortIndex := PONPortIndex o; ONTIndex := ONTIndex o;
     SerialNumber := SerialNumber o; ont_OperStatus := v;
     ont_RxPowerDBm := ont_RxPowerDBm o; ont_TxPowerDBm := ont_TxPowerDBm o;
     DistanceMeters := DistanceMeters o; Description := Description o |}.

Definition set_ont_RxPowerDBm (v : float64) (o : ONTMetrics) : ONTMetrics :=
  {| ont_DeviceID := ont_DeviceID o; ont_Timestamp := ont_Timestamp o;
     PONPortIndex := PONPortIndex o; ONTIndex := ONTIndex o;
     SerialNumber := SerialNumber o; ont_OperStatus := ont_OperStatus o;
     ont_RxPowerDBm := v; ont_TxPowerDBm := ont_TxPowerDBm o;
     DistanceMeters := DistanceMeters o; Description := Description o |}.

Definition set_ont_TxPowerDBm (v : float64) (o : ONTMetrics) : ONTMetrics :=
  {| ont_DeviceID := ont_DeviceID o; ont_Timestamp := ont_Timestamp o;
     PONPortIndex := PONPortIndex o; ONTIndex := ONTIndex o;
     SerialNumber := SerialNumber o; ont_OperStatus := ont_OperStatus o;
     ont_RxPowerDBm := ont_RxPowerDBm o; ont_TxPowerDBm := v;
     DistanceMeters := DistanceMeters o; Description := Description o |}.

Definition set_DistanceMeters (v : Z) (o : ONTMetrics) : ONTMetrics :=
  {| ont_DeviceID := ont_DeviceID o; ont_Timestamp := ont_Timestamp o;
     PONPortIndex := PONPortIndex o; ONTIndex := ONTIndex o;
     SerialNumber := SerialNumber o; ont_OperStatus := ont_OperStatus o;
     ont_RxPowerDBm := ont_RxPowerDBm o; ont_TxPowerDBm := ont_TxPowerDBm o;
     DistanceMeters := v; Description := Description o |}.

(** ** The three collection methods *)

Section Methods.

(** What [int64(x)] yields on this platform for a float [x] whose
    integer part does not fit (implementation-defined in Go). *)
Variable oor : float64 -> Z.

(** *** GetSystemMetrics *)

(** The body of the loop over [packet.Variables]. The type assertion
    [pdu.Value.([]byte)] panics on any other dynamic type. *)
Definition scalarCase (metrics : OLTSystemMetrics) (pdu : SnmpPDU) : result OLTSystemMetrics :=
  let name := TrimPrefix (pdu_Name pdu) "." in
  if String.eqb name OIDSysDescr then
    if pdu_Type pdu =? OctetString then
      match pdu_Value pdu with
      | ABytes b => Ok (set_SysDescr b metrics)
      | _ => Panic "interface conversion"
      end
    else Ok metrics
  else if String.eqb name OIDSysName then
    if pdu_Type pdu =? OctetString then
      match pdu_Value pdu with
      | ABytes b => Ok (set_SysName b metrics)
      | _ => Panic "interface conversion"
      end
    else Ok metrics
  else if String.eqb name OIDSysUpTime then
    Ok (set_UptimeSeconds (Z.quot (int64 (pduToUint32 pdu)) 100) metrics)
  else Ok metrics.

(** The map literal [walkOIDs] of GetSystemMetrics: base OID and the
    update closure, which mutates the captured [metrics]. *)
Definition systemWalkOIDs : list (string * (SnmpPDU -> OLTSystemMetrics -> OLTSystemMetrics)) :=
  [ (OIDZTECardCPUUsage, fun pdu metrics =>
       let val := float64_of_int (pduToInt pdu) in
       if fgt val (CPUUsagePercent metrics) then set_CPUUsagePercent val metrics else metrics);
    (OIDZTECardTemperature, fun pdu metrics =>
       let val := float64_of_int (pduToInt pdu) in
       if fgt val (TemperatureCelsius metrics) then set_TemperatureCelsius val metrics else metrics);
    (OIDZTECardMemoryUsage, fun pdu metrics =>
       let val := float64_of_int (pduToInt pdu) in
       if fgt val (MemoryUsagePercent metrics) then set_MemoryUsagePercent val metrics else metrics);
    (OIDZTECardMemoryTotal, fun pdu metrics =>
       let val := int64 (int64 (pduToInt pdu) * 1024) in
       if val >? MemoryTotalKB metrics then set_MemoryTotalKB val metrics else metrics) ].

(** One iteration of [for baseOID, updateFunc := range walkOIDs]: the
    walk feeds every PDU to the closure; the error the walk returns is
    tested and then dropped (the body of that [if] is only comments). *)
Definition systemWalk (c : ZTEOLTClient) (metrics : OLTSystemMetrics)
    (entry : string * (SnmpPDU -> OLTSystemMetrics -> OLTSystemMetrics)) : OLTSystemMetrics :=
  let '(baseOID, updateFunc) := entry in
  let '(pdus, err) := Walk (snmp c) baseOID in
  let metrics := fold_left (fun m pdu => updateFunc pdu m) pdus metrics in
  match err with
  | Some _ => metrics
  | None => metrics
  end.

(** The final [if] of GetSystemMetrics. *)
Definition usedMemory (metrics : OLTSystemMetrics) : OLTSystemMetrics :=
  if (MemoryTotalKB metrics >? 0) && fgt (MemoryUsagePercent metrics) fzero then
    set_MemoryUsedKB
      (int64_of_float oor
         (fdiv (fmul (float64_of_int (MemoryTotalKB metrics)) (MemoryUsagePercent metrics))
               (float64_of_int 100)))
      metrics
  else metrics.

(** [GetSystemMetrics]. [now] is what [time.Now()] returns; [entries]
    is the order in which [range] happens to visit the map literal, a
    permutation of [systemWalkOIDs]. *)
Definition GetSystemMetrics (c : ZTEOLTClient) (now : Time)
    (entries : list (string * (SnmpPDU -> OLTSystemMetrics -> OLTSystemMetrics)))
    : result OLTSystemMetrics :=
  match Get (snmp c) [OIDSysDescr; OIDSysName; OIDSysUpTime] with
  | (_, Some err) => Err (Wrapf "failed to get system metrics: " err)
  | (packet, None) =>
      match device c with
      | None => Panic "nil pointer dereference"
      | Some d =>
          let metrics :=
            {| sys_DeviceID := Model.ID d; sys_Timestamp := now;
               SysDescr := ""; SysName := ""; UptimeSeconds := 0;
               CPUUsagePercent := fzero; MemoryTotalKB := 0; MemoryUsedKB := 0;
               MemoryUsagePercent := fzero; TemperatureCelsius := fzero |} in
          match packet with
          | None => Panic "nil pointer dereference"
          | Some variables =>
              bind (foldM scalarCase variables metrics) (fun metrics =>
              let metrics := fold_left (systemWalk c) entries metrics in
              Ok (usedMemory metrics))
          end
      end
  end.

(** *** GetPONPortMetrics *)

Definition ponWalkOIDs : list (string * (SnmpPDU -> PONPortMetrics -> PONPortMetrics)) :=
  [ (OIDZTEPONPortAdminStatus, fun pdu port => set_AdminStatus (pduToInt pdu) port);
    (OIDZTEPONPortOperStatus, fun pdu port => set_OperStatus (pduToInt pdu) port);
    (OIDZTEPONPortTxPower, fun pdu port =>
       set_pon_TxPowerDBm (fdiv (float64_of_int (pduToInt pdu)) snmpPowerScale) port);
    (OIDZTEPONPortRxPower, fun pdu port =>
       set_pon_RxPowerDBm (fdiv (float64_of_int (pduToInt pdu)) snmpPowerScale) port);
    (OIDZTEPONPortONTCount, fun pdu port => set_ONTCount (pduToInt pdu) port) ].

(** The walk callback: find or create the record of the port index,
    then let the setter mutate it. Each record is reachable only
    through [portsByIndex], so the map holds the records themselves. *)
Definition ponCallback (c : ZTEOLTClient) (timestamp : Time) (localBaseOID : string)
    (localSetter : SnmpPDU -> PONPortMetrics -> PONPortMetrics)
    (portsByIndex : gmap Z PONPortMetrics) (pdu : SnmpPDU) : result (gmap Z PONPortMetrics) :=
  let index := extractLastOIDIndex (pdu_Name pdu) localBaseOID in
  if index <? 0 then Ok portsByIndex
  else
    match portsByIndex !! index with
    | Some port => Ok (<[index := localSetter pdu port]> portsByIndex)
    | None =>
        match device c with
        | None => Panic "nil pointer dereference"
        | Some d =>
            let port :=
              {| pon_DeviceID := Model.ID d; pon_Timestamp := timestamp; PortIndex := index;
                 AdminStatus := 0; OperStatus := 0; pon_TxPowerDBm := fzero;
                 pon_RxPowerDBm := fzero; ONTCount := 0 |} in
            Ok (<[index := localSetter pdu port]> portsByIndex)
        end
    end.

(** One iteration of the loop over [walkOIDs]. *)
Definition ponWalk (c : ZTEOLTClient) (timestamp : Time) (portsByIndex : gmap Z PONPortMetrics)
    (entry : string * (SnmpPDU -> PONPortMetrics -> PONPortMetrics))
    : result (gmap Z PONPortMetrics) :=
  let '(localBaseOID, localSetter) := entry in
  let '(pdus, err) := Walk (snmp c) localBaseOID in
  bind (foldM (ponCallback c timestamp localBaseOID localSetter) pdus portsByIndex)
    (fun portsByIndex =>
       match err with
       | Some e => Err (Wrapf ("failed to walk PON port OID " ++ localBaseOID ++ ": ") e)
       | None => Ok portsByIndex
       end).

(** [GetPONPortMetrics]. The returned slice lists the map's records in
    the order [range] visits them, which Go leaves unspecified; here
    it is the order of [map_to_list]. *)
Definition GetPONPortMetrics (c : ZTEOLTClient) (now : Time)
    (entries : list (string * (SnmpPDU -> PONPortMetrics -> PONPortMetrics)))
    : result (list PONPortMetrics) :=
  bind (foldM (ponWalk c now) entries ∅)
    (fun portsByIndex => Ok ((map_to_list portsByIndex).*2)).

(** *** GetONTMetrics *)

Definition ontWalkOIDs : list (string * (SnmpPDU -> ONTMetrics -> ONTMetrics)) :=
  [ (OIDZTEONTSerialNumber, fun pdu ont => ont);
    (OIDZTEONTOperStatus, fun pdu ont => set_ont_OperStatus (pduToInt pdu) ont);
    (OIDZTEONTRxPower, fun pdu ont =>
       set_ont_RxPowerDBm (fdiv (float64_of_int (pduToInt pdu)) snmpPowerScale) ont);
    (OIDZTEONTTxPower, fun pdu ont =>
       set_ont_TxPowerDBm (fdiv (float64_of_int (pduToInt pdu)) snmpPowerScale) ont);
    (OIDZTEONTDistance, fun pdu ont => set_DistanceMeters (pduToInt pdu) ont) ].

(** The walk callback of GetONTMetrics. The two heuristic assignments
    to [ponIdx] and [ontIdx] are overwritten before use, and the
    [if ponPortIndex > 0] has an empty body, as in the source. *)
Definition ontCallback (c : ZTEOLTClient) (timestamp : Time) (ponPortIndex : Z)
    (localBaseOID : string) (localSetter : SnmpPDU -> ONTMetrics -> ONTMetrics)
    (ontsByKey : gmap string ONTMetrics) (pdu : SnmpPDU) : result (gmap string ONTMetrics) :=
  let index := extractLastOIDIndex (pdu_Name pdu) localBaseOID in
  if index <? 0 then Ok ontsByKey
  else
    let ponIdx := int64 (Z.shiftl (Z.shiftr index 8) 8) in
    let ontIdx := Z.land index 255 in
    let ponIdx := index in
    let ontIdx := index in
    let _ := if ponPortIndex >? 0 then tt else tt in
    let key := Sprintf_d index in
    bind
      (match ontsByKey !! key with
       | Some _ => Ok ontsByKey
       | None =>
           match device c with
           | None => Panic "nil pointer dereference"
           | Some d =>
               Ok (<[key :=
                     {| ont_DeviceID := Model.ID d; ont_Timestamp := timestamp;
                        PONPortIndex := ponIdx; ONTIndex := ontIdx;
                        SerialNumber := Sprintf_X index; ont_OperStatus := 0;
                        ont_RxPowerDBm := fzero; ont_TxPowerDBm := fzero;
                        DistanceMeters := 0;
                        Description := "ONT-" ++ Sprintf_d index |}]> ontsByKey)
           end
       end)
      (fun ontsByKey =>
         if String.eqb localBaseOID OIDZTEONTSerialNumber then Ok ontsByKey
         else
           match ontsByKey !! key with
           | Some ont => Ok (<[key := localSetter pdu ont]> ontsByKey)
           | None => Panic "nil pointer dereference"
           end).

Definition ontWalk (c : ZTEOLTClient) (timestamp : Time) (ponPortIndex : Z)
    (ontsByKey : gmap string ONTMetrics)
    (entry : string * (SnmpPDU -> ONTMetrics -> ONTMetrics))
    : result (gmap string ONTMetrics) :=
  let '(localBaseOID, localSetter) := entry in
  let '(pdus, err) := Walk (snmp c) localBaseOID in
  bind (foldM (ontCallback c timestamp ponPortIndex localBaseOID localSetter) pdus ontsByKey)
    (fun ontsByKey =>
       match err with
       | Some e => Err (Wrapf ("failed to walk ONT OID " ++ localBaseOID ++ ": ") e)
       | None => Ok ontsByKey
       end).

(** [GetONTMetrics]; the order of the returned slice is that of the
    map iteration, as for [GetPONPortMetrics]. *)
Definition GetONTMetrics (c : ZTEOLTClient) (now : Time)
    (entries : list (string * (SnmpPDU -> ONTMetrics -> ONTMetrics)))
    (ponPortIndex : Z) : result (list ONTMetrics) :=
  bind (foldM (ontWalk c now ponPortIndex) entries ∅)
    (fun ontsByKey => Ok ((map_to_list ontsByKey).*2)).

(** [GetAllONTMetrics]. *)
Definition GetAllONTMetrics (c : ZTEOLTClient) (now : Time)
    (entries : list (string * (SnmpPDU -> ONTMetrics -> ONTMetrics)))
    : result (list ONTMetrics) :=
  GetONTMetrics c now entries 0.

End Methods.

(** ** The test double of client_test.go *)

(** [mockSNMPClient]: [Get] returns the stored packet and error; [Walk]
    fails at once when [walkErr] is set and otherwise replays the PDUs
    stored under the OID. *)
Definition mockSNMPClient (getPacket : option (list SnmpPDU)) (getErr : option error)
    (walkResults : gmap string (list SnmpPDU)) (walkErr : option error) : SNMPClient :=
  {| Get := fun _ => (getPacket, getErr);
     Walk := fun oid =>
       match walkErr with
       | Some e => ([], Some e)
       | None => (default [] (walkResults !! oid), None)
       end |}.

Definition pduInt (name : string) (value : Z) : SnmpPDU :=
  {| pdu_Name := name; pdu_Type := Integer; pdu_Value := AInt value |}.

Definition pduTimeTicks (name : string) (value : Z) : SnmpPDU :=
  {| pdu_Name := name; pdu_Type := TimeTicks; pdu_Value := AUint32 value |}.

Definition pduOctetString (name : string) (value : string) : SnmpPDU :=
  {| pdu_Name := name; pdu_Type := OctetString; pdu_Value := ABytes value |}.

(** [newTestDevice]. *)
Definition newTestDevice : Model.Device :=
  {| Model.ID := "test-olt-001"; Model.Name := "ZTE C320 Test OLT";
     Model.IPAddress := "192.168.1.1"; Model.DeviceType := "";
     Model.Protocol := "snmp"; Model.Enabled := false |}.

(** [NewZTEOLTClientForTest] followed by [SetDevice]. *)
Definition testClient (mock : SNMPClient) : ZTEOLTClient :=
  {| snmp := mock; device := Some newTestDevice; timeout := 10000000000 |}.

End Zte.

(* ===================================================================== *)
(** * The message bus, the log and the other sinks                        *)
(* ===================================================================== *)

Module Bus.

(** An InfluxDB point as built by [influxdb2.NewPoint]. *)
Record Point : Type := {
  measurement : string;
  tags : gmap string string;
  fields : gmap string any;
  ts : Time;
}.

(** A message body. [json.Marshal] of a value is identified with the
    value itself. *)
Inductive Msg : Type :=
| MsgPollTask (task : Model.PollTask)
| MsgMetric (metric : Model.Metric).

(** What a run does to the outside world, in order: NATS publishes,
    InfluxDB writes, notifier calls and log lines. A publish or a write
    is recorded when it is attempted; a failure shows as the log line
    that follows it. *)
Inductive Event : Type :=
| EvPublish (subject : string) (msg : Msg)
| EvWritePoint (p : Point)
| EvSend (to subject body : string)
| EvLog (line : string).

(** [*nats.Conn], as far as it is used: the error [Publish] returns. *)
Record Conn : Type := {
  Publish : string -> Msg -> option error;
}.

End Bus.

(* ===================================================================== *)
(** * internal/device/repository and internal/device/service             *)
(* ===================================================================== *)

Module Repository.

(** [DeviceFilter]. [ListDevices] only ever sets [Limit] and [Offset];
    all other fields stay at their zero value, for which [applyFilter]
    adds no condition. *)
Record DeviceFilter : Type := {
  Limit : Z;
  Offset : Z;
}.

(** The database behind gorm: [Find limit offset] runs the SELECT of
    [List] with the given LIMIT and OFFSET clauses ([None]: no clause),
    [CountRows] the SELECT count of [Count]. *)
Record DB : Type := {
  Find : option Z -> option Z -> result (list Model.Device);
  CountRows : result Z;
}.

(** A database that answers from a table of device rows. *)
Definition tableDB (rows : list Model.Device) : DB :=
  {| Find := fun limit offset =>
       let rows := match offset with Some o => drop (Z.to_nat o) rows | None => rows end in
       Ok (match limit with Some l => take (Z.to_nat l) rows | None => rows end);
     CountRows := Ok (Z.of_nat (length rows)) |}.

(** [deviceRepository.List]. *)
Definition List (db : DB) (filter : option DeviceFilter) : result (list Model.Device) :=
  match filter with
  | None => Find db None None
  | Some f =>
      Find db (if Limit f >? 0 then Some (Limit f) else None)
              (if Offset f >? 0 then Some (Offset f) else None)
  end.

(** [deviceRepository.Count]. *)
Definition Count (db : DB) (filter : option DeviceFilter) : result Z := CountRows db.

End Repository.

Module Service.

(** The interface [DeviceService], restricted to [ListDevices]. *)
Record DeviceService : Type := {
  ListDevices : Z -> Z -> result (list Model.Device * Z);
}.

(** [deviceService.ListDevices]. *)
Definition deviceService_ListDevices (db : Repository.DB) (page pageSize : Z)
    : result (list Model.Device * Z) :=
  let page := if page <? 1 then 1 else page in
  let pageSize := if (pageSize <? 1) || (pageSize >? 100) then 20 else pageSize in
  let offset := int64 ((page - 1) * pageSize) in
  let filter := {| Repository.Limit := pageSize; Repository.Offset := offset |} in
  bind (Repository.List db (Some filter)) (fun devices =>
  bind (Repository.Count db (Some filter)) (fun count =>
  Ok (devices, count))).

(** [NewDeviceService]. *)
Definition NewDeviceService (db : Repository.DB) : DeviceService :=
  {| ListDevices := deviceService_ListDevices db |}.

End Service.

(* ===================================================================== *)
(** * internal/collector: the scheduler                                   *)
(* ===================================================================== *)

Module Collector.

Import Bus.

Record Scheduler : Type := {
  deviceService : Service.DeviceService;
  natsConn : Conn;
}.

(** The body of the loop of [schedulePolls] for the [i]-th device of
    the list; [now i] is the time read there. *)
Definition scheduleOne (s : Scheduler) (now : nat -> Time) (i : nat) (d : Model.Device)
    : list Event :=
  if negb (Model.Enabled d) then []
  else
    let task :=
      {| Model.task_DeviceID := Model.ID d;
         Model.task_IPAddress := Model.IPAddress d;
         Model.task_DeviceType := Model.DeviceType d;
         Model.task_Protocol := Model.Protocol d;
         Model.task_Timestamp := now i |} in
    let payload := MsgPollTask task in
    EvPublish "nms.poll.tasks" payload ::
    match Publish (natsConn s) "nms.poll.tasks" payload with
    | Some err =>
        [EvLog ("Error publishing task for device " ++ Model.Name d ++ ": " ++ Error err)]
    | None => []
    end.

(** [Scheduler.schedulePolls], one tick. *)
Definition schedulePolls (s : Scheduler) (now : nat -> Time) : list Event :=
  match Service.ListDevices (deviceService s) 1 1000 with
  | Ok (devices, _) => concat (imap (scheduleOne s now) devices)
  | Err err => [EvLog ("Error fetching devices: " ++ Error err)]
  | Panic _ => []
  end.

(** The poll tasks a tick puts on the bus. *)
Definition published_tasks (evs : list Event) : list Model.PollTask :=
  omap (fun ev => match ev with
                  | EvPublish _ (MsgPollTask t) => Some t
                  | _ => None
                  end) evs.

End Collector.

(* ===================================================================== *)
(** * internal/worker: processTask                                       *)
(* ===================================================================== *)

Module Worker.

Import Bus.

(** What the worker meets outside: the Mikrotik adapter's answer
    (a nil map is the empty map), the outcome of running the ping
    command (elapsed time, and whether [cmd.Run] returned nil), the
    clock, InfluxDB and NATS. *)
Record World : Type := {
  FetchSystemResources : string -> string -> string -> gmap string any * bool;
  runPing : string -> Z * bool;
  sincePollStart : Z;
  pointTime : Time;
  metricTime : Time;
  WritePoint : Point -> option error;
  natsConn : Conn;
}.

(** [PingAdapter.Ping]. *)
Definition Ping (w : World) (ip : string) : Z * bool :=
  let '(elapsed, ok) := runPing w ip in
  if ok then (elapsed, true) else (0, false).

(** [for k, v := range metrics { values[k] = v }]. *)
Definition copyInto (metrics values : gmap string any) : gmap string any :=
  map_fold (fun k v values => <[k := v]> values) values metrics.

(** [Worker.processTask]. *)
Definition processTask (w : World) (task : Model.PollTask) : list Event :=
  let '(rtt, success, metrics) :=
    if String.eqb (Model.task_Protocol task) "mikrotik_api" then
      let '(m, ok) := FetchSystemResources w (Model.task_IPAddress task) "admin" "admin" in
      let '(rtt, _) := Ping w (Model.task_IPAddress task) in
      (rtt, ok, m)
    else
      let '(rtt, success) := Ping w (Model.task_IPAddress task) in
      (rtt, success, ∅) in
  let duration := sincePollStart w in
  let rttMs := fdiv (float64_of_int (Microseconds rtt)) (float64_of_int 1000) in
  let p :=
    {| measurement := "device_poll";
       tags := <["device_id" := Model.task_DeviceID task]>
               (<["ip_address" := Model.task_IPAddress task]>
               (<["device_type" := Model.task_DeviceType task]> ∅));
       fields := <["rtt_ms" := AFloat64 rttMs]>
                 (<["success" := ABool success]>
                 (<["poll_duration_ms" := AFloat64 (float64_of_int (Milliseconds duration))]> ∅));
       ts := pointTime w |} in
  let writeLog :=
    match WritePoint w p with
    | Some err => [EvLog ("Error writing metrics to Influx: " ++ Error err)]
    | None => []
    end in
  let values : gmap string any :=
    <["rtt_ms" := AFloat64 rttMs]> (<["success" := ABool success]> ∅) in
  let values := copyInto metrics values in
  let metric :=
    {| Model.metric_DeviceID := Model.task_DeviceID task;
       Model.metric_DeviceName := "";
       Model.metric_IPAddress := Model.task_IPAddress task;
       Model.metric_Timestamp := metricTime w;
       Model.metric_Values := values;
       Model.metric_Tags := ∅ |} in
  let payload := MsgMetric metric in
  let publishLog :=
    match Publish (natsConn w) "nms.metrics" payload with
    | Some err => [EvLog ("Error publishing metrics to NATS: " ++ Error err)]
    | None => []
    end in
  EvWritePoint p :: writeLog ++ EvPublish "nms.metrics" payload :: publishLog.

(** The metrics and the points a run emits. *)
Definition published_metrics (evs : list Event) : list Model.Metric :=
  omap (fun ev => match ev with
                  | EvPublish _ (MsgMetric m) => Some m
                  | _ => None
                  end) evs.

Definition written_points (evs : list Event) : list Point :=
  omap (fun ev => match ev with
                  | EvWritePoint p => Some p
                  | _ => None
                  end) evs.

End Worker.

(* ===================================================================== *)
(** * internal/alert: the rule engine                                    *)
(* ===================================================================== *)

Module Alert.

Import Bus.

(** [Rule]. *)
Record Rule : Type := {
  rule_ID : string;
  rule_DeviceID : string;
  MetricName : string;
  Operator : string;
  Threshold : float64;
  rule_Description : string;
  Severity : string;
}.

(** [toFloat]. *)
Definition toFloat (unk : any) : float64 * bool :=
  match unk with
  | AFloat64 v => (v, true)
  | AInt v => (float64_of_int v, true)
  | ABool v => if v then (float64_of_int 1, true) else (fzero, true)
  | _ => (fzero, false)
  end.

(** The [switch rule.Operator]; [triggered] starts out false. *)
Definition triggered (operator : string) (floatVal threshold : float64) : bool :=
  if String.eqb operator ">" then fgt floatVal threshold
  else if String.eqb operator "<" then flt floatVal threshold
  else if String.eqb operator "=" then feq floatVal threshold
  else if String.eqb operator ">=" then fge floatVal threshold
  else if String.eqb operator "<=" then fle floatVal threshold
  else false.

Section Engine.

(** [fmt.Sprintf("%.2f", x)]: the decimal rendering of a float with
    two digits after the point. *)
Variable format_2f : float64 -> string.

(** The bytes of the high-voltage sign U+26A1 and a space, the prefix
    of the log line. *)
Definition zap : string :=
  String (ascii_of_nat 226) (String (ascii_of_nat 154) (String (ascii_of_nat 161) " ")).

(** The body of the loop of [evaluate] for one rule. *)
Definition evaluateRule (metric : Model.Metric) (rule : Rule) : list Event :=
  if negb (String.eqb (rule_DeviceID rule) "")
     && negb (String.eqb (rule_DeviceID rule) (Model.metric_DeviceID metric)) then []
  else
    match Model.metric_Values metric !! MetricName rule with
    | None => []
    | Some val =>
        let '(floatVal, ok) := toFloat val in
        if negb ok then []
        else if triggered (Operator rule) floatVal (Threshold rule) then
          let alertMsg :=
            "ALERT [" ++ Severity rule ++ "]: Device " ++ Model.metric_DeviceName metric
            ++ " (" ++ Model.metric_IPAddress metric ++ ") - " ++ rule_Description rule
            ++ " (Value: " ++ format_2f floatVal ++ ")" in
          [EvLog (zap ++ alertMsg);
           EvSend "admin@example.com" ("NMS Alert: " ++ rule_Description rule) alertMsg]
        else []
    end.

(** [Engine.evaluate]. *)
Definition evaluate (rules : list Rule) (metric : Model.Metric) : list Event :=
  concat (map (evaluateRule metric) rules).

End Engine.

(** The rule set built by [NewEngine]. *)
Definition defaultRules : list Rule :=
  [ {| rule_ID := "rule-1"; rule_DeviceID := ""; MetricName := "rtt_ms"; Operator := ">";
       Threshold := float64_of_int 100; rule_Description := "High Latency (>100ms)";
       Severity := "warning" |};
    {| rule_ID := "rule-2"; rule_DeviceID := ""; MetricName := "success"; Operator := "=";
       Threshold := fzero; rule_Description := "Device Down";
       Severity := "critical" |} ].

(** The notifier calls among a run's events. *)
Definition sends (evs : list Event) : list (string * string * string) :=
  omap (fun ev => match ev with
                  | EvSend to subject body => Some (to, subject, body)
                  | _ => None
                  end) evs.

End Alert.

(* ===================================================================== *)
(** * Notions used to state the properties                                *)
(* ===================================================================== *)

Module Spec.

Import Zte.

(** A decimal integer numeral: an optional sign and one or more digits,
    nothing else. *)
Definition isInteger (s : string) : bool :=
  match s with
  | EmptyString => false
  | String c r =>
      if is_sign c then negb (String.eqb r "") && all_bytes is_digit r
      else all_bytes is_digit s
  end.

(** The integer such a numeral denotes. *)
Definition integerValue (s : string) : Z :=
  match s with
  | EmptyString => 0
  | String c r =>
      if is_sign c then (if byte_of c =? 45 then - decimal_value 0 r else decimal_value 0 r)
      else decimal_value 0 s
  end.

(** The last dot-separated component of [s]. *)
Definition lastComponent (s : string) : string := List.last (Split s ".") EmptyString.

(** A visible ASCII byte that cannot begin a numeral: not a digit, not a
    sign (and not a space, which lies outside the range). *)
Definition isOtherVisible (c : ascii) : bool :=
  (33 <=? byte_of c) && (byte_of c <=? 126) && negb (is_digit c) && negb (is_sign c).

(** The first byte of [s], if any, satisfies [p]. *)
Definition startsWith (p : ascii -> bool) (s : string) : bool :=
  match s with
  | EmptyString => false
  | String c _ => p c
  end.

(** The sentence of the specification about [extractLastOIDIndex], read
    literally: the last component parsed as an integer when the OID
    starts with the base and a dot, and -1 when it does not or when the
    last component is not an integer. *)
Definition extractLastOIDIndex_as_specified (oid baseOID : string) : Prop :=
  let o := TrimPrefix oid "." in
  let b := TrimPrefix baseOID "." in
  let comp := lastComponent (drop_bytes (String.length (b ++ ".")) o) in
  (HasPrefix o (b ++ ".") = true -> isInteger comp = true ->
     extractLastOIDIndex oid baseOID = integerValue comp)
  /\ (HasPrefix o (b ++ ".") = false \/ isInteger comp = false ->
     extractLastOIDIndex oid baseOID = -1).

(** The error a PON-port walk ends with, wrapped as GetPONPortMetrics
    wraps it; [None] when the walk ends well. *)
Definition ponWalkError (c : ZTEOLTClient)
    (entry : string * (SnmpPDU -> PONPortMetrics -> PONPortMetrics)) : option error :=
  match (Walk (snmp c) entry.1).2 with
  | Some e => Some (Wrapf ("failed to walk PON port OID " ++ entry.1 ++ ": ") e)
  | None => None
  end.

End Spec.

(* ===================================================================== *)
(** * Inputs taken from the tests                                         *)
(* ===================================================================== *)

Module Fixtures.

Import Zte.

(** The packet of TestGetSystemMetrics_Success. *)
Definition systemPacket : list SnmpPDU :=
  [ pduOctetString OIDSysDescr "ZTE C320 OLT v2.0";
    pduOctetString OIDSysName "OLT-SUDIRMAN-01";
    pduTimeTicks OIDSysUpTime 360000 ].

(** The walk results of TestGetSystemMetrics_Success. *)
Definition systemWalkResults : gmap string (list SnmpPDU) :=
  list_to_map
    [ (OIDZTECardCPUUsage, [pduInt (OIDZTECardCPUUsage ++ ".1") 45]);
      (OIDZTECardMemoryTotal, [pduInt (OIDZTECardMemoryTotal ++ ".1") 2000]);
      (OIDZTECardMemoryUsage, [pduInt (OIDZTECardMemoryUsage ++ ".1") 50]);
      (OIDZTECardTemperature, [pduInt (OIDZTECardTemperature ++ ".1") 42]) ].

(** The agent of the end-to-end scenario: it answers the GET and every
    walk. *)
Definition respondingClient : ZTEOLTClient :=
  testClient (mockSNMPClient (Some systemPacket) None systemWalkResults None).

(** An agent that answers the GET but whose walks time out (the mock of
    TestGetPONPortMetrics_WalkError, with the packet of the success test). *)
Definition walkTimeout : error := ErrorString "snmp walk timeout".

Definition walkErrorClient : ZTEOLTClient :=
  testClient (mockSNMPClient (Some systemPacket) None ∅ (Some walkTimeout)).

(** The agent of TestGetSystemMetrics_ZeroMemory. *)
Definition zeroMemoryClient : ZTEOLTClient :=
  testClient
    (mockSNMPClient (Some [pduOctetString OIDSysDescr "ZTE C320 OLT v2.0"]) None
       (list_to_map
          [ (OIDZTECardMemoryTotal, [pduInt (OIDZTECardMemoryTotal ++ ".1") 0]);
            (OIDZTECardMemoryUsage, [pduInt (OIDZTECardMemoryUsage ++ ".1") 0]) ])
       None).

End Fixtures.

(* ===================================================================== *)
(** * Notions used to state the properties of GetSystemMetrics            *)
(* ===================================================================== *)

Module SystemSpec.

Import Zte.

(** What gosnmp guarantees of a decoded PDU: one of type OctetString
    carries a byte slice. *)
Definition octetsAreBytes (pdu : SnmpPDU) : Prop :=
  pdu_Type pdu = OctetString -> exists b, pdu_Value pdu = ABytes b.

(** A float that is +0, positive and finite, or +Inf. *)
Definition nonnegFloat (x : float64) : Prop :=
  x = S754_zero false \/ (exists m e, x = S754_finite false m e) \/ x = S754_infinity false.

(** The fields of the record that the GET fills. *)
Definition scalarFields (m : OLTSystemMetrics) : string * Time * string * string * Z :=
  (sys_DeviceID m, sys_Timestamp m, SysDescr m, SysName m, UptimeSeconds m).

(** The fields of the record that the walks and the final computation
    fill. *)
Definition walkFields (m : OLTSystemMetrics) : float64 * Z * Z * float64 * float64 :=
  (CPUUsagePercent m, MemoryTotalKB m, MemoryUsedKB m, MemoryUsagePercent m,
   TemperatureCelsius m).

(** [total_kb * used_percent / 100], computed as the code computes it. *)
Definition usedKB (oor : float64 -> Z) (totalKB : Z) (usedPercent : float64) : Z :=
  int64_of_float oor (fdiv (fmul (float64_of_int totalKB) usedPercent) (float64_of_int 100)).

End SystemSpec.

Module SystemInvariants.

Import Zte SystemSpec.

(** The record GetSystemMetrics starts from. *)
Definition freshMetrics (d : Model.Device) (now : Time) : OLTSystemMetrics :=
  {| sys_DeviceID := Model.ID d; sys_Timestamp := now;
     SysDescr := ""; SysName := ""; UptimeSeconds := 0;
     CPUUsagePercent := fzero; MemoryTotalKB := 0; MemoryUsedKB := 0;
     MemoryUsagePercent := fzero; TemperatureCelsius := fzero |}.

(** What the walks keep true of the record, [m0] being the record before
    the first walk. *)
Definition walkInvariant (m0 m : OLTSystemMetrics) : Prop :=
  scalarFields m = scalarFields m0
  /\ MemoryUsedKB m = MemoryUsedKB m0
  /\ (0 <= MemoryTotalKB m0 -> 0 <= MemoryTotalKB m)
  /\ (nonnegFloat (MemoryUsagePercent m0) -> nonnegFloat (MemoryUsagePercent m)).

(** The guard of the final computation. *)
Definition bothPositive (m : OLTSystemMetrics) : bool :=
  (MemoryTotalKB m >? 0) && fgt (MemoryUsagePercent m) fzero.

End SystemInvariants.

Module PowerSpec.

Import Zte.

(** A raw optical power [v], in units of 0.1 dBm, divided by 10 in
    float64. *)
Definition dBm (v : Z) : float64 := fdiv (float64_of_int v) (float64_of_int 10).

(** The record the PON callback creates on first sight of index [i]. *)
Definition freshPort (d : Model.Device) (timestamp : Time) (i : Z) : PONPortMetrics :=
  {| pon_DeviceID := Model.ID d; pon_Timestamp := timestamp; PortIndex := i;
     AdminStatus := 0; OperStatus := 0; pon_TxPowerDBm := fzero;
     pon_RxPowerDBm := fzero; ONTCount := 0 |}.

(** The raw values seen so far, per index: [seen cur pdu] is [cur] after
    one more PDU of the column [baseOID]. *)
Definition seen (baseOID : string) (cur : Z -> option Z) (pdu : SnmpPDU) : Z -> option Z :=
  fun i => if extractLastOIDIndex (pdu_Name pdu) baseOID =? i then Some (pduToInt pdu)
           else cur i.

(** The raw value of the last PDU of the column [baseOID] with index [i]
    among [pdus], if there is one. *)
Definition lastRaw (baseOID : string) (pdus : list SnmpPDU) : Z -> option Z :=
  fold_left (seen baseOID) pdus (fun _ => None).

(** The power a record shows when [raw] is the last raw value seen for
    its index: that value divided by 10, or the zero value when the
    column had no PDU for the index. *)
Definition shown (raw : option Z) : float64 :=
  match raw with
  | Some v => dBm v
  | None => fzero
  end.

(** What holds of [portsByIndex] for one power field [get], [cur] being
    the raw values seen so far in the column of that field. *)
Definition portInvariant (get : PONPortMetrics -> float64) (cur : Z -> option Z)
    (m : gmap Z PONPortMetrics) : Prop :=
  forall i,
    match m !! i with
    | Some port => 0 <= i /\ PortIndex port = i /\ get port = shown (cur i)
    | None => 0 <= i -> cur i = None
    end.

(** The record the ONT callback creates on first sight of index [i]. *)
Definition freshONT (d : Model.Device) (timestamp : Time) (i : Z) : ONTMetrics :=
  {| ont_DeviceID := Model.ID d; ont_Timestamp := timestamp;
     PONPortIndex := i; ONTIndex := i; SerialNumber := Sprintf_X i; ont_OperStatus := 0;
     ont_RxPowerDBm := fzero; ont_TxPowerDBm := fzero; DistanceMeters := 0;
     Description := "ONT-" ++ Sprintf_d i |}.

(** What the ONT callback does to the record of the PDU: nothing in the
    serial-number column, the setter in any other. *)
Definition applied (baseOID : string) (setter : SnmpPDU -> ONTMetrics -> ONTMetrics)
    (pdu : SnmpPDU) (ont : ONTMetrics) : ONTMetrics :=
  if String.eqb baseOID OIDZTEONTSerialNumber then ont else setter pdu ont.

(** What holds of [ontsByKey] for one power field [get], [cur] being the
    raw values seen so far in the column of that field. *)
Definition ontInvariant (get : ONTMetrics -> float64) (cur : Z -> option Z)
    (m : gmap string ONTMetrics) : Prop :=
  forall i, 0 <= i ->
    match m !! Sprintf_d i with
    | Some ont => get ont = shown (cur i)
    | None => cur i = None
    end.

(** The agent of TestGetPONPortMetrics_Success. *)
Definition ponClient : ZTEOLTClient :=
  testClient
    (mockSNMPClient None None
       (list_to_map
          [ (OIDZTEPONPortAdminStatus,
             [pduInt (OIDZTEPONPortAdminStatus ++ ".1") 1;
              pduInt (OIDZTEPONPortAdminStatus ++ ".2") 1]);
            (OIDZTEPONPortOperStatus,
             [pduInt (OIDZTEPONPortOperStatus ++ ".1") 1;
              pduInt (OIDZTEPONPortOperStatus ++ ".2") 2]);
            (OIDZTEPONPortTxPower, [pduInt (OIDZTEPONPortTxPower ++ ".1") 25]);
            (OIDZTEPONPortRxPower, [pduInt (OIDZTEPONPortRxPower ++ ".1") (-180)]);
            (OIDZTEPONPortONTCount, [pduInt (OIDZTEPONPortONTCount ++ ".1") 32]) ])
       None).

End PowerSpec.

Module ONTSpec.

Import Zte.

(** The record [o] was made for the packed index [i]: both of its index
    fields hold [i] itself and its serial number is [i] in upper-case
    hexadecimal. *)
Definition fromIndex (o : ONTMetrics) (i : Z) : Prop :=
  0 <= i /\ PONPortIndex o = i /\ ONTIndex o = i /\ SerialNumber o = Sprintf_X i.

(** [i] is the index of a PDU delivered by one of the walks. *)
Definition walked (c : ZTEOLTClient)
    (entries : list (string * (SnmpPDU -> ONTMetrics -> ONTMetrics))) (i : Z) : Prop :=
  exists baseOID setter pdu,
    In (baseOID, setter) entries
    /\ In pdu (Walk (snmp c) baseOID).1
    /\ extractLastOIDIndex (pdu_Name pdu) baseOID = i.

(** What holds of [ontsByKey] throughout a collection. *)
Definition mapInvariant (c : ZTEOLTClient)
    (entries : list (string * (SnmpPDU -> ONTMetrics -> ONTMetrics)))
    (m : gmap string ONTMetrics) : Prop :=
  forall k o, m !! k = Some o ->
    exists i, k = Sprintf_d i /\ fromIndex o i /\ walked c entries i.

(** No key is ever removed. *)
Definition grows (m m' : gmap string ONTMetrics) : Prop :=
  forall k, is_Some (m !! k) -> is_Some (m' !! k).

(** The PDU, walked under [baseOID], has its record in the map. *)
Definition covered (m : gmap string ONTMetrics) (baseOID : string) (pdu : SnmpPDU) : Prop :=
  0 <= extractLastOIDIndex (pdu_Name pdu) baseOID ->
  is_Some (m !! Sprintf_d (extractLastOIDIndex (pdu_Name pdu) baseOID)).

End ONTSpec.

Module ONTFixtures.

Import Zte.

(** The agent of TestGetONTMetrics_Success. *)
Definition ontClient : ZTEOLTClient :=
  testClient
    (mockSNMPClient None None
       (list_to_map
          [ (OIDZTEONTSerialNumber,
             [pduOctetString (OIDZTEONTSerialNumber ++ ".268435456") "ZTEG12345678";
              pduOctetString (OIDZTEONTSerialNumber ++ ".268435457") "HWTCABCDEF01"]);
            (OIDZTEONTOperStatus,
             [pduInt (OIDZTEONTOperStatus ++ ".268435456") 1;
              pduInt (OIDZTEONTOperStatus ++ ".268435457") 2]);
            (OIDZTEONTRxPower,
             [pduInt (OIDZTEONTRxPower ++ ".268435456") (-185);
              pduInt (OIDZTEONTRxPower ++ ".268435457") (-990)]);
            (OIDZTEONTTxPower, []);
            (OIDZTEONTDistance, []) ])
       None).

End ONTFixtures.

Module SchedulerFixtures.

(** An enabled router, number [n]. *)
Definition enabledDevice (n : nat) : Model.Device :=
  {| Model.ID := "dev-" ++ Sprintf_d (Z.of_nat n);
     Model.Name := "router-" ++ Sprintf_d (Z.of_nat n);
     Model.IPAddress := "10.0.0." ++ Sprintf_d (Z.of_nat n);
     Model.DeviceType := "router";
     Model.Protocol := "ssh";
     Model.Enabled := true |}.

(** A registry of 21 enabled devices, dev-1 to dev-21. *)
Definition registry21 : list Model.Device := map enabledDevice (seq 1 21).

(** A bus on which every publish succeeds. *)
Definition quietBus : Bus.Conn := {| Bus.Publish := fun _ _ => None |}.

(** The scheduler as cmd/collector/main.go wires it, over that registry. *)
Definition scheduler21 : Collector.Scheduler :=
  {| Collector.deviceService := Service.NewDeviceService (Repository.tableDB registry21);
     Collector.natsConn := quietBus |}.

End SchedulerFixtures.

Module WorkerSpec.

Import Bus Worker.

(** The adapter-specific fields of a poll: what the Mikrotik adapter
    returned for a [mikrotik_api] task, nothing for any other task. *)
Definition adapterMetrics (w : World) (task : Model.PollTask) : gmap string any :=
  if String.eqb (Model.task_Protocol task) "mikrotik_api"
  then (FetchSystemResources w (Model.task_IPAddress task) "admin" "admin").1
  else ∅.

(** Whether the poll reached the device: the adapter's verdict for a
    [mikrotik_api] task, that of the ping for any other task. *)
Definition reached (w : World) (task : Model.PollTask) : bool :=
  if String.eqb (Model.task_Protocol task) "mikrotik_api"
  then (FetchSystemResources w (Model.task_IPAddress task) "admin" "admin").2
  else (runPing w (Model.task_IPAddress task)).2.

(** The round-trip time in milliseconds, as the worker computes it. *)
Definition rttMs (w : World) (task : Model.PollTask) : float64 :=
  fdiv (float64_of_int (Microseconds (Ping w (Model.task_IPAddress task)).1))
       (float64_of_int 1000).

(** The point a run writes. *)
Definition pointOf (w : World) (task : Model.PollTask) : Point :=
  {| measurement := "device_poll";
     tags := <["device_id" := Model.task_DeviceID task]>
             (<["ip_address" := Model.task_IPAddress task]>
             (<["device_type" := Model.task_DeviceType task]> ∅));
     fields := <["rtt_ms" := AFloat64 (rttMs w task)]>
               (<["success" := ABool (reached w task)]>
               (<["poll_duration_ms" :=
                    AFloat64 (float64_of_int (Milliseconds (sincePollStart w)))]> ∅));
     ts := pointTime w |}.

(** The Metric a run publishes. *)
Definition metricOf (w : World) (task : Model.PollTask) : Model.Metric :=
  {| Model.metric_DeviceID := Model.task_DeviceID task;
     Model.metric_DeviceName := "";
     Model.metric_IPAddress := Model.task_IPAddress task;
     Model.metric_Timestamp := metricTime w;
     Model.metric_Values :=
       copyInto (adapterMetrics w task)
         (<["rtt_ms" := AFloat64 (rttMs w task)]> (<["success" := ABool (reached w task)]> ∅));
     Model.metric_Tags := ∅ |}.

(** The log lines of a run: one per failing sink. *)
Definition writeLog (w : World) (task : Model.PollTask) : list Event :=
  match WritePoint w (pointOf w task) with
  | Some err => [EvLog ("Error writing metrics to Influx: " ++ Error err)]
  | None => []
  end.

Definition publishLog (w : World) (task : Model.PollTask) : list Event :=
  match Publish (natsConn w) "nms.metrics" (MsgMetric (metricOf w task)) with
  | Some err => [EvLog ("Error publishing metrics to NATS: " ++ Error err)]
  | None => []
  end.

(** The sentence of the specification, read literally: one point, one
    Metric, and the Metric's value map is the point's field set. *)
Definition processTask_as_specified (w : World) (task : Model.PollTask) : Prop :=
  exists p m,
    written_points (processTask w task) = [p]
    /\ published_metrics (processTask w task) = [m]
    /\ Model.metric_Values m = fields p.

(** A world in which the ping answers after 12.5 ms and all sinks work. *)
Definition pingWorld : World :=
  {| FetchSystemResources := fun _ _ _ => (∅, false);
     runPing := fun _ => (12500000, true);
     sincePollStart := 13000000;
     pointTime := 1;
     metricTime := 2;
     WritePoint := fun _ => None;
     natsConn := {| Publish := fun _ _ => None |} |}.

(** A task for a switch polled by ping. *)
Definition pingTask : Model.PollTask :=
  {| Model.task_DeviceID := "dev-1"; Model.task_IPAddress := "10.0.0.1";
     Model.task_DeviceType := "switch"; Model.task_Protocol := "snmp";
     Model.task_Timestamp := 0 |}.

End WorkerSpec.

Module AlertSpec.

Import Alert.

(** The five comparison operators of a rule. *)
Inductive Op : Type := OpGt | OpLt | OpEq | OpGe | OpLe.

(** How a rule spells its operator. *)
Definition opString (op : Op) : string :=
  match op with
  | OpGt => ">"
  | OpLt => "<"
  | OpEq => "="
  | OpGe => ">="
  | OpLe => "<="
  end.

(** The comparison an operator stands for, value against threshold. *)
Definition compare (op : Op) (value threshold : float64) : bool :=
  match op with
  | OpGt => fgt value threshold
  | OpLt => flt value threshold
  | OpEq => feq value threshold
  | OpGe => fge value threshold
  | OpLe => fle value threshold
  end.

(** The coercion of a metric value to float64: a float64 is itself, an
    int is converted, true is 1.0 and false is 0.0; nothing else is
    coerced. *)
Definition coerced (val : any) : option float64 :=
  match val with
  | AFloat64 v => Some v
  | AInt v => Some (float64_of_int v)
  | ABool true => Some (float64_of_int 1)
  | ABool false => Some fzero
  | _ => None
  end.

(** A rule applies to a metric when its device scope is empty or names
    the metric's device. *)
Definition inScope (rule : Rule) (metric : Model.Metric) : Prop :=
  rule_DeviceID rule = "" \/ rule_DeviceID rule = Model.metric_DeviceID metric.

(** The Metric {values: {rtt_ms: 150.0, success: true}}. *)
Definition highLatency : Model.Metric :=
  {| Model.metric_DeviceID := "test-device-1"; Model.metric_DeviceName := "Core Switch";
     Model.metric_IPAddress := "192.168.1.1"; Model.metric_Timestamp := 0;
     Model.metric_Values :=
       <["rtt_ms" := AFloat64 (float64_of_int 150)]> (<["success" := ABool true]> ∅);
     Model.metric_Tags := ∅ |}.

(** The Metric {values: {success: false}}. *)
Definition deviceDown : Model.Metric :=
  {| Model.metric_DeviceID := "test-device-2"; Model.metric_DeviceName := "Access Point";
     Model.metric_IPAddress := "192.168.1.20"; Model.metric_Timestamp := 0;
     Model.metric_Values := <["success" := ABool false]> ∅;
     Model.metric_Tags := ∅ |}.

End AlertSpec.

(* ===================================================================== *)
(** * Proof automation                                                    *)
(* ===================================================================== *)

(** Find the closure stored under a given OID in one of the map literals:
    the hypothesis [H] says that a pair is in the literal. *)
Ltac pick_entry H :=
  simpl in H;
  repeat (destruct H as [H|H];
          [ first [ exfalso; apply (f_equal fst) in H; vm_compute in H; discriminate H
                  | injection H as H; subst ]
          | ]);
  try contradiction.

(* ===================================================================== *)
(** * More of Go's strings, strconv and fmt                               *)
(* ===================================================================== *)

Module GoStrings.

(** [strings.Contains s substr]. *)
Fixpoint Contains (s substr : string) : bool :=
  HasPrefix s substr
  || match s with
     | EmptyString => false
     | String _ s' => Contains s' substr
     end.

(** [strings.ReplaceAll s old new] for [old] and [new] of one byte each,
    the only kind the code uses. *)
Fixpoint ReplaceAll (s : string) (old new : ascii) : string :=
  match s with
  | EmptyString => EmptyString
  | String c s' => String (if Ascii.eqb c old then new else c) (ReplaceAll s' old new)
  end.

(** [strings.Join elems sep]. *)
Fixpoint Join (elems : list string) (sep : string) : string :=
  match elems with
  | [] => EmptyString
  | [x] => x
  | x :: rest => x ++ sep ++ Join rest sep
  end.

(** The string read backwards, byte by byte. *)
Fixpoint reverse_onto (s acc : string) : string :=
  match s with
  | EmptyString => acc
  | String c s' => reverse_onto s' (String c acc)
  end.

Definition reverse (s : string) : string := reverse_onto s EmptyString.

(** The one-byte white space of [unicode.IsSpace]: U+0009 to U+000D and
    U+0020. *)
Definition is_white1 (c : ascii) : bool := (byte_of c =? 10) || is_space1 c.

(** [strings.TrimLeftFunc s unicode.IsSpace]: runes are decoded from
    UTF-8; the white space of two and three bytes is that of
    [is_space2] and [is_space3] (fmt's table lists the same runes). *)
Fixpoint TrimLeftSpace (s : string) : string :=
  match s with
  | EmptyString => EmptyString
  | String c1 r1 =>
      if is_white1 c1 then TrimLeftSpace r1
      else match r1 with
           | String c2 r2 =>
               if is_space2 c1 c2 then TrimLeftSpace r2
               else match r2 with
                    | String c3 r3 => if is_space3 c1 c2 c3 then TrimLeftSpace r3 else s
                    | EmptyString => s
                    end
           | EmptyString => s
           end
  end.

(** The same from the end, on the reversed string: the last rune is
    decoded backwards, so a white-space rune is trimmed exactly when its
    bytes end the string. *)
Fixpoint TrimLeftSpace_reversed (s : string) : string :=
  match s with
  | EmptyString => EmptyString
  | String c1 r1 =>
      if is_white1 c1 then TrimLeftSpace_reversed r1
      else match r1 with
           | String c2 r2 =>
               if is_space2 c2 c1 then TrimLeftSpace_reversed r2
               else match r2 with
                    | String c3 r3 =>
                        if is_space3 c3 c2 c1 then TrimLeftSpace_reversed r3 else s
                    | EmptyString => s
                    end
           | EmptyString => s
           end
  end.

Definition TrimRightSpace (s : string) : string :=
  reverse (TrimLeftSpace_reversed (reverse s)).

(** [strings.TrimSpace s]: leading white space goes first, then
    trailing white space of what is left. *)
Definition TrimSpace (s : string) : string := TrimRightSpace (TrimLeftSpace s).

(** Membership of a byte in a cutset of ASCII bytes. *)
Fixpoint in_cutset (cutset : string) (c : ascii) : bool :=
  match cutset with
  | EmptyString => false
  | String d cutset' => Ascii.eqb c d || in_cutset cutset' c
  end.

Fixpoint TrimLeftBytes (cut : ascii -> bool) (s : string) : string :=
  match s with
  | EmptyString => EmptyString
  | String c s' => if cut c then TrimLeftBytes cut s' else s
  end.

Fixpoint TrimRightBytes (cut : ascii -> bool) (s : string) : string :=
  match s with
  | EmptyString => EmptyString
  | String c s' =>
      match TrimRightBytes cut s' with
      | EmptyString => if cut c then EmptyString else String c EmptyString
      | String d t => String c (String d t)
      end
  end.

(** [strings.TrimRight s cutset] and [strings.Trim s cutset] for a
    cutset of ASCII bytes, the only kind the code uses. *)
Definition TrimRight (s cutset : string) : string := TrimRightBytes (in_cutset cutset) s.

Definition Trim (s cutset : string) : string :=
  TrimLeftBytes (in_cutset cutset) (TrimRightBytes (in_cutset cutset) s).

(** [strings.HasSuffix] and [strings.TrimSuffix]. *)
Definition HasSuffix (s suffix : string) : bool := HasPrefix (reverse s) (reverse suffix).

Definition TrimSuffix (s suffix : string) : string :=
  if HasSuffix s suffix
  then reverse (drop_bytes (String.length suffix) (reverse s))
  else s.

(** The first [n] bytes of [s], all of [s] if it is shorter. *)
Fixpoint take_bytes (n : nat) (s : string) : string :=
  match n, s with
  | O, _ => EmptyString
  | S n', String c s' => String c (take_bytes n' s')
  | S _, EmptyString => EmptyString
  end.

(** [fmt.Sprintf("%X", b)] for a byte slice [b]: two upper-case
    hexadecimal digits per byte. *)
Definition hex_digit (n : Z) : ascii :=
  ascii_of_N (Z.to_N (if n <? 10 then 48 + n else 55 + n)).

Fixpoint Sprintf_X_bytes (b : string) : string :=
  match b with
  | EmptyString => EmptyString
  | String c b' =>
      String (hex_digit (byte_of c / 16)) (String (hex_digit (byte_of c mod 16))
        (Sprintf_X_bytes b'))
  end.

End GoStrings.

(* ===================================================================== *)
(** * internal/worker/protocols/snmp/zte: the other helpers               *)
(* ===================================================================== *)

Module ZteHelpers.

Import GoStrings.

(** [extractTwoLastOIDIndexes]. *)
Definition extractTwoLastOIDIndexes (oid baseOID : string) : Z * Z :=
  let oid := TrimPrefix oid "." in
  let baseOID := TrimPrefix baseOID "." in
  let suffix := TrimPrefix oid (baseOID ++ ".") in
  if String.eqb suffix oid then (-1, -1)
  else
    let parts := Split suffix "." in
    if (length parts <? 2)%nat then (-1, -1)
    else
      match Sscanf_d (nth (length parts - 2) parts EmptyString) with
      | None => (-1, -1)
      | Some first =>
          match Sscanf_d (nth (length parts - 1) parts EmptyString) with
          | None => (-1, -1)
          | Some second => (first, second)
          end
      end.

(** [formatSerialNumber]; a byte slice is a string of bytes. *)
Definition formatSerialNumber (raw : string) : string :=
  if (String.length raw =? 0)%nat then EmptyString
  else if (4 <=? String.length raw)%nat then
    let vendor := TrimRight (take_bytes 4 raw) (String (ascii_of_nat 0) EmptyString) in
    let hex := Sprintf_X_bytes (drop_bytes 4 raw) in
    vendor ++ hex
  else Sprintf_X_bytes raw.

(** [PONPortStatus.String] and [ONTStatus.String] (unnamed/part_006). *)
Definition PONPortStatus_String (s : Z) : string :=
  if s =? 1 then "up" else if s =? 2 then "down" else "unknown".

Definition ONTStatus_String (s : Z) : string :=
  if s =? 1 then "online"
  else if s =? 2 then "offline"
  else if s =? 3 then "unregistered"
  else "unknown".

End ZteHelpers.

Module SerialSpec.

Import GoStrings.

(** A raw serial number with a full vendor code: at least four bytes,
    the fourth of which is not NUL. *)
Definition fullVendor (raw : string) : bool :=
  match drop_bytes 3 raw with
  | String c _ => negb (byte_of c =? 0)
  | EmptyString => false
  end.

End SerialSpec.

Module CardSpec.

Import Zte SystemSpec.

(** What Go's type system guarantees of a PDU value of dynamic type
    uint32: it lies in the range of that type. *)
Definition uint32Typed (pdu : SnmpPDU) : Prop :=
  forall v, pdu_Value pdu = AUint32 v -> 0 <= v < 2 ^ 32.

(** The PDUs a walk of the column [baseOID] delivers. *)
Definition column (c : ZTEOLTClient) (baseOID : string) : list SnmpPDU :=
  (Walk (snmp c) baseOID).1.

(** A card's memory in KB, as the closure of the memory-total column
    computes it from the PDU. *)
Definition cardKB (pdu : SnmpPDU) : Z := int64 (int64 (pduToInt pdu) * 1024).

(** A card's reading as a float64, as the closures of the CPU,
    temperature and memory-usage columns compute it. *)
Definition reading (pdu : SnmpPDU) : float64 := float64_of_int (pduToInt pdu).

(** [x] is the zero value or the reading of a PDU of the column. *)
Definition fromColumn (c : ZTEOLTClient) (baseOID : string) (x : float64) : Prop :=
  x = fzero \/ exists pdu, In pdu (column c baseOID) /\ x = reading pdu.

(** [n] is zero or the memory of a card of the memory-total column. *)
Definition fromCards (c : ZTEOLTClient) (n : Z) : Prop :=
  n = 0 \/ exists pdu, In pdu (column c OIDZTECardMemoryTotal) /\ n = cardKB pdu.

(** What the walks keep true of the record. *)
Definition cardInvariant (c : ZTEOLTClient) (m : OLTSystemMetrics) : Prop :=
  (nonnegFloat (CPUUsagePercent m) /\ fromColumn c OIDZTECardCPUUsage (CPUUsagePercent m))
  /\ (nonnegFloat (TemperatureCelsius m)
      /\ fromColumn c OIDZTECardTemperature (TemperatureCelsius m))
  /\ (nonnegFloat (MemoryUsagePercent m)
      /\ fromColumn c OIDZTECardMemoryUsage (MemoryUsagePercent m))
  /\ fromCards c (MemoryTotalKB m).

End CardSpec.

Module PortSpec.

Import Zte.

(** [i] is the index of a PDU delivered by one of the PON-port walks. *)
Definition walked (c : ZTEOLTClient)
    (entries : list (string * (SnmpPDU -> PONPortMetrics -> PONPortMetrics))) (i : Z) : Prop :=
  exists baseOID setter pdu,
    In (baseOID, setter) entries
    /\ In pdu (Walk (snmp c) baseOID).1
    /\ extractLastOIDIndex (pdu_Name pdu) baseOID = i.

(** What holds of [portsByIndex] throughout a collection: a record sits
    under its own index, which is not negative and was walked. *)
Definition mapInvariant (c : ZTEOLTClient)
    (entries : list (string * (SnmpPDU -> PONPortMetrics -> PONPortMetrics)))
    (m : gmap Z PONPortMetrics) : Prop :=
  forall i port, m !! i = Some port -> 0 <= i /\ PortIndex port = i /\ walked c entries i.

(** No index is ever removed. *)
Definition grows (m m' : gmap Z PONPortMetrics) : Prop :=
  forall i, is_Some (m !! i) -> is_Some (m' !! i).

(** The PDU, walked under [baseOID], has its record in the map. *)
Definition covered (m : gmap Z PONPortMetrics) (baseOID : string) (pdu : SnmpPDU) : Prop :=
  0 <= extractLastOIDIndex (pdu_Name pdu) baseOID ->
  is_Some (m !! extractLastOIDIndex (pdu_Name pdu) baseOID).

End PortSpec.

(* ===================================================================== *)
(** * internal/common/adapter: the Mikrotik adapter                       *)
(* ===================================================================== *)

Module Adapter.

Import GoStrings.

(** A RouterOS API session, as far as the adapter uses it: [Run] of a
    sentence returns the attribute maps of the reply's sentences
    ([reply.Re[i].Map]), or an error. *)
Record Client : Type := {
  Run : string -> list (gmap string string) + error;
}.

(** [parseBytes]: the error of the scan is dropped, and a failed scan
    leaves [i] at its zero value. *)
Definition parseBytes (s : string) : Z :=
  match Sscanf_d s with
  | Some i => i
  | None => 0
  end.

(** The command sent to the router by [RunCommand] and by
    [RunCommandStructured], which hold the same lines: the local
    [apiCommand]. *)
Definition apiCommand (command : string) : string :=
  if negb (Contains command "/") then
    "/" ++ ReplaceAll (TrimSpace command) " " "/"
  else if Contains command " " && negb (Contains command "/ ") then
    ReplaceAll command " " "/"
  else command.

Section MikrotikAdapter.

(** [routeros.Dial address username password]: a session or an error. *)
Variable Dial : string -> string -> string -> Client + error.

(** [fmt.Sscanf(s, "%f", &f)]: the float the scan stores in [f], if it
    stores one. *)
Variable Sscanf_f : string -> option float64.

(** [parsePercentage]. *)
Definition parsePercentage (s : string) : float64 :=
  match Sscanf_f (TrimSuffix s "%") with
  | Some f => f
  | None => fzero
  end.

(** [MikrotikAdapter.FetchSystemResources]; the nil map of the failure
    returns is the empty map. *)
Definition FetchSystemResources (ip username password : string) : gmap string any * bool :=
  let address := ip ++ ":8728" in
  match Dial address username password with
  | inr _ => (∅, false)
  | inl c =>
      match Run c "/system/resource/print" with
      | inr _ => (∅, false)
      | inl [] => (∅, false)
      | inl (res :: _) =>
          let metrics : gmap string any := ∅ in
          let metrics :=
            match res !! "uptime" with
            | Some val => <["uptime_str" := AString val]> metrics
            | None => metrics
            end in
          let metrics :=
            match res !! "cpu-load" with
            | Some val => <["cpu_load" := AFloat64 (parsePercentage val)]> metrics
            | None => metrics
            end in
          let metrics :=
            match res !! "free-memory" with
            | Some val => <["free_memory" := AInt64 (parseBytes val)]> metrics
            | None => metrics
            end in
          let metrics :=
            match res !! "total-memory" with
            | Some val => <["total_memory" := AInt64 (parseBytes val)]> metrics
            | None => metrics
            end in
          (metrics, true)
      end
  end.

(** [MikrotikAdapter.RunCommandStructured]. *)
Definition RunCommandStructured (ip username password command : string)
    : result (list (gmap string string)) :=
  let address := ip ++ ":8728" in
  match Dial address username password with
  | inr err => Err (Wrapf "failed to dial mikrotik: " err)
  | inl c =>
      match Run c (apiCommand command) with
      | inr err => Err (Wrapf "failed to run command: " err)
      | inl re => Ok re
      end
  end.

End MikrotikAdapter.

End Adapter.

Module AdapterSpec.

(** A byte of a plain word: visible ASCII other than the slash. *)
Definition plainByte (c : ascii) : bool :=
  (33 <=? byte_of c) && (byte_of c <=? 126) && negb (byte_of c =? 47).

(** A plain word: one or more plain bytes. *)
Definition plainWord (w : string) : Prop :=
  w <> EmptyString /\ all_bytes plainByte w = true.

(** The names under which the adapter files what it read. *)
Definition adapterNames : list string :=
  ["uptime_str"; "cpu_load"; "free_memory"; "total_memory"].

End AdapterSpec.

(* ===================================================================== *)
(** * internal/device/service: subnet discovery (unnamed/part_003)        *)
(* ===================================================================== *)

Module Discovery.

(** The loop of [inc], seen from the last byte of the address: the byte
    is incremented, wrapping at 256, and the loop goes on to the byte
    before it only when the result is 0. *)
Fixpoint inc_from_last (reversed : list Z) : list Z :=
  match reversed with
  | [] => []
  | b :: before =>
      let b' := (b + 1) mod 256 in
      if b' >? 0 then b' :: before else b' :: inc_from_last before
  end.

(** [inc]: the address, a slice of bytes, is changed in place; the
    result is the slice after the call. *)
Definition inc (ip : list Z) : list Z := rev (inc_from_last (rev ip)).

End Discovery.

Module DiscoverySpec.

(** Every element is a byte. *)
Definition isBytes (ip : list Z) : Prop := Forall (fun b => 0 <= b < 256) ip.

(** The number an address denotes, most significant byte first. *)
Definition beValue (ip : list Z) : Z := fold_left (fun acc b => acc * 256 + b) ip 0.

(** The same for a list that starts with the least significant byte. *)
Fixpoint leValue (reversed : list Z) : Z :=
  match reversed with
  | [] => 0
  | b :: before => b + 256 * leValue before
  end.

End DiscoverySpec.

(* ===================================================================== *)
(** * internal/device/model: StringArray                                  *)
(* ===================================================================== *)

Module DeviceModel.

Import GoStrings.

(** [StringArray], a slice of strings: [None] is the nil slice. *)
Definition StringArray : Type := option (list string).

(** [StringArray.Value]: the [driver.Value] returned, nil or a string;
    the error returned is always nil. *)
Definition StringArray_Value (s : StringArray) : any :=
  match s with
  | None => ANil
  | Some elems => AString ("{" ++ Join elems "," ++ "}")
  end.

(** [StringArray.Scan]: the slice stored through the receiver, or the
    error returned (the receiver is then left as it was). *)
Definition StringArray_Scan (value : any) : result StringArray :=
  match value with
  | ANil => Ok None
  | AString str | ABytes str =>
      let str := Trim str "{}" in
      if String.eqb str "" then Ok (Some [])
      else Ok (Some (Split str ","))
  | _ => Err (ErrorString "type assertion to string/[]byte failed")
  end.

End DeviceModel.

Module DeviceModelSpec.

Import GoStrings.

(** A tag that survives the text[] encoding: it has no brace and no
    comma. *)
Definition plainTag (tag : string) : Prop :=
  all_bytes (fun c => negb (in_cutset "{}," c)) tag = true.

End DeviceModelSpec.

Module PagingSpec.

(** The devices [ListDevices] returns for a page, with the service and
    the repository wired over a table of rows. *)
Definition pageOf (rows : list Model.Device) (pageSize page : Z) : list Model.Device :=
  match Service.ListDevices (Service.NewDeviceService (Repository.tableDB rows)) page pageSize with
  | Ok (devices, _) => devices
  | _ => []
  end.

(** Pages 1 to [k], one after the other. *)
Definition firstPages (rows : list Model.Device) (pageSize : Z) (k : nat) : list Model.Device :=
  concat (map (fun p => pageOf rows pageSize (Z.of_nat p)) (seq 1 k)).

End PagingSpec.

(* ===================================================================== *)
(** * internal/features/monitoring: the target store                      *)
(* ===================================================================== *)

Module Monitoring.

(** [DeviceTarget]. *)
Record DeviceTarget : Type := {
  IP : string;
  Driver : string;
  Username : string;
  Password : string;
  Port : Z;
}.

(** [TargetStore]: the map [targets]; the mutex guards it and has no
    part in what a single call computes. *)
Definition TargetStore : Type := gmap string DeviceTarget.

(** [NewTargetStore]. *)
Definition NewTargetStore : TargetStore := ∅.

(** [TargetStore.ReplaceAll]: the store after the call. *)
Definition ReplaceAll (s : TargetStore) (newTargets : list DeviceTarget) : TargetStore :=
  fold_left (fun (targets : gmap string DeviceTarget) t => <[IP t := t]> targets) newTargets
    (∅ : gmap string DeviceTarget).

(** [TargetStore.GetAll]; the order of the slice is that of the map
    iteration, here the order of [map_to_list]. *)
Definition GetAll (s : TargetStore) : list DeviceTarget :=
  (map_to_list (s : gmap string DeviceTarget)).*2.

End Monitoring.

Module MonitoringSpec.

Import Monitoring.

(** The last target of [targets] with the address [ip], if any. *)
Definition lastWithIP (targets : list DeviceTarget) (ip : string) : option DeviceTarget :=
  fold_left (fun found t => if String.eqb (IP t) ip then Some t else found) targets None.

End MonitoringSpec.

Module SchedulerSpec.

(** What a poll task says of its device. *)
Definition taskKey (t : Model.PollTask) : string * string * string * string :=
  (Model.task_DeviceID t, Model.task_IPAddress t, Model.task_DeviceType t,
   Model.task_Protocol t).

(** The same four fields of the device. *)
Definition deviceKey (d : Model.Device) : string * string * string * string :=
  (Model.ID d, Model.IPAddress d, Model.DeviceType d, Model.Protocol d).

(** The subjects a run publishes on, in order. *)
Definition subjects (evs : list Bus.Event) : list string :=
  omap (fun ev => match ev with
                  | Bus.EvPublish subject _ => Some subject
                  | _ => None
                  end) evs.

(** A bus on which every publish fails. *)
Definition brokenBus : Bus.Conn :=
  {| Bus.Publish := fun _ _ => Some (ErrorString "nats: connection closed") |}.

(** A device service that answers with a fixed list, whatever is asked. *)
Definition fixedService (devices : list Model.Device) : Service.DeviceService :=
  {| Service.ListDevices := fun _ _ => Ok (devices, Z.of_nat (length devices)) |}.

(** Two devices, the first enabled and the second not. *)
Definition mixedDevices : list Model.Device :=
  [ {| Model.ID := "dev-1"; Model.Name := "core"; Model.IPAddress := "10.0.0.1";
       Model.DeviceType := "router"; Model.Protocol := "mikrotik_api";
       Model.Enabled := true |};
    {| Model.ID := "dev-2"; Model.Name := "spare"; Model.IPAddress := "10.0.0.2";
       Model.DeviceType := "switch"; Model.Protocol := "snmp";
       Model.Enabled := false |} ].

End SchedulerSpec.

Module AlertFixtures.

Import Alert.

(** A rule whose operator is spelt as in Go, not as the engine expects. *)
Definition doubleEquals : Rule :=
  {| rule_ID := "rule-x"; rule_DeviceID := ""; MetricName := "success"; Operator := "==";
     Threshold := fzero; rule_Description := "Device Down"; Severity := "critical" |}.

End AlertFixtures.

(* ===================================================================== *)
(** * Connecting: zte.Connect and the production SNMP client              *)
(* ===================================================================== *)

Module ZteConnect.

Import Zte.

(** [model.DeviceCredentials], as far as [Connect] reads it. *)
Record DeviceCredentials : Type := {
  SNMPCommunity : string;
}.

(** [gosnmp.Version2c]. *)
Definition Version2c : Z := 1.

(** [defaultCommunity]. *)
Definition defaultCommunity : string := "public".

(** [SNMPClient.Connect host community version timeout] of a client
    that is not connected yet: an error, or the client as it answers
    [Get] and [Walk] from then on. *)
Definition Connector : Type := string -> string -> Z -> Z -> SNMPClient + error.

(** [ZTEOLTClient.Connect] on a client made with the connector [snmp]
    and the timeout [timeout]. The device pointer may be nil; its
    [Credentials] field, a pointer that may be nil too, is given beside
    the record. The result is the error returned, or the client as it is
    after the call. *)
Definition Connect (snmp : Connector) (timeout : Z)
    (device : option (Model.Device * option DeviceCredentials)) : result ZTEOLTClient :=
  match device with
  | None => Err (ErrorString "device must not be nil")
  | Some (d, None) =>
      Err (ErrorString ("device credentials not loaded for device " ++ Model.ID d))
  | Some (d, Some credentials) =>
      let community := SNMPCommunity credentials in
      let community := if String.eqb community "" then defaultCommunity else community in
      match snmp (Model.IPAddress d) community Version2c timeout with
      | inr err => Err err
      | inl connected => Ok {| Zte.snmp := connected; device := Some d; Zte.timeout := timeout |}
      end
  end.

(** [GoSNMPClient] over a gosnmp session: [Get] and [Walk] hand the
    call to the session and wrap its error. *)
Definition GoSNMPClient (session : SNMPClient) : SNMPClient :=
  {| Get := fun oids =>
       match Get session oids with
       | (_, Some err) => (None, Some (Wrapf "snmp get failed: " err))
       | (packet, None) => (packet, None)
       end;
     Walk := fun oid =>
       match Walk session oid with
       | (pdus, Some err) => (pdus, Some (Wrapf ("snmp walk on " ++ oid ++ " failed: ") err))
       | (pdus, None) => (pdus, None)
       end |}.

(** [GoSNMPClient.Connect]; [ConnectIPv4 host community] is what
    opening the session gives: the session, or an error. *)
Definition GoSNMPClient_Connect (ConnectIPv4 : string -> string -> SNMPClient + error)
    : Connector :=
  fun host community version timeout =>
    match ConnectIPv4 host community with
    | inr err => inr (Wrapf ("snmp connect to " ++ host ++ " failed: ") err)
    | inl session => inl (GoSNMPClient session)
    end.

End ZteConnect.

(* ===================================================================== *)
(** * internal/features/olt: the OLT service (unnamed/part_008)           *)
(* ===================================================================== *)

Module Olt.

Import Zte ZteHelpers ZteConnect.

(** [SNMPTarget]. *)
Record SNMPTarget : Type := {
  target_IP : string;
  Community : string;
  Version : string;
  target_Port : Z;
}.

(** [PONPortResponse]. *)
Record PONPortResponse : Type := {
  ppr_IPAddress : string;
  ppr_Timestamp : Time;
  ppr_PortIndex : Z;
  ppr_AdminStatus : string;
  ppr_OperStatus : string;
  ppr_TxPowerDBm : float64;
  ppr_RxPowerDBm : float64;
  ppr_ONTCount : Z;
}.

(** [ONTResponse]. *)
Record ONTResponse : Type := {
  or_IPAddress : string;
  or_Timestamp : Time;
  or_PONPortIndex : Z;
  or_ONTIndex : Z;
  or_SerialNumber : string;
  or_OperStatus : string;
  or_RxPowerDBm : float64;
  or_TxPowerDBm : float64;
  or_DistanceMeters : Z;
  or_Description : string;
}.

(** [PONPortListResponse] and [ONTListResponse]. *)
Record PONPortListResponse : Type := {
  ppl_IPAddress : string;
  Count : Z;
  PonPorts : list PONPortResponse;
}.

Record ONTListResponse : Type := {
  ol_IPAddress : string;
  Total : Z;
  ONTs : list ONTResponse;
}.

(** [mapPONPort] and [mapONT]. *)
Definition mapPONPort (ip : string) (p : PONPortMetrics) : PONPortResponse :=
  {| ppr_IPAddress := ip;
     ppr_Timestamp := pon_Timestamp p;
     ppr_PortIndex := PortIndex p;
     ppr_AdminStatus := PONPortStatus_String (AdminStatus p);
     ppr_OperStatus := PONPortStatus_String (OperStatus p);
     ppr_TxPowerDBm := pon_TxPowerDBm p;
     ppr_RxPowerDBm := pon_RxPowerDBm p;
     ppr_ONTCount := ONTCount p |}.

Definition mapONT (ip : string) (o : ONTMetrics) : ONTResponse :=
  {| or_IPAddress := ip;
     or_Timestamp := ont_Timestamp o;
     or_PONPortIndex := PONPortIndex o;
     or_ONTIndex := ONTIndex o;
     or_SerialNumber := SerialNumber o;
     or_OperStatus := ONTStatus_String (ont_OperStatus o);
     or_RxPowerDBm := ont_RxPowerDBm o;
     or_TxPowerDBm := ont_TxPowerDBm o;
     or_DistanceMeters := DistanceMeters o;
     or_Description := Description o |}.

Section Service.

(** Opening a gosnmp session to a host with a community. *)
Variable ConnectIPv4 : string -> string -> SNMPClient + error.

(** [time.Now()] in the collection methods, and the orders in which
    they range over their map literals. *)
Variable now : Time.
Variable ponEntries : list (string * (SnmpPDU -> PONPortMetrics -> PONPortMetrics)).
Variable ontEntries : list (string * (SnmpPDU -> ONTMetrics -> ONTMetrics)).

(** The timeout of [NewOLTService]: 15 seconds. *)
Definition serviceTimeout : Z := 15000000000.

(** [oltService.connectToOLT]. *)
Definition connectToOLT (target : SNMPTarget) : result ZTEOLTClient :=
  let community := Community target in
  let community := if String.eqb community "" then "public" else community in
  let device :=
    {| Model.ID := target_IP target; Model.Name := ""; Model.IPAddress := target_IP target;
       Model.DeviceType := "olt"; Model.Protocol := "snmp"; Model.Enabled := false |} in
  match Connect (GoSNMPClient_Connect ConnectIPv4) serviceTimeout
          (Some (device, Some {| SNMPCommunity := community |})) with
  | Err err =>
      Err (Wrapf ("failed to connect to OLT " ++ target_IP target ++ " via SNMP: ") err)
  | Ok client => Ok client
  | Panic msg => Panic msg
  end.

(** [oltService.GetPONPorts]; the deferred [Disconnect] closes the
    session and has no part in what is returned. *)
Definition GetPONPorts (target : SNMPTarget) : result PONPortListResponse :=
  bind (connectToOLT target) (fun client =>
    match GetPONPortMetrics client now ponEntries with
    | Err err =>
        Err (Wrapf ("failed to get PON port metrics from OLT " ++ target_IP target ++ ": ") err)
    | Panic msg => Panic msg
    | Ok ports =>
        let responses := map (mapPONPort (target_IP target)) ports in
        Ok {| ppl_IPAddress := target_IP target;
              Count := Z.of_nat (length responses);
              PonPorts := responses |}
    end).

(** [oltService.GetONTs]. *)
Definition GetONTs (target : SNMPTarget) (ponPortIndex : Z) : result ONTListResponse :=
  bind (connectToOLT target) (fun client =>
    match GetONTMetrics client now ontEntries ponPortIndex with
    | Err err =>
        Err (Wrapf ("failed to get ONT metrics from OLT " ++ target_IP target ++ ": ") err)
    | Panic msg => Panic msg
    | Ok onts =>
        let responses := map (mapONT (target_IP target)) onts in
        Ok {| ol_IPAddress := target_IP target;
              Total := Z.of_nat (length responses);
              ONTs := responses |}
    end).

End Service.

End Olt.

Module OltSpec.

Import Zte ZteConnect Olt.

(** The community the service connects with. *)
Definition communityOf (target : SNMPTarget) : string :=
  if String.eqb (Community target) "" then "public" else Community target.

(** The error text of a PON-port collection that failed in the walk of
    [baseOID] with the session's error [e]. *)
Definition walkFailure (target : SNMPTarget) (baseOID : string) (e : error) : string :=
  "failed to get PON port metrics from OLT " ++ target_IP target
  ++ ": failed to walk PON port OID " ++ baseOID
  ++ ": snmp walk on " ++ baseOID ++ " failed: " ++ Error e.

(** An OLT addressed without a community. *)
Definition olt1 : SNMPTarget :=
  {| target_IP := "10.0.0.1"; Community := ""; Version := "2c"; target_Port := 161 |}.

(** A session whose walks all time out. *)
Definition deafSession : SNMPClient :=
  {| Get := fun _ => (Some [], None);
     Walk := fun _ => ([], Some (ErrorString "request timeout")) |}.

End OltSpec.

(* ===================================================================== *)
(** * internal/device/handler: listing devices (unnamed/part_003)         *)
(* ===================================================================== *)

Module Strconv.

(** The outcome of the digit loop of [strconv.ParseUint(s, 10, 64)]. *)
Inductive uintScan : Type :=
| UintOk (n : Z)
| UintSyntax
| UintRange.

(** The loop: a byte that is not a digit is a syntax error; a value
    that leaves uint64 is a range error, found at the digit where it
    happens, whatever follows. *)
Fixpoint ParseUint_loop (s : string) (n : Z) : uintScan :=
  match s with
  | EmptyString => UintOk n
  | String c r =>
      if is_digit c then
        if n >=? 1844674407370955162 then UintRange
        else
          let n1 := n * 10 + (byte_of c - 48) in
          if n1 >? 18446744073709551615 then UintRange else ParseUint_loop r n1
      else UintSyntax
  end.

(** [strconv.Atoi s]: the int returned, and whether the error returned
    is nil. A syntax error gives 0; a range error gives the nearest int.
    (For short strings Atoi has a fast path that computes the same.) *)
Definition Atoi (s : string) : Z * bool :=
  match s with
  | EmptyString => (0, false)
  | String c r =>
      let neg := byte_of c =? 45 in
      let digits := if is_sign c then r else s in
      match digits with
      | EmptyString => (0, false)
      | String _ _ =>
          match ParseUint_loop digits 0 with
          | UintSyntax => (0, false)
          | UintRange => (if neg then MinInt64 else MaxInt64, false)
          | UintOk un =>
              if negb neg && (un >=? 2 ^ 63) then (MaxInt64, false)
              else if neg && (un >? 2 ^ 63) then (MinInt64, false)
              else (if neg then - un else un, true)
          end
      end
  end.

End Strconv.

Module DeviceHandler.

Import Strconv.

(** The JSON body of an answer: [gin.H{"error": ...}] or the page of
    devices. *)
Inductive Body : Type :=
| ErrorBody (error : string)
| ListBody (data : list Model.Device) (total page page_size : Z).

(** An answer: the status code and the body handed to [c.JSON]. *)
Record Response : Type := {
  status : Z;
  body : Body;
}.

(** [c.DefaultQuery key defaultValue] over the query of the request:
    the first value of the key, or the default when the key is absent. *)
Definition DefaultQuery (query : gmap string string) (key defaultValue : string) : string :=
  match query !! key with
  | Some value => value
  | None => defaultValue
  end.

(** [DeviceHandler.ListDevices]: the errors of both [Atoi] calls are
    dropped. *)
Definition ListDevices (service : Service.DeviceService) (query : gmap string string)
    : result Response :=
  let page := (Atoi (DefaultQuery query "page" "1")).1 in
  let pageSize := (Atoi (DefaultQuery query "page_size" "20")).1 in
  match Service.ListDevices service page pageSize with
  | Err err => Ok {| status := 500; body := ErrorBody (Error err) |}
  | Ok (devices, total) =>
      Ok {| status := 200; body := ListBody devices total page pageSize |}
  | Panic msg => Panic msg
  end.

End DeviceHandler.

(* ===================================================================== *)
(** * The records of an ONT collection                                    *)
(* ===================================================================== *)

Module ONTRecordSpec.

Import Zte.

(** Every record of [ontsByKey] is described by its key. *)
Definition described (m : gmap string ONTMetrics) : Prop :=
  forall k o, m !! k = Some o -> Description o = "ONT-" ++ k.

(** The two records that the agent of TestGetONTMetrics_Success yields,
    in the order of [map_to_list]. *)
Definition collected : list ONTMetrics := Eval vm_compute in
  match GetONTMetrics ONTFixtures.ontClient 0 ontWalkOIDs 0 with
  | Ok onts => onts
  | _ => []
  end.

End ONTRecordSpec.

(* ===================================================================== *)
(** * Agents, worlds and answers used as examples                         *)
(* ===================================================================== *)

Module CardFixtures.

Import Zte.

(** A chassis with three cards of 512, 512 and 2048 units of memory. *)
Definition threeCards : ZTEOLTClient :=
  testClient
    (mockSNMPClient (Some []) None
       (<[OIDZTECardMemoryTotal :=
            [pduInt (OIDZTECardMemoryTotal ++ ".1") 512;
             pduInt (OIDZTECardMemoryTotal ++ ".2") 512;
             pduInt (OIDZTECardMemoryTotal ++ ".3") 2048]]> ∅) None).

(** A chassis whose only temperature reading is -5 degrees. *)
Definition coldChassis : ZTEOLTClient :=
  testClient
    (mockSNMPClient (Some []) None
       (<[OIDZTECardTemperature := [pduInt (OIDZTECardTemperature ++ ".1") (-5)]]> ∅)
       None).

End CardFixtures.

Module PortFixtures.

Import Zte.

(** The two ports the agent of TestGetPONPortMetrics_Success yields for
    the device [deviceID], in the order of [map_to_list]. *)
Definition twoPorts (deviceID : string) : list PONPortMetrics :=
  (map_to_list
     (<[1 := {| pon_DeviceID := deviceID; pon_Timestamp := 0; PortIndex := 1;
                AdminStatus := 1; OperStatus := 1;
                pon_TxPowerDBm := PowerSpec.dBm 25;
                pon_RxPowerDBm := PowerSpec.dBm (-180); ONTCount := 32 |}]>
      (<[2 := {| pon_DeviceID := deviceID; pon_Timestamp := 0; PortIndex := 2;
                 AdminStatus := 1; OperStatus := 2;
                 pon_TxPowerDBm := fzero; pon_RxPowerDBm := fzero;
                 ONTCount := 0 |}]> (∅ : gmap Z PONPortMetrics)))).*2.

End PortFixtures.

Module OltFixtures.

(** The answer of the service for the OLT 10.0.0.1 with these two
    ports. *)
Definition twoPortResponse : Olt.PONPortListResponse :=
  {| Olt.ppl_IPAddress := "10.0.0.1"; Olt.Count := 2;
     Olt.PonPorts := map (Olt.mapPONPort "10.0.0.1") (PortFixtures.twoPorts "10.0.0.1") |}.

End OltFixtures.

Module WorkerFixtures.

(** A worker whose router refuses the API connection but answers the
    ping in 12.5 ms. *)
Definition refusedWorld : Worker.World :=
  {| Worker.FetchSystemResources :=
       Adapter.FetchSystemResources
         (fun _ _ _ => inr (ErrorString "connection refused")) (fun _ => None);
     Worker.runPing := fun _ => (12500000, true);
     Worker.sincePollStart := 13000000;
     Worker.pointTime := 1;
     Worker.metricTime := 2;
     Worker.WritePoint := fun _ => None;
     Worker.natsConn := {| Bus.Publish := fun _ _ => None |} |}.

(** A poll task for a router. *)
Definition routerTask : Model.PollTask :=
  {| Model.task_DeviceID := "dev-1"; Model.task_IPAddress := "10.0.0.1";
     Model.task_DeviceType := "router"; Model.task_Protocol := "mikrotik_api";
     Model.task_Timestamp := 0 |}.

End WorkerFixtures.

(* ===================================================================== *)
(** * Properties                                                          *)
(* ===================================================================== *)

Import Zte.

(** ** Strings *)

Section StringFacts.

Lemma HasPrefix_length (s p : string) :
  HasPrefix s p = true -> (String.length p <= String.length s)%nat.
Proof.
  revert s. induction p as [|c p IH]; intros s H.
  - simpl. lia.
  - destruct s as [|d s]; simpl in H; [discriminate|].
    destruct (Ascii.eqb c d); [|discriminate].
    simpl. specialize (IH s H). lia.
Qed.

Lemma drop_bytes_length (n : nat) (s : string) :
  String.length (drop_bytes n s) = (String.length s - n)%nat.
Proof.
  revert s. induction n as [|n IH]; intros s; simpl.
  - lia.
  - destruct s as [|c s]; simpl; [reflexivity|]. apply IH.
Qed.

Lemma length_append (s t : string) :
  String.length (s ++ t) = (String.length s + String.length t)%nat.
Proof.
  induction s as [|c s IH]; [reflexivity|].
  change (S (String.length (s ++ t)) = S (String.length s + String.length t)).
  now rewrite IH.
Qed.

Lemma append_empty_r (s : string) : s ++ EmptyString = s.
Proof.
  induction s as [|c s IH]; [reflexivity|].
  change (String c (s ++ EmptyString) = String c s). now rewrite IH.
Qed.

Lemma eqb_length_ne (s t : string) :
  String.length s <> String.length t -> String.eqb s t = false.
Proof.
  intros H. destruct (String.eqb s t) eqn:E; [|reflexivity].
  apply String.eqb_eq in E. subst. congruence.
Qed.

Lemma Split_nonempty (s : string) (sep : ascii) : Split s sep <> [].
Proof.
  induction s as [|c s IH]; simpl; [discriminate|].
  destruct (Ascii.eqb c sep); [discriminate|].
  destruct (Split s sep); [contradiction|discriminate].
Qed.

(** TrimPrefix either removes the whole prefix or leaves the string. *)
Lemma TrimPrefix_present (s p : string) :
  HasPrefix s p = true -> TrimPrefix s p = drop_bytes (String.length p) s.
Proof. intros H. unfold TrimPrefix. now rewrite H. Qed.

Lemma TrimPrefix_absent (s p : string) :
  HasPrefix s p = false -> TrimPrefix s p = s.
Proof. intros H. unfold TrimPrefix. now rewrite H. Qed.

End StringFacts.

(** ** The "%d" scan *)

Section ScanFacts.

Lemma is_digit_not_space (c : ascii) : is_digit c = true -> byte_of c <> 10 /\ is_space1 c = false.
Proof.
  unfold is_digit, is_space1. intros H.
  apply andb_true_iff in H as [H1 H2].
  apply Z.leb_le in H1. apply Z.leb_le in H2.
  split; [lia|].
  repeat (apply orb_false_iff; split); apply Z.eqb_neq; lia.
Qed.

Lemma is_sign_not_space (c : ascii) : is_sign c = true -> byte_of c <> 10 /\ is_space1 c = false.
Proof.
  unfold is_sign, is_space1. intros H.
  apply orb_true_iff in H as [H|H]; apply Z.eqb_eq in H;
    (split; [lia|]); repeat (apply orb_false_iff; split); apply Z.eqb_neq; lia.
Qed.

Lemma is_digit_not_sign (c : ascii) : is_digit c = true -> is_sign c = false.
Proof.
  unfold is_digit, is_sign. intros H.
  apply andb_true_iff in H as [H1 H2].
  apply Z.leb_le in H1. apply Z.leb_le in H2.
  apply orb_false_iff; split; apply Z.eqb_neq; lia.
Qed.

(** A byte below 128 starts no multi-byte space. *)
Lemma low_byte_no_space2 (c1 c2 : ascii) : byte_of c1 < 128 -> is_space2 c1 c2 = false.
Proof.
  intros H. unfold is_space2.
  replace (byte_of c1 =? 194) with false; [reflexivity|].
  symmetry. apply Z.eqb_neq. lia.
Qed.

Lemma low_byte_no_space3 (c1 c2 c3 : ascii) : byte_of c1 < 128 -> is_space3 c1 c2 c3 = false.
Proof.
  intros H. unfold is_space3. cbv zeta.
  replace (byte_of c1 =? 225) with false by (symmetry; apply Z.eqb_neq; lia).
  replace (byte_of c1 =? 226) with false by (symmetry; apply Z.eqb_neq; lia).
  replace (byte_of c1 =? 227) with false by (symmetry; apply Z.eqb_neq; lia).
  reflexivity.
Qed.

(** SkipSpace stops at once on a byte that is below 128 and neither a
    newline nor a space. *)
Lemma SkipSpace_stop (c : ascii) (r : string) :
  byte_of c < 128 -> byte_of c <> 10 -> is_space1 c = false ->
  SkipSpace (String c r) = Some (String c r).
Proof.
  intros Hlow Hnl Hsp. simpl.
  replace (byte_of c =? 10) with false by (symmetry; now apply Z.eqb_neq).
  rewrite Hsp.
  destruct r as [|c2 r2]; [reflexivity|].
  rewrite low_byte_no_space2 by assumption.
  destruct r2 as [|c3 r3]; [reflexivity|].
  now rewrite low_byte_no_space3.
Qed.

Lemma is_digit_low (c : ascii) : is_digit c = true -> byte_of c < 128.
Proof.
  unfold is_digit. intros H. apply andb_true_iff in H as [_ H2].
  apply Z.leb_le in H2. lia.
Qed.

Lemma is_sign_low (c : ascii) : is_sign c = true -> byte_of c < 128.
Proof.
  unfold is_sign. intros H.
  apply orb_true_iff in H as [H|H]; apply Z.eqb_eq in H; lia.
Qed.

Lemma is_digit_not_underscore (c : ascii) : is_digit c = true -> is_underscore c = false.
Proof.
  unfold is_digit, is_underscore. intros H.
  apply andb_true_iff in H as [H1 H2].
  apply Z.leb_le in H1. apply Z.leb_le in H2. apply Z.eqb_neq. lia.
Qed.

(** The token taken from digits followed by a byte that is neither a
    digit nor an underscore (or by nothing) is exactly the digits. *)
Lemma span_digits (ds rest : string) :
  all_bytes is_digit ds = true ->
  Spec.startsWith (fun c => is_digit c || is_underscore c) rest = false ->
  span (fun c => is_digit c || is_underscore c) (ds ++ rest) = (ds, rest).
Proof.
  intros Hd Hr. induction ds as [|c ds IH]; simpl in *.
  - destruct rest as [|c r]; [reflexivity|]. simpl in Hr. simpl. now rewrite Hr.
  - apply andb_true_iff in Hd as [Hc Hd].
    rewrite Hc. simpl. now rewrite (IH Hd).
Qed.

(** Scanning digits (optionally followed by other bytes). *)
Lemma Sscanf_d_digits (ds rest : string) :
  ds <> EmptyString ->
  all_bytes is_digit ds = true ->
  Spec.startsWith (fun c => is_digit c || is_underscore c) rest = false ->
  in_int64 (decimal_value 0 ds) = true ->
  Sscanf_d (ds ++ rest) = Some (decimal_value 0 ds).
Proof.
  intros Hne Hd Hr Hrange.
  destruct ds as [|c ds]; [congruence|].
  pose proof Hd as Hd'. simpl in Hd'. apply andb_true_iff in Hd' as [Hc _].
  unfold Sscanf_d. change (String c ds ++ rest) with (String c (ds ++ rest)).
  destruct (is_digit_not_space c Hc) as [Hnl Hsp].
  rewrite (SkipSpace_stop c (ds ++ rest) (is_digit_low c Hc) Hnl Hsp).
  rewrite (is_digit_not_sign c Hc).
  change (String c (ds ++ rest)) with (String c ds ++ rest).
  rewrite (span_digits (String c ds) rest Hd Hr).
  rewrite Hd. cbv zeta. now rewrite Hrange.
Qed.

(** Scanning a sign and digits (optionally followed by other bytes). *)
Lemma Sscanf_d_signed (sg : ascii) (ds rest : string) :
  is_sign sg = true ->
  ds <> EmptyString ->
  all_bytes is_digit ds = true ->
  Spec.startsWith (fun c => is_digit c || is_underscore c) rest = false ->
  in_int64 (if byte_of sg =? 45 then - decimal_value 0 ds else decimal_value 0 ds) = true ->
  Sscanf_d (String sg (ds ++ rest))
  = Some (if byte_of sg =? 45 then - decimal_value 0 ds else decimal_value 0 ds).
Proof.
  intros Hs Hne Hd Hr Hrange.
  unfold Sscanf_d.
  destruct (is_sign_not_space sg Hs) as [Hnl Hsp].
  rewrite (SkipSpace_stop sg (ds ++ rest) (is_sign_low sg Hs) Hnl Hsp).
  rewrite Hs.
  rewrite (span_digits ds rest Hd Hr).
  destruct ds as [|c ds]; [congruence|].
  rewrite Hd. cbv zeta. now rewrite Hrange.
Qed.

(** A numeral on its own scans to its value. *)
Lemma Sscanf_d_integer (s : string) :
  Spec.isInteger s = true ->
  in_int64 (Spec.integerValue s) = true ->
  Sscanf_d s = Some (Spec.integerValue s).
Proof.
  intros Hi Hrange. destruct s as [|c r]; [discriminate|].
  unfold Spec.isInteger in Hi. unfold Spec.integerValue in *.
  destruct (is_sign c) eqn:Hs.
  - apply andb_true_iff in Hi as [Hne Hd].
    assert (r <> EmptyString) as Hne'.
    { intros ->. discriminate. }
    pose proof (Sscanf_d_signed c r EmptyString Hs Hne' Hd eq_refl Hrange) as E.
    now rewrite append_empty_r in E.
  - pose proof (Sscanf_d_digits (String c r) EmptyString ltac:(discriminate) Hi eq_refl Hrange) as E.
    now rewrite append_empty_r in E.
Qed.

(** Nothing is scanned from the empty string or from a string that
    begins with a visible byte other than a digit or a sign. *)
Lemma Sscanf_d_none (s : string) :
  s = EmptyString \/ Spec.startsWith Spec.isOtherVisible s = true ->
  Sscanf_d s = None.
Proof.
  intros [->|H]; [reflexivity|].
  destruct s as [|c r]; [discriminate|]. simpl in H.
  unfold Spec.isOtherVisible in H.
  apply andb_true_iff in H as [H Hns]. apply andb_true_iff in H as [H Hnd].
  apply andb_true_iff in H as [Hlo Hhi].
  apply Z.leb_le in Hlo. apply Z.leb_le in Hhi.
  apply negb_true_iff in Hns. apply negb_true_iff in Hnd.
  assert (is_space1 c = false) as Hsp.
  { unfold is_space1. cbv zeta. repeat (apply orb_false_iff; split); apply Z.eqb_neq; lia. }
  unfold Sscanf_d.
  rewrite (SkipSpace_stop c r) by (assumption || lia).
  rewrite Hns. simpl. rewrite Hnd.
  assert (is_underscore c = true \/ is_underscore c = false) as [Hu|Hu]
    by (destruct (is_underscore c); auto).
  - rewrite Hu. simpl.
    destruct (span (fun c0 => is_digit c0 || is_underscore c0) r) as [a b].
    simpl. now rewrite Hnd.
  - rewrite Hu. reflexivity.
Qed.

End ScanFacts.

(** ** extractLastOIDIndex *)

Section ExtractLastOIDIndex.

Lemma extractLastOIDIndex_no_prefix (oid baseOID : string) :
  HasPrefix (TrimPrefix oid ".") (TrimPrefix baseOID "." ++ ".") = false ->
  extractLastOIDIndex oid baseOID = -1.
Proof.
  intros H. unfold extractLastOIDIndex. cbv zeta.
  rewrite (TrimPrefix_absent _ _ H). now rewrite String.eqb_refl.
Qed.

Lemma extractLastOIDIndex_prefix (oid baseOID : string) :
  HasPrefix (TrimPrefix oid ".") (TrimPrefix baseOID "." ++ ".") = true ->
  extractLastOIDIndex oid baseOID
  = match Sscanf_d (Spec.lastComponent
                      (drop_bytes (String.length (TrimPrefix baseOID "." ++ "."))
                                  (TrimPrefix oid "."))) with
    | Some index => index
    | None => -1
    end.
Proof.
  intros H. unfold extractLastOIDIndex. cbv zeta.
  rewrite (TrimPrefix_present _ _ H).
  rewrite eqb_length_ne.
  - destruct (Split _ ".") eqn:E; [now apply Split_nonempty in E|].
    unfold Spec.lastComponent. rewrite E. reflexivity.
  - rewrite drop_bytes_length. apply HasPrefix_length in H.
    rewrite length_append in *. simpl in *. lia.
Qed.

End ExtractLastOIDIndex.




(** ** The result monad *)

Section ResultFacts.

Context {A S : Type}.

(** A loop whose body always succeeds runs to the end. *)
Lemma foldM_total (f : S -> A -> result S) :
  (forall s x, exists s', f s x = Ok s') ->
  forall l s, exists s', foldM f l s = Ok s'.
Proof.
  intros Hf l. induction l as [|x l IH]; intros s; simpl.
  - now exists s.
  - destruct (Hf s x) as [s1 ->]. simpl. apply IH.
Qed.

(** A loop does not complete when the body cannot succeed on one of the
    elements. *)
Lemma foldM_never_ok (f : S -> A -> result S) (x : A) (l : list A) :
  In x l ->
  (forall s s', f s x <> Ok s') ->
  forall s s', foldM f l s <> Ok s'.
Proof.
  intros Hin Hx. induction l as [|y l IH]; [contradiction|].
  intros s s'. simpl.
  destruct Hin as [->|Hin].
  - destruct (f s x) as [s1| |] eqn:E; simpl; [|discriminate|discriminate].
    now apply Hx in E.
  - destruct (f s y) as [s1| |]; simpl; [|discriminate|discriminate].
    now apply IH.
Qed.

(** A loop over a body that, on each element, either succeeds from every
    state or fails with an error that depends on the element only, ends
    with the error of the first such element. *)
Lemma foldM_first_error (f : S -> A -> result S) (bad : A -> option error) (l : list A) :
  (forall s x, match bad x with
               | Some e => f s x = Err e
               | None => exists s', f s x = Ok s'
               end) ->
  (exists x, In x l /\ bad x <> None) ->
  forall s, exists x e, In x l /\ bad x = Some e /\ foldM f l s = Err e.
Proof.
  intros Hf. induction l as [|y l IH]; intros [x [Hin Hbad]] s.
  - contradiction.
  - simpl. pose proof (Hf s y) as Hy.
    destruct (bad y) as [e|] eqn:Ey.
    + exists y, e. rewrite Hy. simpl. auto.
    + destruct Hy as [s1 ->]. simpl.
      destruct Hin as [->|Hin]; [congruence|].
      destruct (IH (ex_intro _ x (conj Hin Hbad)) s1) as (x' & e & Hin' & Hb & Hr).
      exists x', e. auto.
Qed.

End ResultFacts.

(** ** GetPONPortMetrics *)

Section PONPorts.

Variable c : ZTEOLTClient.
Variable now : Time.

(** With a device set, the callback cannot fail. *)
Lemma ponCallback_ok (d : Model.Device) baseOID setter ports pdu :
  device c = Some d ->
  exists ports', ponCallback c now baseOID setter ports pdu = Ok ports'.
Proof.
  intros Hd. unfold ponCallback. cbv zeta.
  destruct (_ <? 0); [eauto|].
  destruct (ports !! _); [eauto|]. rewrite Hd. eauto.
Qed.

(** A walk that ends with an error never yields a map. *)
Lemma ponWalk_error_never_ok ports entry e :
  (Walk (snmp c) entry.1).2 = Some e ->
  forall ports', ponWalk c now ports entry <> Ok ports'.
Proof.
  destruct entry as [baseOID setter]. simpl. intros He ports'.
  unfold ponWalk. destruct (Walk (snmp c) baseOID) as [pdus err]. simpl in He. subst err.
  destruct (foldM _ pdus ports); simpl; discriminate.
Qed.

Lemma ponWalk_outcome (d : Model.Device) ports entry :
  device c = Some d ->
  match Spec.ponWalkError c entry with
  | Some e => ponWalk c now ports entry = Err e
  | None => exists ports', ponWalk c now ports entry = Ok ports'
  end.
Proof.
  intros Hd. destruct entry as [baseOID setter]. unfold Spec.ponWalkError, ponWalk. simpl.
  destruct (Walk (snmp c) baseOID) as [pdus err]. simpl.
  destruct (foldM_total (ponCallback c now baseOID setter)
              (fun s x => ponCallback_ok d baseOID setter s x Hd) pdus ports) as [ports' ->].
  simpl. destruct err; eauto.
Qed.

End PONPorts.

(** C2: when one of the walks of a PON-port collection ends with an
    error, GetPONPortMetrics returns no port list, whatever the order of
    the walks and whatever PDUs were accumulated before; with a device
    set on the client it returns the error of the first failing walk,
    wrapped with the OID that was being walked. *)
Theorem GetPONPortMetrics_walk_error
    (c : ZTEOLTClient) (now : Time)
    (entries : list (string * (SnmpPDU -> PONPortMetrics -> PONPortMetrics))) :
  (exists entry e, In entry entries /\ (Walk (snmp c) entry.1).2 = Some e) ->
  (forall ports, GetPONPortMetrics c now entries <> Ok ports)
  /\ (forall d, device c = Some d ->
        exists entry e,
          In entry entries /\ (Walk (snmp c) entry.1).2 = Some e
          /\ GetPONPortMetrics c now entries
             = Err (Wrapf ("failed to walk PON port OID " ++ entry.1 ++ ": ") e)).
Proof.
  intros (entry & e & Hin & He). split.
  - intros ports. unfold GetPONPortMetrics.
    destruct (foldM (ponWalk c now) entries ∅) as [m| |] eqn:E; simpl; try discriminate.
    exfalso. revert E.
    apply (foldM_never_ok (ponWalk c now) entry entries Hin).
    intros s s'. now apply ponWalk_error_never_ok with (e := e).
  - intros d Hd.
    destruct (foldM_first_error (ponWalk c now) (Spec.ponWalkError c) entries
                (fun s x => ponWalk_outcome c now d s x Hd)) with (s := (∅ : gmap Z PONPortMetrics))
      as (x & e' & Hx & Hb & Hr).
    + exists entry. split; [assumption|]. unfold Spec.ponWalkError. now rewrite He.
    + unfold Spec.ponWalkError in Hb.
      destruct ((Walk (snmp c) x.1).2) as [e0|] eqn:E0; [|discriminate].
      injection Hb as <-.
      exists x, e0. repeat split; try assumption.
      unfold GetPONPortMetrics. now rewrite Hr.
Qed.

(** The same, for the mock whose walks time out. *)
Lemma GetPONPortMetrics_walk_error_witness :
  (forall ports, GetPONPortMetrics Fixtures.walkErrorClient 0 ponWalkOIDs <> Ok ports)
  /\ (forall d, device Fixtures.walkErrorClient = Some d ->
        exists entry e,
          In entry ponWalkOIDs
          /\ (Walk (snmp Fixtures.walkErrorClient) entry.1).2 = Some e
          /\ GetPONPortMetrics Fixtures.walkErrorClient 0 ponWalkOIDs
             = Err (Wrapf ("failed to walk PON port OID " ++ entry.1 ++ ": ") e)).
Proof.
  apply (GetPONPortMetrics_walk_error Fixtures.walkErrorClient 0 ponWalkOIDs).
  exists (OIDZTEPONPortAdminStatus, fun pdu port => set_AdminStatus (pduToInt pdu) port).
  exists Fixtures.walkTimeout.
  split; [left; reflexivity | reflexivity].
Defined.

(** ** GetSystemMetrics *)

Section SystemMetrics.

Variable oor : float64 -> Z.
Variable c : ZTEOLTClient.
Variable now : Time.

(** A failing GET aborts GetSystemMetrics with the wrapped error. *)
Lemma GetSystemMetrics_get_error entries packet err :
  Get (snmp c) [OIDSysDescr; OIDSysName; OIDSysUpTime] = (packet, Some err) ->
  GetSystemMetrics oor c now entries = Err (Wrapf "failed to get system metrics: " err).
Proof. intros H. unfold GetSystemMetrics. now rewrite H. Qed.

(** The only error GetSystemMetrics ever returns is that of the GET: the
    outcome of the walks never reaches the caller. *)
Lemma GetSystemMetrics_error_is_get_error entries e :
  GetSystemMetrics oor c now entries = Err e ->
  exists packet err,
    Get (snmp c) [OIDSysDescr; OIDSysName; OIDSysUpTime] = (packet, Some err)
    /\ e = Wrapf "failed to get system metrics: " err.
Proof.
  unfold GetSystemMetrics.
  destruct (Get (snmp c) _) as [packet [err|]].
  - intros [= <-]. eauto.
  - destruct (device c); [|discriminate].
    destruct packet as [variables|]; [|discriminate].
    intros H. exfalso. revert H.
    match goal with |- context [foldM scalarCase variables ?m0] => generalize m0 end.
    induction variables as [|pdu variables IH]; intros m0; simpl; [discriminate|].
    unfold scalarCase at 1.
    repeat match goal with
           | |- context [if ?b then _ else _] => destruct b
           | |- context [match pdu_Value pdu with _ => _ end] => destruct (pdu_Value pdu)
           end; simpl; try discriminate; apply IH.
Qed.

End SystemMetrics.

(** Walks that deliver nothing leave the record as it is, whatever their
    outcome. *)
Lemma systemWalks_silent (c : ZTEOLTClient)
    (entries : list (string * (SnmpPDU -> OLTSystemMetrics -> OLTSystemMetrics)))
    (m : OLTSystemMetrics) :
  (forall baseOID, (Walk (snmp c) baseOID).1 = []) ->
  fold_left (systemWalk c) entries m = m.
Proof.
  intros Hw. revert m. induction entries as [|[baseOID updateFunc] entries IH]; intros m.
  - reflexivity.
  - simpl. specialize (Hw baseOID).
    destruct (Walk (snmp c) baseOID) as [pdus err]. simpl in Hw. subst pdus.
    simpl. destruct err; apply IH.
Qed.

(** C1, at the input where the code departs from it: the agent answers
    the GET and every walk times out, and GetSystemMetrics, in whatever
    order it walks, still returns a metrics record and a nil error. The
    record holds the scalars of the GET and zeros for everything the walks
    were to provide. *)
Theorem GetSystemMetrics_swallows_walk_errors (oor : float64 -> Z) (now : Time)
    (entries : list (string * (SnmpPDU -> OLTSystemMetrics -> OLTSystemMetrics))) :
  (forall baseOID, (Walk (snmp Fixtures.walkErrorClient) baseOID).2 = Some Fixtures.walkTimeout)
  /\ GetSystemMetrics oor Fixtures.walkErrorClient now entries
     = Ok {| sys_DeviceID := "test-olt-001"; sys_Timestamp := now;
             SysDescr := "ZTE C320 OLT v2.0"; SysName := "OLT-SUDIRMAN-01";
             UptimeSeconds := 3600; CPUUsagePercent := fzero; MemoryTotalKB := 0;
             MemoryUsedKB := 0; MemoryUsagePercent := fzero;
             TemperatureCelsius := fzero |}.
Proof.
  split; [intros baseOID; reflexivity|].
  unfold GetSystemMetrics. simpl.
  rewrite systemWalks_silent by (intros baseOID; reflexivity).
  reflexivity.
Qed.

(** *** The loop over the GET's variables *)

Section ScalarLoop.

Import SystemSpec.

Lemma foldM_app {A S : Type} (f : S -> A -> result S) (l1 l2 : list A) (s : S) :
  foldM f (l1 ++ l2) s = bind (foldM f l1 s) (foldM f l2).
Proof.
  revert s. induction l1 as [|x l1 IH]; intros s; simpl; [reflexivity|].
  destruct (f s x); simpl; auto.
Qed.

(** On a PDU as gosnmp delivers it, the loop body does not panic, and it
    leaves alone whatever the walks fill. *)
Lemma scalarCase_ok (m : OLTSystemMetrics) (pdu : SnmpPDU) :
  octetsAreBytes pdu ->
  exists m', scalarCase m pdu = Ok m' /\ walkFields m' = walkFields m.
Proof.
  intros Hwt. unfold scalarCase. cbv zeta.
  destruct (String.eqb _ OIDSysDescr).
  - destruct (pdu_Type pdu =? OctetString) eqn:Et; [|eauto].
    apply Z.eqb_eq in Et. destruct (Hwt Et) as [b ->]. eauto.
  - destruct (String.eqb _ OIDSysName).
    + destruct (pdu_Type pdu =? OctetString) eqn:Et; [|eauto].
      apply Z.eqb_eq in Et. destruct (Hwt Et) as [b ->]. eauto.
    + destruct (String.eqb _ OIDSysUpTime); eauto.
Qed.

(** A PDU with another name leaves the uptime alone. *)
Lemma scalarCase_other (m : OLTSystemMetrics) (pdu : SnmpPDU) :
  octetsAreBytes pdu ->
  TrimPrefix (pdu_Name pdu) "." <> OIDSysUpTime ->
  exists m', scalarCase m pdu = Ok m' /\ UptimeSeconds m' = UptimeSeconds m
             /\ walkFields m' = walkFields m.
Proof.
  intros Hwt Hne. unfold scalarCase. cbv zeta.
  destruct (String.eqb _ OIDSysDescr).
  - destruct (pdu_Type pdu =? OctetString) eqn:Et; [|eauto].
    apply Z.eqb_eq in Et. destruct (Hwt Et) as [b ->]. eauto.
  - destruct (String.eqb _ OIDSysName).
    + destruct (pdu_Type pdu =? OctetString) eqn:Et; [|eauto].
      apply Z.eqb_eq in Et. destruct (Hwt Et) as [b ->]. eauto.
    + destruct (String.eqb _ OIDSysUpTime) eqn:E; [|eauto].
      apply String.eqb_eq in E. contradiction.
Qed.

(** The sysUpTime PDU sets the uptime to its value divided by 100. *)
Lemma scalarCase_uptime (m : OLTSystemMetrics) (pdu : SnmpPDU) :
  TrimPrefix (pdu_Name pdu) "." = OIDSysUpTime ->
  scalarCase m pdu = Ok (set_UptimeSeconds (Z.quot (int64 (pduToUint32 pdu)) 100) m).
Proof. intros H. unfold scalarCase. cbv zeta. rewrite H. reflexivity. Qed.

Lemma scalarLoop_ok (variables : list SnmpPDU) (m : OLTSystemMetrics) :
  Forall octetsAreBytes variables ->
  exists m', foldM scalarCase variables m = Ok m' /\ walkFields m' = walkFields m.
Proof.
  intros H. revert m. induction H as [|pdu variables Hp _ IH]; intros m; simpl.
  - eauto.
  - destruct (scalarCase_ok m pdu Hp) as (m1 & -> & E1). simpl.
    destruct (IH m1) as (m2 & -> & E2). exists m2. split; [reflexivity|congruence].
Qed.

Lemma scalarLoop_other (variables : list SnmpPDU) (m : OLTSystemMetrics) :
  Forall octetsAreBytes variables ->
  Forall (fun q => TrimPrefix (pdu_Name q) "." <> OIDSysUpTime) variables ->
  exists m', foldM scalarCase variables m = Ok m' /\ UptimeSeconds m' = UptimeSeconds m.
Proof.
  intros H. revert m. induction H as [|pdu variables Hp _ IH]; intros m Hn; simpl.
  - eauto.
  - inversion Hn as [|? ? Hn1 Hn2]; subst.
    destruct (scalarCase_other m pdu Hp Hn1) as (m1 & -> & E1 & _). simpl.
    destruct (IH m1 Hn2) as (m2 & -> & E2). exists m2. split; [reflexivity|congruence].
Qed.

(** After the loop the uptime is that of the last sysUpTime variable. *)
Lemma scalarLoop_uptime (pre post : list SnmpPDU) (pdu : SnmpPDU) (m : OLTSystemMetrics) :
  Forall octetsAreBytes (pre ++ pdu :: post) ->
  TrimPrefix (pdu_Name pdu) "." = OIDSysUpTime ->
  Forall (fun q => TrimPrefix (pdu_Name q) "." <> OIDSysUpTime) post ->
  exists m', foldM scalarCase (pre ++ pdu :: post) m = Ok m'
             /\ UptimeSeconds m' = Z.quot (int64 (pduToUint32 pdu)) 100
             /\ walkFields m' = walkFields m.
Proof.
  intros Hwt Hname Hpost.
  destruct (scalarLoop_ok _ m Hwt) as (m' & E & Hw).
  exists m'. split; [assumption|]. split; [|assumption].
  apply Forall_app in Hwt as [Hpre Hrest].
  inversion Hrest as [|? ? _ Hpostwt]; subst.
  rewrite foldM_app in E.
  destruct (scalarLoop_ok pre m Hpre) as (m1 & E1 & _). rewrite E1 in E. simpl in E.
  rewrite (scalarCase_uptime m1 pdu Hname) in E. simpl in E.
  destruct (scalarLoop_other post
              (set_UptimeSeconds (Z.quot (int64 (pduToUint32 pdu)) 100) m1) Hpostwt Hpost)
    as (m2 & E2 & Hu).
  rewrite E2 in E. injection E as <-. exact Hu.
Qed.

End ScalarLoop.

(** *** The walks and the final computation *)

Section SystemWalks.

Import SystemSpec SystemInvariants.

Variable oor : float64 -> Z.
Variable c : ZTEOLTClient.

(** Only a non-negative float exceeds a non-negative float. *)
Lemma fgt_nonneg (v p : float64) : nonnegFloat p -> fgt v p = true -> nonnegFloat v.
Proof.
  unfold nonnegFloat, fgt, SFltb.
  intros [->|[(m & e & ->)| ->]] H; destruct v as [[|]|[|]| |[|] m' e']; simpl in H;
    try discriminate; eauto.
Qed.

Lemma walkInvariant_refl (m : OLTSystemMetrics) : walkInvariant m m.
Proof. unfold walkInvariant. auto. Qed.

(** Each closure of the map literal keeps the invariant. *)
Lemma update_invariant entry (pdu : SnmpPDU) (m0 m : OLTSystemMetrics) :
  In entry systemWalkOIDs ->
  walkInvariant m0 m -> walkInvariant m0 (entry.2 pdu m).
Proof.
  unfold walkInvariant. intros Hin (Hs & Hu & Ht & Hp).
  simpl in Hin. destruct Hin as [<-|[<-|[<-|[<-|[]]]]]; simpl.
  - destruct (fgt _ _); simpl; auto.
  - destruct (fgt _ _); simpl; auto.
  - destruct (fgt _ (MemoryUsagePercent m)) eqn:E; simpl; auto.
    repeat split; auto. intros H0. apply (fgt_nonneg _ _ (Hp H0) E).
  - destruct (_ >? MemoryTotalKB m) eqn:E; simpl; auto.
    repeat split; auto. intros H0. specialize (Ht H0).
    apply Z.gtb_lt in E. lia.
Qed.

Lemma systemWalk_invariant entry (m0 m : OLTSystemMetrics) :
  In entry systemWalkOIDs ->
  walkInvariant m0 m -> walkInvariant m0 (systemWalk c m entry).
Proof.
  intros Hin. unfold systemWalk. destruct entry as [baseOID updateFunc].
  destruct (Walk (snmp c) baseOID) as [pdus err].
  assert (forall m, walkInvariant m0 m ->
                    walkInvariant m0 (fold_left (fun m pdu => updateFunc pdu m) pdus m)) as H.
  { induction pdus as [|pdu pdus IH]; intros m1 H1; simpl; [assumption|].
    apply IH. apply (update_invariant _ pdu m0 m1 Hin H1). }
  intros Hm. destruct err; now apply H.
Qed.

Lemma walks_invariant entries (m0 m : OLTSystemMetrics) :
  (forall entry, In entry entries -> In entry systemWalkOIDs) ->
  walkInvariant m0 m -> walkInvariant m0 (fold_left (systemWalk c) entries m).
Proof.
  revert m. induction entries as [|entry entries IH]; intros m Hin Hm; simpl; [assumption|].
  apply IH.
  - intros e He. apply Hin. now right.
  - apply systemWalk_invariant; [|assumption]. apply Hin. now left.
Qed.

(** The final computation touches the used memory only. *)
Lemma usedMemory_fields (m : OLTSystemMetrics) :
  scalarFields (usedMemory oor m) = scalarFields m
  /\ MemoryTotalKB (usedMemory oor m) = MemoryTotalKB m
  /\ MemoryUsagePercent (usedMemory oor m) = MemoryUsagePercent m
  /\ MemoryUsedKB (usedMemory oor m)
     = if bothPositive m then usedKB oor (MemoryTotalKB m) (MemoryUsagePercent m)
       else MemoryUsedKB m.
Proof.
  unfold usedMemory, bothPositive.
  destruct (_ && _); simpl; auto.
Qed.

(** How GetSystemMetrics returns once the GET has succeeded: the scalar
    loop, then the walks, then the final computation. *)
Lemma GetSystemMetrics_returns now entries d variables :
  device c = Some d ->
  Get (snmp c) [OIDSysDescr; OIDSysName; OIDSysUpTime] = (Some variables, None) ->
  Forall octetsAreBytes variables ->
  entries ≡ₚ systemWalkOIDs ->
  exists m1 m2,
    foldM scalarCase variables (freshMetrics d now) = Ok m1
    /\ walkFields m1 = walkFields (freshMetrics d now)
    /\ walkInvariant m1 m2
    /\ GetSystemMetrics oor c now entries = Ok (usedMemory oor m2).
Proof.
  intros Hd Hget Hwt Hperm.
  destruct (scalarLoop_ok variables (freshMetrics d now) Hwt) as (m1 & E1 & Hw).
  exists m1, (fold_left (systemWalk c) entries m1).
  repeat split; try assumption.
  - apply walks_invariant; [|apply walkInvariant_refl].
    intros entry He. apply (Permutation_in _ Hperm He).
  - apply walks_invariant; [|apply walkInvariant_refl].
    intros entry He. apply (Permutation_in _ Hperm He).
  - apply walks_invariant; [|apply walkInvariant_refl].
    intros entry He. apply (Permutation_in _ Hperm He).
  - apply walks_invariant; [|apply walkInvariant_refl].
    intros entry He. apply (Permutation_in _ Hperm He).
  - unfold GetSystemMetrics. rewrite Hget, Hd.
    change (foldM scalarCase variables _) with (foldM scalarCase variables (freshMetrics d now)).
    rewrite E1. reflexivity.
Qed.

End SystemWalks.

(** C10: GetSystemMetrics turns sysUpTime, given in hundredths of a
    second, into whole seconds by integer division by 100. For every agent
    that answers the GET with well-formed variables, the returned record
    carries the value of the last sysUpTime variable divided by 100; with
    sysUpTime = 360000 the record has UptimeSeconds = 3600. *)
Theorem GetSystemMetrics_uptime :
  (forall (oor : float64 -> Z) (c : ZTEOLTClient) (now : Time) entries d
          (pre : list SnmpPDU) (pdu : SnmpPDU) (post : list SnmpPDU),
      device c = Some d ->
      Get (snmp c) [OIDSysDescr; OIDSysName; OIDSysUpTime] = (Some (pre ++ pdu :: post)%list, None) ->
      Forall SystemSpec.octetsAreBytes (pre ++ pdu :: post) ->
      TrimPrefix (pdu_Name pdu) "." = OIDSysUpTime ->
      Forall (fun q => TrimPrefix (pdu_Name q) "." <> OIDSysUpTime) post ->
      entries ≡ₚ systemWalkOIDs ->
      0 <= pduToUint32 pdu < 2 ^ 32 ->
      exists m, GetSystemMetrics oor c now entries = Ok m
                /\ UptimeSeconds m = pduToUint32 pdu / 100)
  /\ (forall (oor : float64 -> Z) (now : Time),
      exists m, GetSystemMetrics oor Fixtures.respondingClient now systemWalkOIDs = Ok m
                /\ UptimeSeconds m = 3600).
Proof.
  split.
  - intros oor c now entries d pre pdu post Hd Hget Hwt Hname Hpost Hperm Hrange.
    destruct (GetSystemMetrics_returns oor c now entries d _ Hd Hget Hwt Hperm)
      as (m1 & m2 & E1 & _ & (Hs & _) & Hr).
    exists (usedMemory oor m2). split; [assumption|].
    destruct (usedMemory_fields oor m2) as (Hs' & _).
    destruct (scalarLoop_uptime pre post pdu (SystemInvariants.freshMetrics d now)
                Hwt Hname Hpost) as (m1' & E1' & Hu & _).
    rewrite E1 in E1'. injection E1' as <-.
    unfold SystemSpec.scalarFields in *.
    assert (UptimeSeconds (usedMemory oor m2) = UptimeSeconds m1) as -> by congruence.
    rewrite Hu.
    assert (int64 (pduToUint32 pdu) = pduToUint32 pdu) as ->.
    { unfold int64. rewrite Z.mod_small; lia. }
    apply Z.quot_div_nonneg; lia.
  - intros oor now. eexists. split; reflexivity.
Qed.

(** The first part, on the packet of the success test. *)
Lemma GetSystemMetrics_uptime_witness :
  exists m, GetSystemMetrics (fun _ => MinInt64) Fixtures.respondingClient 0 systemWalkOIDs = Ok m
            /\ UptimeSeconds m = 360000 / 100.
Proof.
  apply (proj1 GetSystemMetrics_uptime (fun _ => MinInt64) Fixtures.respondingClient 0
           systemWalkOIDs newTestDevice
           [pduOctetString OIDSysDescr "ZTE C320 OLT v2.0";
            pduOctetString OIDSysName "OLT-SUDIRMAN-01"]
           (pduTimeTicks OIDSysUpTime 360000) []).
  - reflexivity.
  - reflexivity.
  - simpl. repeat (constructor; [intros H; first [discriminate H | eexists; reflexivity]|]).
    constructor.
  - reflexivity.
  - constructor.
  - reflexivity.
  - vm_compute. split; [discriminate | reflexivity].
Defined.

(** C8: used memory is total_kb * used_percent / 100, computed in float64
    and truncated, when both are positive, and it stays 0 otherwise; the
    total is never negative, so a total of 0 always gives exactly 0, and
    the call returns a record, with no fault and no error. The formula
    itself evaluates to 0 at a total of 0 (no NaN). With total 0 and
    used-percent 0 the record has MemoryUsedKB = 0; with 2000 MB and 50
    percent it has 1024000. *)
Theorem GetSystemMetrics_used_memory :
  (forall (oor : float64 -> Z) (c : ZTEOLTClient) (now : Time) entries d variables,
      device c = Some d ->
      Get (snmp c) [OIDSysDescr; OIDSysName; OIDSysUpTime] = (Some variables, None) ->
      Forall SystemSpec.octetsAreBytes variables ->
      entries ≡ₚ systemWalkOIDs ->
      exists m, GetSystemMetrics oor c now entries = Ok m
        /\ 0 <= MemoryTotalKB m
        /\ SystemSpec.nonnegFloat (MemoryUsagePercent m)
        /\ MemoryUsedKB m
           = (if (MemoryTotalKB m >? 0) && fgt (MemoryUsagePercent m) fzero
              then SystemSpec.usedKB oor (MemoryTotalKB m) (MemoryUsagePercent m)
              else 0)
        /\ (MemoryTotalKB m = 0 -> MemoryUsedKB m = 0)
        /\ (MemoryTotalKB m = 0 -> MemoryUsagePercent m <> S754_infinity false ->
            SystemSpec.usedKB oor (MemoryTotalKB m) (MemoryUsagePercent m) = 0))
  /\ (forall (oor : float64 -> Z) (now : Time),
      exists m, GetSystemMetrics oor Fixtures.zeroMemoryClient now systemWalkOIDs = Ok m
        /\ MemoryTotalKB m = 0 /\ MemoryUsagePercent m = fzero /\ MemoryUsedKB m = 0)
  /\ (forall (oor : float64 -> Z) (now : Time),
      exists m, GetSystemMetrics oor Fixtures.respondingClient now systemWalkOIDs = Ok m
        /\ MemoryTotalKB m = 2048000 /\ MemoryUsedKB m = 1024000).
Proof.
  split; [|split].
  - intros oor c now entries d variables Hd Hget Hwt Hperm.
    destruct (GetSystemMetrics_returns oor c now entries d _ Hd Hget Hwt Hperm)
      as (m1 & m2 & E1 & Hw & (_ & Hu & Ht & Hp) & Hr).
    exists (usedMemory oor m2). split; [assumption|].
    destruct (usedMemory_fields oor m2) as (_ & Et & Ep & Eu).
    unfold SystemSpec.walkFields in Hw. simpl in Hw.
    injection Hw as _ Ht1 Hu1 Hp1 _.
    rewrite Et, Ep, Eu.
    assert (0 <= MemoryTotalKB m2) as Hnn by (apply Ht; lia).
    assert (SystemSpec.nonnegFloat (MemoryUsagePercent m2)) as Hpp.
    { apply Hp. rewrite Hp1. now left. }
    assert (MemoryUsedKB m2 = 0) as Hu0 by congruence.
    unfold SystemInvariants.bothPositive.
    split; [assumption|]. split; [assumption|].
    split; [now rewrite Hu0|]. split.
    + intros H0. rewrite H0. simpl. assumption.
    + intros H0 Hfin. rewrite H0.
      destruct Hpp as [->|[(m & e & ->)|?]]; [reflexivity|reflexivity|contradiction].
  - intros oor now. eexists. repeat split; reflexivity.
  - intros oor now. eexists. repeat split; reflexivity.
Qed.

(** The first part, on the agent of the zero-memory test. *)
Lemma GetSystemMetrics_used_memory_witness :
  exists m, GetSystemMetrics (fun _ => MinInt64) Fixtures.zeroMemoryClient 0 systemWalkOIDs = Ok m
    /\ 0 <= MemoryTotalKB m
    /\ SystemSpec.nonnegFloat (MemoryUsagePercent m)
    /\ MemoryUsedKB m
       = (if (MemoryTotalKB m >? 0) && fgt (MemoryUsagePercent m) fzero
          then SystemSpec.usedKB (fun _ => MinInt64) (MemoryTotalKB m) (MemoryUsagePercent m)
          else 0)
    /\ (MemoryTotalKB m = 0 -> MemoryUsedKB m = 0)
    /\ (MemoryTotalKB m = 0 -> MemoryUsagePercent m <> S754_infinity false ->
        SystemSpec.usedKB (fun _ => MinInt64) (MemoryTotalKB m) (MemoryUsagePercent m) = 0).
Proof.
  apply (proj1 GetSystemMetrics_used_memory (fun _ => MinInt64) Fixtures.zeroMemoryClient 0
           systemWalkOIDs newTestDevice [pduOctetString OIDSysDescr "ZTE C320 OLT v2.0"]).
  - reflexivity.
  - reflexivity.
  - simpl. repeat (constructor; [intros H; first [discriminate H | eexists; reflexivity]|]).
    constructor.
  - reflexivity.
Defined.

(** ** Optical power *)

Section OpticalPower.

Import PowerSpec.

Lemma pon_tx_setter setter pdu port :
  In (OIDZTEPONPortTxPower, setter) ponWalkOIDs ->
  pon_TxPowerDBm (setter pdu port) = dBm (pduToInt pdu).
Proof. intros H. pick_entry H. reflexivity. Qed.

Lemma pon_rx_setter setter pdu port :
  In (OIDZTEPONPortRxPower, setter) ponWalkOIDs ->
  pon_RxPowerDBm (setter pdu port) = dBm (pduToInt pdu).
Proof. intros H. pick_entry H. reflexivity. Qed.

Lemma ont_rx_setter setter pdu ont :
  In (OIDZTEONTRxPower, setter) ontWalkOIDs ->
  ont_RxPowerDBm (setter pdu ont) = dBm (pduToInt pdu).
Proof. intros H. pick_entry H. reflexivity. Qed.

Lemma ont_tx_setter setter pdu ont :
  In (OIDZTEONTTxPower, setter) ontWalkOIDs ->
  ont_TxPowerDBm (setter pdu ont) = dBm (pduToInt pdu).
Proof. intros H. pick_entry H. reflexivity. Qed.

(** What the PON callback leaves in the map under the index of the PDU. *)
Lemma ponCallback_stores c now d baseOID setter (ports : gmap Z PONPortMetrics) pdu :
  device c = Some d ->
  0 <= extractLastOIDIndex (pdu_Name pdu) baseOID ->
  exists ports' port0,
    ponCallback c now baseOID setter ports pdu = Ok ports'
    /\ ports' !! extractLastOIDIndex (pdu_Name pdu) baseOID = Some (setter pdu port0).
Proof.
  intros Hd Hi. unfold ponCallback. cbv zeta.
  destruct (_ <? 0) eqn:E; [apply Z.ltb_lt in E; lia|].
  destruct (ports !! _) as [port|].
  - eexists _, port. split; [reflexivity|]. apply lookup_insert_eq.
  - rewrite Hd. eexists _, _. split; [reflexivity|]. apply lookup_insert_eq.
Qed.

(** What the ONT callback leaves in the map under the key of the PDU, for
    a column other than the serial-number one. *)
Lemma ontCallback_stores c now d ponPortIndex baseOID setter
    (onts : gmap string ONTMetrics) pdu :
  device c = Some d ->
  0 <= extractLastOIDIndex (pdu_Name pdu) baseOID ->
  String.eqb baseOID OIDZTEONTSerialNumber = false ->
  exists onts' ont0,
    ontCallback c now ponPortIndex baseOID setter onts pdu = Ok onts'
    /\ onts' !! Sprintf_d (extractLastOIDIndex (pdu_Name pdu) baseOID)
       = Some (setter pdu ont0).
Proof.
  intros Hd Hi Hs. unfold ontCallback. cbv zeta.
  destruct (_ <? 0) eqn:E; [apply Z.ltb_lt in E; lia|].
  destruct (onts !! _) as [ont|] eqn:El; simpl.
  - rewrite Hs, El. eexists _, ont. split; [reflexivity|]. apply lookup_insert_eq.
  - rewrite Hd. simpl. rewrite Hs, lookup_insert_eq.
    eexists _, _. split; [reflexivity|]. apply lookup_insert_eq.
Qed.

End OpticalPower.

(** *** A power field at the end of a PON-port collection *)

Section PONField.

Import PowerSpec.

Variable c : ZTEOLTClient.
Variable now : Time.

(** The field looked at, and the column that fills it. *)
Variable get : PONPortMetrics -> float64.
Variable target : string.

Hypothesis get_fresh : forall d timestamp i, get (freshPort d timestamp i) = fzero.
Hypothesis get_other : forall baseOID setter pdu port,
  In (baseOID, setter) ponWalkOIDs -> baseOID <> target -> get (setter pdu port) = get port.
Hypothesis get_target : forall setter pdu port,
  In (target, setter) ponWalkOIDs -> get (setter pdu port) = dBm (pduToInt pdu).

(** No setter changes the port index. *)
Lemma setter_keeps_PortIndex baseOID setter pdu port :
  In (baseOID, setter) ponWalkOIDs -> PortIndex (setter pdu port) = PortIndex port.
Proof.
  intros H. simpl in H.
  repeat (destruct H as [H|H]; [inversion H; subst; reflexivity|]). contradiction.
Qed.

(** A callback of another column keeps the invariant. *)
Lemma ponCallback_other cur baseOID setter m pdu m' :
  In (baseOID, setter) ponWalkOIDs -> baseOID <> target ->
  portInvariant get cur m ->
  ponCallback c now baseOID setter m pdu = Ok m' ->
  portInvariant get cur m'.
Proof.
  intros Hin Hne Hm. unfold ponCallback. cbv zeta.
  set (index := extractLastOIDIndex (pdu_Name pdu) baseOID).
  destruct (index <? 0) eqn:E; [intros [= <-]; assumption|].
  apply Z.ltb_ge in E.
  pose proof (Hm index) as Hi.
  destruct (m !! index) as [port|] eqn:El.
  - intros [= <-]. intros i. destruct (decide (index = i)) as [<-|Hd].
    + rewrite lookup_insert_eq. destruct Hi as (H0 & Hp & Hg).
      rewrite (setter_keeps_PortIndex baseOID), (get_other baseOID) by assumption. auto.
    + rewrite lookup_insert_ne by assumption. apply Hm.
  - destruct (device c) as [d|]; [|discriminate]. intros [= <-].
    intros i. destruct (decide (index = i)) as [<-|Hd].
    + rewrite lookup_insert_eq.
      rewrite (setter_keeps_PortIndex baseOID), (get_other baseOID) by assumption.
      fold (freshPort d now index). rewrite get_fresh, (Hi E). simpl. auto.
    + rewrite lookup_insert_ne by assumption. apply Hm.
Qed.

(** A callback of the field's own column records the PDU's value. *)
Lemma ponCallback_target cur setter m pdu m' :
  In (target, setter) ponWalkOIDs ->
  portInvariant get cur m ->
  ponCallback c now target setter m pdu = Ok m' ->
  portInvariant get (seen target cur pdu) m'.
Proof.
  intros Hin Hm. unfold ponCallback, seen. cbv zeta.
  set (index := extractLastOIDIndex (pdu_Name pdu) target).
  destruct (index <? 0) eqn:E.
  - apply Z.ltb_lt in E. intros [= <-]. intros i. pose proof (Hm i) as Hi.
    destruct (m !! i) as [port|].
    + destruct Hi as (H0 & Hp & Hg).
      destruct (index =? i) eqn:Ei; [apply Z.eqb_eq in Ei; lia|]. auto.
    + intros H0. destruct (index =? i) eqn:Ei; [apply Z.eqb_eq in Ei; lia|]. auto.
  - apply Z.ltb_ge in E.
    assert (forall port0 i,
               (m !! index = Some port0 \/ exists d, port0 = freshPort d now index) ->
               match <[index := setter pdu port0]> m !! i with
               | Some port => 0 <= i /\ PortIndex port = i
                              /\ get port = shown (if index =? i then Some (pduToInt pdu)
                                                   else cur i)
               | None => 0 <= i -> (if index =? i then Some (pduToInt pdu) else cur i) = None
               end) as Hstep.
    { intros port0 i H0. destruct (decide (index = i)) as [<-|Hd].
      - rewrite lookup_insert_eq, Z.eqb_refl.
        rewrite (setter_keeps_PortIndex target), (get_target setter) by assumption.
        split; [assumption|]. split; [|reflexivity].
        destruct H0 as [H0|[d ->]]; [|reflexivity].
        pose proof (Hm index) as Hi. rewrite H0 in Hi. tauto.
      - rewrite lookup_insert_ne by assumption.
        destruct (index =? i) eqn:Ei; [apply Z.eqb_eq in Ei; contradiction|].
        apply Hm. }
    destruct (m !! index) as [port|] eqn:El.
    + intros [= <-]. intros i. apply Hstep. now left.
    + destruct (device c) as [d|]; [|discriminate]. intros [= <-].
      intros i. apply Hstep. right. exists d. reflexivity.
Qed.

(** The walk of another column keeps the invariant. *)
Lemma ponWalk_other cur baseOID setter m m' :
  In (baseOID, setter) ponWalkOIDs -> baseOID <> target ->
  portInvariant get cur m ->
  ponWalk c now m (baseOID, setter) = Ok m' ->
  portInvariant get cur m'.
Proof.
  intros Hin Hne. unfold ponWalk.
  destruct (Walk (snmp c) baseOID) as [pdus err].
  intros Hm H.
  destruct (foldM _ pdus m) as [m1| |] eqn:E1; simpl in H; try discriminate.
  destruct err; [discriminate|]. injection H as <-.
  revert m Hm E1. induction pdus as [|pdu pdus IH]; intros m Hm; simpl.
  - now intros [= <-].
  - destruct (ponCallback c now baseOID setter m pdu) as [m2| |] eqn:E2; simpl; try discriminate.
    apply IH. apply (ponCallback_other cur baseOID setter m pdu m2); assumption.
Qed.

(** The walk of the field's own column leaves every record with the last
    value the column had for its index. *)
Lemma ponWalk_target cur setter m m' :
  In (target, setter) ponWalkOIDs ->
  portInvariant get cur m ->
  ponWalk c now m (target, setter) = Ok m' ->
  portInvariant get (fold_left (seen target) (Walk (snmp c) target).1 cur) m'.
Proof.
  intros Hin. unfold ponWalk.
  destruct (Walk (snmp c) target) as [pdus err]. simpl.
  intros Hm H.
  destruct (foldM _ pdus m) as [m1| |] eqn:E1; simpl in H; try discriminate.
  destruct err; [discriminate|]. injection H as <-.
  revert cur m Hm E1. induction pdus as [|pdu pdus IH]; intros cur m Hm; simpl.
  - now intros [= <-].
  - destruct (ponCallback c now target setter m pdu) as [m2| |] eqn:E2; simpl; try discriminate.
    apply IH. apply (ponCallback_target cur setter m pdu m2); assumption.
Qed.

(** Walks that do not include the field's column keep the invariant. *)
Lemma ponWalks_other cur l m m' :
  (forall entry, In entry l -> In entry ponWalkOIDs) ->
  ~ In target (map fst l) ->
  portInvariant get cur m ->
  foldM (ponWalk c now) l m = Ok m' ->
  portInvariant get cur m'.
Proof.
  revert m. induction l as [|[baseOID setter] l IH]; intros m Hlit Hnot Hm; cbn [foldM].
  - now intros [= <-].
  - destruct (ponWalk c now m (baseOID, setter)) as [m1| |] eqn:E1; cbn [bind]; try discriminate.
    apply IH.
    + intros e He. apply Hlit. now right.
    + intros H. apply Hnot. now right.
    + apply (ponWalk_other cur baseOID setter m m1); auto.
      * apply Hlit. now left.
      * intros ->. apply Hnot. now left.
Qed.

(** Walks that include the field's column once end with every record
    showing the last value of that column. *)
Lemma ponWalks_target l m m' :
  (forall entry, In entry l -> In entry ponWalkOIDs) ->
  List.NoDup (map fst l) ->
  In target (map fst l) ->
  portInvariant get (fun _ => None) m ->
  foldM (ponWalk c now) l m = Ok m' ->
  portInvariant get (lastRaw target (Walk (snmp c) target).1) m'.
Proof.
  revert m. induction l as [|[baseOID setter] l IH]; intros m Hlit Hnd Hin Hm; cbn [foldM].
  - contradiction.
  - simpl in Hnd. inversion Hnd as [|? ? Hfresh Hnd']; subst.
    destruct (ponWalk c now m (baseOID, setter)) as [m1| |] eqn:E1; cbn [bind]; try discriminate.
    destruct (decide (baseOID = target)) as [->|Hne].
    + apply ponWalks_other; [intros e He; apply Hlit; now right|exact Hfresh|].
      unfold lastRaw.
      apply (ponWalk_target (fun _ => None) setter m m1); auto.
      apply Hlit. now left.
    + apply IH; try assumption.
      * intros e He. apply Hlit. now right.
      * destruct Hin as [Hin|Hin]; [simpl in Hin; contradiction|assumption].
      * apply (ponWalk_other (fun _ => None) baseOID setter m m1); auto.
        apply Hlit. now left.
Qed.

(** At the end of a collection every returned port shows the last value
    of the field's column for its index. *)
Lemma GetPONPortMetrics_field entries ports port :
  entries ≡ₚ ponWalkOIDs ->
  GetPONPortMetrics c now entries = Ok ports ->
  In port ports ->
  In target (map fst ponWalkOIDs) ->
  get port = shown (lastRaw target (Walk (snmp c) target).1 (PortIndex port)).
Proof.
  intros Hperm. unfold GetPONPortMetrics.
  destruct (foldM (ponWalk c now) entries ∅) as [m| |] eqn:E; simpl; try discriminate.
  intros [= <-] Hport Htarget.
  assert (portInvariant get (lastRaw target (Walk (snmp c) target).1) m) as Hm.
  { apply (ponWalks_target entries ∅ m); try assumption.
    - intros e He. apply (Permutation_in _ Hperm He).
    - apply (Permutation.Permutation_NoDup (Permutation_map fst (Permutation_sym Hperm))).
      repeat (apply List.NoDup_cons; [vm_compute; intuition discriminate|]).
      apply List.NoDup_nil.
    - apply (Permutation_in _ (Permutation_map fst (Permutation_sym Hperm)) Htarget).
    - intros i. rewrite lookup_empty. reflexivity. }
  apply list_elem_of_In, list_elem_of_fmap in Hport as ([i port'] & -> & Hl).
  apply elem_of_map_to_list in Hl. simpl.
  pose proof (Hm i) as Hi. rewrite Hl in Hi. destruct Hi as (_ & -> & Hg). exact Hg.
Qed.

End PONField.


(** ** GetONTMetrics *)

Section ONTs.

Import ONTSpec.

(** The decimal rendering of an int determines the int. *)
Lemma Sprintf_d_inj (n n' : Z) : Sprintf_d n = Sprintf_d n' -> n = n'.
Proof.
  unfold Sprintf_d. intros H.
  apply DecimalZ.to_int_inj.
  assert (forall z, DecimalString.NilZero.int_of_string
                      (DecimalString.NilZero.string_of_int (Z.to_int z))
                    = Some (Z.to_int z)) as Hisi.
  { intros z. apply DecimalString.NilZero.isi; destruct z; simpl; try discriminate;
      intros [= E]; now apply DecimalPos.Unsigned.to_uint_nonnil in E. }
  pose proof (Hisi n) as E1. rewrite H, Hisi in E1. now injection E1.
Qed.

Variable c : ZTEOLTClient.
Variable now : Time.
Variable entries : list (string * (SnmpPDU -> ONTMetrics -> ONTMetrics)).
Hypothesis entries_literal : forall entry, In entry entries -> In entry ontWalkOIDs.

(** The setters leave the index fields and the serial number alone. *)
Lemma setter_keeps_index baseOID setter pdu o i :
  In (baseOID, setter) ontWalkOIDs ->
  fromIndex o i -> fromIndex (setter pdu o) i.
Proof.
  intros H. unfold fromIndex. simpl in H.
  repeat (destruct H as [H|H]; [inversion H; subst; simpl; auto|]).
  contradiction.
Qed.

Lemma grows_refl m : grows m m.
Proof. unfold grows. auto. Qed.

Lemma grows_trans m1 m2 m3 : grows m1 m2 -> grows m2 m3 -> grows m1 m3.
Proof. unfold grows. auto. Qed.

Lemma grows_insert (m : gmap string ONTMetrics) k o : grows m (<[k := o]> m).
Proof.
  intros k' H. destruct (decide (k = k')) as [->|Hne].
  - rewrite lookup_insert_eq. eauto.
  - now rewrite lookup_insert_ne.
Qed.

Lemma mapInvariant_insert (m : gmap string ONTMetrics) o i :
  mapInvariant c entries m -> fromIndex o i -> walked c entries i ->
  mapInvariant c entries (<[Sprintf_d i := o]> m).
Proof.
  intros Hm Ho Hw k o' Hl. destruct (decide (Sprintf_d i = k)) as [<-|Hne].
  - rewrite lookup_insert_eq in Hl. injection Hl as <-. eauto.
  - rewrite lookup_insert_ne in Hl by assumption. eauto.
Qed.

(** One callback: the invariant is kept, no key is lost, and the PDU's
    own record is in the map afterwards. *)
Lemma ontCallback_invariant ponPortIndex baseOID setter m pdu m' :
  In (baseOID, setter) entries ->
  In pdu (Walk (snmp c) baseOID).1 ->
  mapInvariant c entries m ->
  ontCallback c now ponPortIndex baseOID setter m pdu = Ok m' ->
  mapInvariant c entries m' /\ grows m m' /\ covered m' baseOID pdu.
Proof.
  intros Hin Hpdu Hm. unfold ontCallback, covered. cbv zeta.
  set (index := extractLastOIDIndex (pdu_Name pdu) baseOID).
  assert (walked c entries index) as Hw by (exists baseOID, setter, pdu; auto).
  destruct (index <? 0) eqn:E.
  - intros [= <-]. apply Z.ltb_lt in E.
    split; [assumption|]. split; [apply grows_refl|]. intros Hi. lia.
  - apply Z.ltb_ge in E.
    destruct (m !! Sprintf_d index) as [o|] eqn:El; simpl.
    + destruct (String.eqb baseOID OIDZTEONTSerialNumber).
      * intros [= <-].
        split; [assumption|]. split; [apply grows_refl|]. intros _. rewrite El. eauto.
      * rewrite El. intros [= <-].
        destruct (Hm _ _ El) as (i & Hk & Ho & _).
        apply Sprintf_d_inj in Hk. subst i.
        split; [|split].
        -- apply mapInvariant_insert; auto.
           apply (setter_keeps_index baseOID); auto.
        -- apply grows_insert.
        -- intros _. rewrite lookup_insert_eq. eauto.
    + destruct (device c) as [d|]; [|discriminate]. simpl.
      match goal with
      | |- context [<[_ := ?r]> m] => set (fresh := r)
      end.
      assert (fromIndex fresh index) as Hf by (unfold fromIndex; simpl; auto).
      destruct (String.eqb baseOID OIDZTEONTSerialNumber).
      * intros [= <-]. split; [|split].
        -- apply mapInvariant_insert; auto.
        -- apply grows_insert.
        -- intros _. rewrite lookup_insert_eq. eauto.
      * rewrite lookup_insert_eq. intros [= <-]. split; [|split].
        -- apply mapInvariant_insert; [apply mapInvariant_insert; auto| |auto].
           apply (setter_keeps_index baseOID); auto.
        -- eapply grows_trans; apply grows_insert.
        -- intros _. rewrite lookup_insert_eq. eauto.
Qed.

(** The callbacks of one walk, over any part [pdus] of what the walk
    delivers. *)
Lemma ontCallbacks_invariant ponPortIndex baseOID setter pdus m m' :
  In (baseOID, setter) entries ->
  (forall pdu, In pdu pdus -> In pdu (Walk (snmp c) baseOID).1) ->
  mapInvariant c entries m ->
  foldM (ontCallback c now ponPortIndex baseOID setter) pdus m = Ok m' ->
  mapInvariant c entries m' /\ grows m m'
  /\ (forall pdu, In pdu pdus -> covered m' baseOID pdu).
Proof.
  intros Hin. revert m. induction pdus as [|pdu pdus IH]; intros m Hsub Hm; simpl.
  - intros [= <-]. split; [assumption|]. split; [apply grows_refl|]. contradiction.
  - destruct (ontCallback c now ponPortIndex baseOID setter m pdu) as [m1| |] eqn:E1;
      simpl; try discriminate.
    intros E2.
    destruct (ontCallback_invariant _ _ _ _ _ _ Hin (Hsub pdu (or_introl eq_refl)) Hm E1)
      as (Hm1 & Hg1 & Hc1).
    destruct (IH m1 (fun p Hp => Hsub p (or_intror Hp)) Hm1 E2) as (Hm' & Hg2 & Hc2).
    split; [assumption|]. split.
    + eapply grows_trans; eauto.
    + intros p [<-|Hp]; [|auto].
      intros Hi. apply Hg2. now apply Hc1.
Qed.

Lemma ontWalk_invariant ponPortIndex entry m m' :
  In entry entries ->
  mapInvariant c entries m ->
  ontWalk c now ponPortIndex m entry = Ok m' ->
  mapInvariant c entries m' /\ grows m m'
  /\ (forall pdu, In pdu (Walk (snmp c) entry.1).1 -> covered m' entry.1 pdu).
Proof.
  destruct entry as [baseOID setter]. intros Hin Hm. unfold ontWalk. simpl.
  destruct (Walk (snmp c) baseOID) as [pdus err] eqn:Ew.
  destruct (foldM _ pdus m) as [m1| |] eqn:E1; simpl; try discriminate.
  destruct err; [discriminate|]. intros [= <-].
  apply (ontCallbacks_invariant ponPortIndex baseOID setter pdus m m1 Hin); auto.
  rewrite Ew. auto.
Qed.

(** The loop over the walks, over any part [l] of [entries]. *)
Lemma ontWalks_invariant ponPortIndex l m m' :
  (forall entry, In entry l -> In entry entries) ->
  mapInvariant c entries m ->
  foldM (ontWalk c now ponPortIndex) l m = Ok m' ->
  mapInvariant c entries m' /\ grows m m'
  /\ (forall entry pdu, In entry l -> In pdu (Walk (snmp c) entry.1).1 ->
        covered m' entry.1 pdu).
Proof.
  revert m. induction l as [|entry l IH]; intros m Hsub Hm; simpl.
  - intros [= <-]. split; [assumption|]. split; [apply grows_refl|]. contradiction.
  - destruct (ontWalk c now ponPortIndex m entry) as [m1| |] eqn:E1; simpl; try discriminate.
    intros E2.
    destruct (ontWalk_invariant _ _ _ _ (Hsub entry (or_introl eq_refl)) Hm E1)
      as (Hm1 & Hg1 & Hc1).
    destruct (IH m1 (fun e He => Hsub e (or_intror He)) Hm1 E2) as (Hm' & Hg2 & Hc2).
    split; [assumption|]. split.
    + eapply grows_trans; eauto.
    + intros e pdu [<-|He] Hp; [|auto].
      intros Hi. apply Hg2. now apply Hc1.
Qed.

(** With a device set, the callback cannot fail. *)
Lemma ontCallback_ok d ponPortIndex baseOID setter m pdu :
  device c = Some d ->
  exists m', ontCallback c now ponPortIndex baseOID setter m pdu = Ok m'.
Proof.
  intros Hd. unfold ontCallback. cbv zeta.
  destruct (_ <? 0); [eauto|].
  destruct (m !! _) as [o|] eqn:El; simpl.
  - destruct (String.eqb _ _); [eauto|]. rewrite El. eauto.
  - rewrite Hd. simpl. destruct (String.eqb _ _); [eauto|].
    rewrite lookup_insert_eq. eauto.
Qed.

Lemma ontWalk_ok d ponPortIndex entry m :
  device c = Some d ->
  (Walk (snmp c) entry.1).2 = None ->
  exists m', ontWalk c now ponPortIndex m entry = Ok m'.
Proof.
  intros Hd He. destruct entry as [baseOID setter]. unfold ontWalk. simpl in *.
  destruct (Walk (snmp c) baseOID) as [pdus err]. simpl in He. subst err.
  destruct (foldM_total (ontCallback c now ponPortIndex baseOID setter)
              (fun s x => ontCallback_ok d ponPortIndex baseOID setter s x Hd) pdus m)
    as [m' ->].
  simpl. eauto.
Qed.

Lemma ontWalks_ok d ponPortIndex l m :
  device c = Some d ->
  (forall entry, In entry l -> (Walk (snmp c) entry.1).2 = None) ->
  exists m', foldM (ontWalk c now ponPortIndex) l m = Ok m'.
Proof.
  intros Hd. revert m. induction l as [|entry l IH]; intros m Hl; simpl; [eauto|].
  destruct (ontWalk_ok d ponPortIndex entry m Hd (Hl entry (or_introl eq_refl))) as [m1 ->].
  simpl. apply IH. intros e He. apply Hl. now right.
Qed.

End ONTs.

(** The records of the returned slice are those of the map. *)
Lemma In_map_values (m : gmap string ONTMetrics) (o : ONTMetrics) :
  In o (map_to_list m).*2 <-> exists k, m !! k = Some o.
Proof.
  rewrite <- list_elem_of_In, list_elem_of_fmap. split.
  - intros ([k o'] & -> & H). apply elem_of_map_to_list in H. eauto.
  - intros [k H]. exists (k, o). split; [reflexivity|]. now apply elem_of_map_to_list.
Qed.

(** C6: GetONTMetrics ignores its ponPortIndex argument. Whatever the
    argument, it returns what GetAllONTMetrics returns; every returned
    record stems from a walked PDU with a non-negative packed index and
    carries that raw index as PONPortIndex and as ONTIndex and its
    upper-case hexadecimal rendering as SerialNumber; and every walked PDU
    with a non-negative index has its record in the result, so no ONT is
    filtered out. With a device set and walks that end well a list is
    returned. *)
Theorem GetONTMetrics_ignores_port
    (c : ZTEOLTClient) (now : Time)
    (entries : list (string * (SnmpPDU -> ONTMetrics -> ONTMetrics))) :
  entries ≡ₚ ontWalkOIDs ->
  (forall ponPortIndex,
      GetONTMetrics c now entries ponPortIndex = GetAllONTMetrics c now entries)
  /\ (forall ponPortIndex onts,
      GetONTMetrics c now entries ponPortIndex = Ok onts ->
      (forall o, In o onts ->
         exists baseOID setter pdu,
           In (baseOID, setter) entries
           /\ In pdu (Walk (snmp c) baseOID).1
           /\ 0 <= extractLastOIDIndex (pdu_Name pdu) baseOID
           /\ PONPortIndex o = extractLastOIDIndex (pdu_Name pdu) baseOID
           /\ ONTIndex o = extractLastOIDIndex (pdu_Name pdu) baseOID
           /\ SerialNumber o = Sprintf_X (extractLastOIDIndex (pdu_Name pdu) baseOID))
      /\ (forall baseOID setter pdu,
         In (baseOID, setter) entries ->
         In pdu (Walk (snmp c) baseOID).1 ->
         0 <= extractLastOIDIndex (pdu_Name pdu) baseOID ->
         exists o, In o onts /\ ONTIndex o = extractLastOIDIndex (pdu_Name pdu) baseOID))
  /\ (forall d ponPortIndex,
      device c = Some d ->
      (forall entry, In entry entries -> (Walk (snmp c) entry.1).2 = None) ->
      exists onts, GetONTMetrics c now entries ponPortIndex = Ok onts).
Proof.
  intros Hperm.
  assert (forall entry, In entry entries -> In entry ontWalkOIDs) as Hlit.
  { intros entry He. apply (Permutation_in _ Hperm He). }
  split; [reflexivity|]. split.
  - intros ponPortIndex onts. unfold GetONTMetrics.
    destruct (foldM (ontWalk c now ponPortIndex) entries ∅) as [m| |] eqn:E;
      simpl; try discriminate.
    intros [= <-].
    destruct (ontWalks_invariant c now entries Hlit ponPortIndex entries ∅ m
                (fun e He => He)) as (Hm & _ & Hc); [|assumption|].
    { intros k o Hl. rewrite lookup_empty in Hl. discriminate. }
    split.
    + intros o Ho. apply In_map_values in Ho as [k Hk].
      destruct (Hm k o Hk) as (i & _ & (Hi & Hp & Ho' & Hs) & (baseOID & setter & pdu & H1 & H2 & H3)).
      exists baseOID, setter, pdu. rewrite H3. repeat (split; [assumption|]). assumption.
    + intros baseOID setter pdu Hin Hpdu Hi.
      destruct (Hc (baseOID, setter) pdu Hin Hpdu Hi) as [o Ho].
      exists o. split; [apply In_map_values; eauto|].
      destruct (Hm _ o Ho) as (i & Hk & (_ & _ & Hoi & _) & _).
      apply Sprintf_d_inj in Hk. simpl in Hk. congruence.
  - intros d ponPortIndex Hd Hok. unfold GetONTMetrics.
    destruct (ontWalks_ok c now d ponPortIndex entries ∅ Hd Hok) as [m ->].
    simpl. eauto.
Qed.

(** The same, for the agent of the ONT test and the literal's own order. *)
Lemma GetONTMetrics_ignores_port_witness :
  (forall ponPortIndex,
      GetONTMetrics ONTFixtures.ontClient 0 ontWalkOIDs ponPortIndex
      = GetAllONTMetrics ONTFixtures.ontClient 0 ontWalkOIDs)
  /\ (forall ponPortIndex onts,
      GetONTMetrics ONTFixtures.ontClient 0 ontWalkOIDs ponPortIndex = Ok onts ->
      (forall o, In o onts ->
         exists baseOID setter pdu,
           In (baseOID, setter) ontWalkOIDs
           /\ In pdu (Walk (snmp ONTFixtures.ontClient) baseOID).1
           /\ 0 <= extractLastOIDIndex (pdu_Name pdu) baseOID
           /\ PONPortIndex o = extractLastOIDIndex (pdu_Name pdu) baseOID
           /\ ONTIndex o = extractLastOIDIndex (pdu_Name pdu) baseOID
           /\ SerialNumber o = Sprintf_X (extractLastOIDIndex (pdu_Name pdu) baseOID))
      /\ (forall baseOID setter pdu,
         In (baseOID, setter) ontWalkOIDs ->
         In pdu (Walk (snmp ONTFixtures.ontClient) baseOID).1 ->
         0 <= extractLastOIDIndex (pdu_Name pdu) baseOID ->
         exists o, In o onts /\ ONTIndex o = extractLastOIDIndex (pdu_Name pdu) baseOID))
  /\ (forall d ponPortIndex,
      device ONTFixtures.ontClient = Some d ->
      (forall entry, In entry ontWalkOIDs ->
                     (Walk (snmp ONTFixtures.ontClient) entry.1).2 = None) ->
      exists onts, GetONTMetrics ONTFixtures.ontClient 0 ontWalkOIDs ponPortIndex = Ok onts).
Proof.
  apply (GetONTMetrics_ignores_port ONTFixtures.ontClient 0 ontWalkOIDs).
  reflexivity.
Defined.

(** ** Optical power at the end of a collection *)

Section ONTField.

Import PowerSpec.

Variable c : ZTEOLTClient.
Variable now : Time.

(** The field looked at, and the column that fills it. *)
Variable get : ONTMetrics -> float64.
Variable target : string.

Hypothesis get_fresh : forall d timestamp i, get (freshONT d timestamp i) = fzero.
Hypothesis get_other : forall baseOID setter pdu ont,
  In (baseOID, setter) ontWalkOIDs -> baseOID <> target -> get (setter pdu ont) = get ont.
Hypothesis get_target : forall setter pdu ont,
  In (target, setter) ontWalkOIDs -> get (setter pdu ont) = dBm (pduToInt pdu).
Hypothesis target_not_serial : String.eqb target OIDZTEONTSerialNumber = false.

(** What a callback does to the map: nothing for a negative index;
    otherwise the record of the index, found or newly made, is stored
    back after the column's setter has been applied to it. *)
Lemma ontCallback_result ponPortIndex baseOID setter (m : gmap string ONTMetrics) pdu m' :
  ontCallback c now ponPortIndex baseOID setter m pdu = Ok m' ->
  (extractLastOIDIndex (pdu_Name pdu) baseOID < 0 /\ m' = m)
  \/ (0 <= extractLastOIDIndex (pdu_Name pdu) baseOID
      /\ exists ont0,
          (m !! Sprintf_d (extractLastOIDIndex (pdu_Name pdu) baseOID) = Some ont0
           \/ (m !! Sprintf_d (extractLastOIDIndex (pdu_Name pdu) baseOID) = None
               /\ exists d, ont0 = freshONT d now (extractLastOIDIndex (pdu_Name pdu) baseOID)))
          /\ m' = <[Sprintf_d (extractLastOIDIndex (pdu_Name pdu) baseOID)
                    := applied baseOID setter pdu ont0]> m).
Proof.
  unfold ontCallback, applied. cbv zeta.
  set (index := extractLastOIDIndex (pdu_Name pdu) baseOID).
  destruct (index <? 0) eqn:E.
  - apply Z.ltb_lt in E. intros [= <-]. now left.
  - apply Z.ltb_ge in E.
    destruct (m !! Sprintf_d index) as [ont|] eqn:El; simpl.
    + intros H. right. split; [assumption|].
      exists ont. split; [now left|].
      destruct (String.eqb baseOID OIDZTEONTSerialNumber).
      * injection H as <-. symmetry. now apply insert_id.
      * rewrite El in H. now injection H as <-.
    + destruct (device c) as [d|]; [|discriminate]. simpl.
      intros H. right. split; [assumption|].
      exists (freshONT d now index). split; [right; eauto|].
      destruct (String.eqb baseOID OIDZTEONTSerialNumber).
      * now injection H as <-.
      * rewrite lookup_insert_eq in H. injection H as <-.
        unfold freshONT. now rewrite insert_insert_eq.
Qed.

(** A callback of another column keeps the invariant. *)
Lemma ontCallback_other cur ponPortIndex baseOID setter m pdu m' :
  In (baseOID, setter) ontWalkOIDs -> baseOID <> target ->
  ontInvariant get cur m ->
  ontCallback c now ponPortIndex baseOID setter m pdu = Ok m' ->
  ontInvariant get cur m'.
Proof.
  intros Hin Hne Hm H.
  apply ontCallback_result in H as [[_ ->]|(Hi & ont0 & H0 & ->)]; [assumption|].
  intros i Hpos.
  destruct (decide (extractLastOIDIndex (pdu_Name pdu) baseOID = i)) as [<-|Hd].
  - rewrite lookup_insert_eq.
    assert (get (applied baseOID setter pdu ont0) = get ont0) as ->.
    { unfold applied. destruct (String.eqb baseOID OIDZTEONTSerialNumber); [reflexivity|].
      now apply (get_other baseOID). }
    pose proof (Hm _ Hi) as Hinv.
    destruct H0 as [H0|[H0 [d ->]]]; rewrite H0 in Hinv; [assumption|].
    rewrite get_fresh, Hinv. reflexivity.
  - rewrite lookup_insert_ne by (intros Hk; apply Sprintf_d_inj in Hk; contradiction).
    now apply Hm.
Qed.

(** A callback of the field's own column records the PDU's value. *)
Lemma ontCallback_target cur ponPortIndex setter m pdu m' :
  In (target, setter) ontWalkOIDs ->
  ontInvariant get cur m ->
  ontCallback c now ponPortIndex target setter m pdu = Ok m' ->
  ontInvariant get (seen target cur pdu) m'.
Proof.
  intros Hin Hm H.
  apply ontCallback_result in H as [[Hneg ->]|(Hi & ont0 & H0 & ->)].
  - intros i Hpos. unfold seen.
    destruct (_ =? i) eqn:Ei; [apply Z.eqb_eq in Ei; lia|]. now apply Hm.
  - intros i Hpos. unfold seen.
    destruct (decide (extractLastOIDIndex (pdu_Name pdu) target = i)) as [<-|Hd].
    + rewrite lookup_insert_eq, Z.eqb_refl. unfold applied. rewrite target_not_serial.
      now apply get_target.
    + rewrite lookup_insert_ne by (intros Hk; apply Sprintf_d_inj in Hk; contradiction).
      destruct (_ =? i) eqn:Ei; [apply Z.eqb_eq in Ei; contradiction|]. now apply Hm.
Qed.

Lemma ontWalk_other cur ponPortIndex baseOID setter m m' :
  In (baseOID, setter) ontWalkOIDs -> baseOID <> target ->
  ontInvariant get cur m ->
  ontWalk c now ponPortIndex m (baseOID, setter) = Ok m' ->
  ontInvariant get cur m'.
Proof.
  intros Hin Hne. unfold ontWalk.
  destruct (Walk (snmp c) baseOID) as [pdus err].
  intros Hm H.
  destruct (foldM _ pdus m) as [m1| |] eqn:E1; simpl in H; try discriminate.
  destruct err; [discriminate|]. injection H as <-.
  revert m Hm E1. induction pdus as [|pdu pdus IH]; intros m Hm; simpl.
  - now intros [= <-].
  - destruct (ontCallback c now ponPortIndex baseOID setter m pdu) as [m2| |] eqn:E2;
      simpl; try discriminate.
    apply IH. apply (ontCallback_other cur ponPortIndex baseOID setter m pdu m2); assumption.
Qed.

Lemma ontWalk_target cur ponPortIndex setter m m' :
  In (target, setter) ontWalkOIDs ->
  ontInvariant get cur m ->
  ontWalk c now ponPortIndex m (target, setter) = Ok m' ->
  ontInvariant get (fold_left (seen target) (Walk (snmp c) target).1 cur) m'.
Proof.
  intros Hin. unfold ontWalk.
  destruct (Walk (snmp c) target) as [pdus err]. simpl.
  intros Hm H.
  destruct (foldM _ pdus m) as [m1| |] eqn:E1; simpl in H; try discriminate.
  destruct err; [discriminate|]. injection H as <-.
  revert cur m Hm E1. induction pdus as [|pdu pdus IH]; intros cur m Hm; simpl.
  - now intros [= <-].
  - destruct (ontCallback c now ponPortIndex target setter m pdu) as [m2| |] eqn:E2;
      simpl; try discriminate.
    apply IH. apply (ontCallback_target cur ponPortIndex setter m pdu m2); assumption.
Qed.

Lemma ontWalks_other cur ponPortIndex l m m' :
  (forall entry, In entry l -> In entry ontWalkOIDs) ->
  ~ In target (map fst l) ->
  ontInvariant get cur m ->
  foldM (ontWalk c now ponPortIndex) l m = Ok m' ->
  ontInvariant get cur m'.
Proof.
  revert m. induction l as [|[baseOID setter] l IH]; intros m Hlit Hnot Hm; cbn [foldM].
  - now intros [= <-].
  - destruct (ontWalk c now ponPortIndex m (baseOID, setter)) as [m1| |] eqn:E1;
      cbn [bind]; try discriminate.
    apply IH.
    + intros e He. apply Hlit. now right.
    + intros H. apply Hnot. now right.
    + apply (ontWalk_other cur ponPortIndex baseOID setter m m1); auto.
      * apply Hlit. now left.
      * intros ->. apply Hnot. now left.
Qed.

Lemma ontWalks_target ponPortIndex l m m' :
  (forall entry, In entry l -> In entry ontWalkOIDs) ->
  List.NoDup (map fst l) ->
  In target (map fst l) ->
  ontInvariant get (fun _ => None) m ->
  foldM (ontWalk c now ponPortIndex) l m = Ok m' ->
  ontInvariant get (lastRaw target (Walk (snmp c) target).1) m'.
Proof.
  revert m. induction l as [|[baseOID setter] l IH]; intros m Hlit Hnd Hin Hm; cbn [foldM].
  - contradiction.
  - simpl in Hnd. inversion Hnd as [|? ? Hfresh Hnd']; subst.
    destruct (ontWalk c now ponPortIndex m (baseOID, setter)) as [m1| |] eqn:E1;
      cbn [bind]; try discriminate.
    destruct (decide (baseOID = target)) as [->|Hne].
    + apply ontWalks_other; [intros e He; apply Hlit; now right|exact Hfresh|].
      unfold lastRaw.
      apply (ontWalk_target (fun _ => None) ponPortIndex setter m m1); auto.
      apply Hlit. now left.
    + apply IH; try assumption.
      * intros e He. apply Hlit. now right.
      * destruct Hin as [Hin|Hin]; [simpl in Hin; contradiction|assumption].
      * apply (ontWalk_other (fun _ => None) ponPortIndex baseOID setter m m1); auto.
        apply Hlit. now left.
Qed.

(** At the end of a collection every returned ONT shows the last value of
    the field's column for its index. *)
Lemma GetONTMetrics_field entries ponPortIndex onts ont :
  entries ≡ₚ ontWalkOIDs ->
  GetONTMetrics c now entries ponPortIndex = Ok onts ->
  In ont onts ->
  In target (map fst ontWalkOIDs) ->
  get ont = shown (lastRaw target (Walk (snmp c) target).1 (ONTIndex ont)).
Proof.
  intros Hperm. unfold GetONTMetrics.
  destruct (foldM (ontWalk c now ponPortIndex) entries ∅) as [m| |] eqn:E;
    simpl; try discriminate.
  intros [= <-] Hont Htarget.
  assert (forall entry, In entry entries -> In entry ontWalkOIDs) as Hlit.
  { intros e He. apply (Permutation_in _ Hperm He). }
  assert (ontInvariant get (lastRaw target (Walk (snmp c) target).1) m) as Hm.
  { apply (ontWalks_target ponPortIndex entries ∅ m); try assumption.
    - apply (Permutation.Permutation_NoDup (Permutation_map fst (Permutation_sym Hperm))).
      repeat (apply List.NoDup_cons; [vm_compute; intuition discriminate|]).
      apply List.NoDup_nil.
    - apply (Permutation_in _ (Permutation_map fst (Permutation_sym Hperm)) Htarget).
    - intros i _. rewrite lookup_empty. reflexivity. }
  destruct (ontWalks_invariant c now entries Hlit ponPortIndex entries ∅ m
              (fun e He => He)) as (Hinv & _ & _); [|assumption|].
  { intros k o Hl. rewrite lookup_empty in Hl. discriminate. }
  apply In_map_values in Hont as [k Hk].
  destruct (Hinv k ont Hk) as (i & -> & (Hi & _ & Hidx & _) & _).
  pose proof (Hm i Hi) as Hg. rewrite Hk in Hg. now rewrite Hidx.
Qed.

End ONTField.

(** C9: every raw optical-power value decoded from a PON-port or ONT
    Tx/Rx power PDU is stored divided by 10 (float64 division of the
    converted integer by 10.0): this is what each of the four power
    closures assigns and what the walk callbacks leave in the record of
    the PDU's index, and at the end of a collection, in whatever order the
    columns were walked, every returned port and ONT shows, in each power
    field, the last raw value its column had for the record's index,
    divided by 10 (and the zero value when the column had none). Raw 25 is
    stored as exactly 2.5 and raw -180 as exactly -18, also at the end of
    the PON-port collection of the test. *)
Theorem optical_power_scaled :
  (forall setter pdu port,
      In (OIDZTEPONPortTxPower, setter) ponWalkOIDs ->
      pon_TxPowerDBm (setter pdu port) = PowerSpec.dBm (pduToInt pdu))
  /\ (forall setter pdu port,
      In (OIDZTEPONPortRxPower, setter) ponWalkOIDs ->
      pon_RxPowerDBm (setter pdu port) = PowerSpec.dBm (pduToInt pdu))
  /\ (forall setter pdu ont,
      In (OIDZTEONTRxPower, setter) ontWalkOIDs ->
      ont_RxPowerDBm (setter pdu ont) = PowerSpec.dBm (pduToInt pdu))
  /\ (forall setter pdu ont,
      In (OIDZTEONTTxPower, setter) ontWalkOIDs ->
      ont_TxPowerDBm (setter pdu ont) = PowerSpec.dBm (pduToInt pdu))
  /\ (forall c now d baseOID setter (ports : gmap Z PONPortMetrics) pdu,
      device c = Some d ->
      In (baseOID, setter) ponWalkOIDs ->
      0 <= extractLastOIDIndex (pdu_Name pdu) baseOID ->
      exists ports' port,
        ponCallback c now baseOID setter ports pdu = Ok ports'
        /\ ports' !! extractLastOIDIndex (pdu_Name pdu) baseOID = Some port
        /\ (baseOID = OIDZTEPONPortTxPower ->
            pon_TxPowerDBm port = PowerSpec.dBm (pduToInt pdu))
        /\ (baseOID = OIDZTEPONPortRxPower ->
            pon_RxPowerDBm port = PowerSpec.dBm (pduToInt pdu)))
  /\ (forall c now d ponPortIndex baseOID setter (onts : gmap string ONTMetrics) pdu,
      device c = Some d ->
      In (baseOID, setter) ontWalkOIDs ->
      0 <= extractLastOIDIndex (pdu_Name pdu) baseOID ->
      baseOID = OIDZTEONTRxPower \/ baseOID = OIDZTEONTTxPower ->
      exists onts' ont,
        ontCallback c now ponPortIndex baseOID setter onts pdu = Ok onts'
        /\ onts' !! Sprintf_d (extractLastOIDIndex (pdu_Name pdu) baseOID) = Some ont
        /\ (baseOID = OIDZTEONTRxPower ->
            ont_RxPowerDBm ont = PowerSpec.dBm (pduToInt pdu))
        /\ (baseOID = OIDZTEONTTxPower ->
            ont_TxPowerDBm ont = PowerSpec.dBm (pduToInt pdu)))
  /\ (forall c now entries ports port,
      entries ≡ₚ ponWalkOIDs ->
      GetPONPortMetrics c now entries = Ok ports ->
      In port ports ->
      pon_TxPowerDBm port
      = PowerSpec.shown (PowerSpec.lastRaw OIDZTEPONPortTxPower
                           (Walk (snmp c) OIDZTEPONPortTxPower).1 (PortIndex port))
      /\ pon_RxPowerDBm port
         = PowerSpec.shown (PowerSpec.lastRaw OIDZTEPONPortRxPower
                              (Walk (snmp c) OIDZTEPONPortRxPower).1 (PortIndex port)))
  /\ (forall c now entries ponPortIndex onts ont,
      entries ≡ₚ ontWalkOIDs ->
      GetONTMetrics c now entries ponPortIndex = Ok onts ->
      In ont onts ->
      ont_RxPowerDBm ont
      = PowerSpec.shown (PowerSpec.lastRaw OIDZTEONTRxPower
                           (Walk (snmp c) OIDZTEONTRxPower).1 (ONTIndex ont))
      /\ ont_TxPowerDBm ont
         = PowerSpec.shown (PowerSpec.lastRaw OIDZTEONTTxPower
                              (Walk (snmp c) OIDZTEONTTxPower).1 (ONTIndex ont)))
  /\ represents (PowerSpec.dBm 25) 5 2
  /\ represents (PowerSpec.dBm (-180)) (-18) 1
  /\ (forall now,
      exists ports port,
        GetPONPortMetrics PowerSpec.ponClient now ponWalkOIDs = Ok ports
        /\ In port ports /\ PortIndex port = 1
        /\ represents (pon_TxPowerDBm port) 5 2
        /\ represents (pon_RxPowerDBm port) (-18) 1).
Proof.
  split; [exact pon_tx_setter|]. split; [exact pon_rx_setter|].
  split; [exact ont_rx_setter|]. split; [exact ont_tx_setter|].
  split; [|split; [|split; [|split; [|split; [|split]]]]].
  - intros c now d baseOID setter ports pdu Hd Hin Hi.
    destruct (ponCallback_stores c now d baseOID setter ports pdu Hd Hi)
      as (ports' & port0 & E & El).
    exists ports', (setter pdu port0). repeat split; try assumption.
    + intros ->. now apply pon_tx_setter.
    + intros ->. now apply pon_rx_setter.
  - intros c now d ponPortIndex baseOID setter onts pdu Hd Hin Hi Hb.
    assert (String.eqb baseOID OIDZTEONTSerialNumber = false) as Hs
      by (destruct Hb as [->| ->]; reflexivity).
    destruct (ontCallback_stores c now d ponPortIndex baseOID setter onts pdu Hd Hi Hs)
      as (onts' & ont0 & E & El).
    exists onts', (setter pdu ont0). repeat split; try assumption.
    + intros ->. now apply ont_rx_setter.
    + intros ->. now apply ont_tx_setter.
  - intros c now entries ports port Hperm Hget Hport. split.
    + apply (GetPONPortMetrics_field c now pon_TxPowerDBm OIDZTEPONPortTxPower)
        with (entries := entries) (ports := ports); try assumption.
      * reflexivity.
      * intros baseOID setter pdu p H Hne. simpl in H.
        repeat (destruct H as [H|H];
                [inversion H; subst; first [reflexivity | congruence]|]).
        contradiction.
      * intros setter pdu p. apply pon_tx_setter.
      * vm_compute. tauto.
    + apply (GetPONPortMetrics_field c now pon_RxPowerDBm OIDZTEPONPortRxPower)
        with (entries := entries) (ports := ports); try assumption.
      * reflexivity.
      * intros baseOID setter pdu p H Hne. simpl in H.
        repeat (destruct H as [H|H];
                [inversion H; subst; first [reflexivity | congruence]|]).
        contradiction.
      * intros setter pdu p. apply pon_rx_setter.
      * vm_compute. tauto.
  - intros c now entries ponPortIndex onts ont Hperm Hget Hont. split.
    + apply (GetONTMetrics_field c now ont_RxPowerDBm OIDZTEONTRxPower)
        with (entries := entries) (ponPortIndex := ponPortIndex) (onts := onts);
        try assumption.
      * reflexivity.
      * intros baseOID setter pdu o H Hne. simpl in H.
        repeat (destruct H as [H|H];
                [inversion H; subst; first [reflexivity | congruence]|]).
        contradiction.
      * intros setter pdu o. apply ont_rx_setter.
      * reflexivity.
      * vm_compute. tauto.
    + apply (GetONTMetrics_field c now ont_TxPowerDBm OIDZTEONTTxPower)
        with (entries := entries) (ponPortIndex := ponPortIndex) (onts := onts);
        try assumption.
      * reflexivity.
      * intros baseOID setter pdu o H Hne. simpl in H.
        repeat (destruct H as [H|H];
                [inversion H; subst; first [reflexivity | congruence]|]).
        contradiction.
      * intros setter pdu o. apply ont_tx_setter.
      * reflexivity.
      * vm_compute. tauto.
  - eexists _, _. vm_compute. repeat split; reflexivity.
  - eexists _, _. vm_compute. repeat split; reflexivity.
  - intros now. eexists _, _. split; [vm_compute; reflexivity|].
    split; [right; left; reflexivity|]. split; [reflexivity|].
    split; eexists _, _; vm_compute; repeat split; reflexivity.
Qed.

(** The first part, on the Tx-power closure and a PDU of value 25. *)
Lemma optical_power_scaled_witness :
  pon_TxPowerDBm
    (set_pon_TxPowerDBm (fdiv (float64_of_int (pduToInt (pduInt "x.1" 25))) snmpPowerScale)
       {| pon_DeviceID := ""; pon_Timestamp := 0; PortIndex := 1; AdminStatus := 0;
          OperStatus := 0; pon_TxPowerDBm := fzero; pon_RxPowerDBm := fzero; ONTCount := 0 |})
  = PowerSpec.dBm (pduToInt (pduInt "x.1" 25)).
Proof.
  apply (proj1 optical_power_scaled
           (fun pdu port =>
              set_pon_TxPowerDBm (fdiv (float64_of_int (pduToInt pdu)) snmpPowerScale) port)
           (pduInt "x.1" 25)
           {| pon_DeviceID := ""; pon_Timestamp := 0; PortIndex := 1; AdminStatus := 0;
              OperStatus := 0; pon_TxPowerDBm := fzero; pon_RxPowerDBm := fzero;
              ONTCount := 0 |}).
  right. right. left. reflexivity.
Defined.

(** ** The scheduler *)

Section Scheduler.

Import Bus Collector.

Variable s : Scheduler.

(** The tasks of one loop iteration. *)
Lemma scheduleOne_tasks now i d :
  map Model.task_DeviceID (published_tasks (scheduleOne s now i d))
  = if Model.Enabled d then [Model.ID d] else [].
Proof.
  unfold scheduleOne. destruct (Model.Enabled d); simpl; [|reflexivity].
  destruct (Publish (natsConn s) _ _); reflexivity.
Qed.

(** The loop publishes one task per enabled device of the list it is
    given, in order, and none for a disabled device. *)
Lemma scheduleLoop_tasks now devices :
  map Model.task_DeviceID (published_tasks (concat (imap (scheduleOne s now) devices)))
  = map Model.ID (List.filter Model.Enabled devices).
Proof.
  revert now. induction devices as [|d devices IH]; intros now; [reflexivity|].
  change (imap (scheduleOne s now) (d :: devices))
    with (scheduleOne s now 0%nat d :: imap (scheduleOne s (fun i => now (S i))) devices).
  simpl concat. unfold published_tasks at 1. rewrite omap_app.
  fold (published_tasks (scheduleOne s now 0%nat d)).
  fold (published_tasks (concat (imap (scheduleOne s (fun i => now (S i))) devices))).
  rewrite map_app, scheduleOne_tasks, IH. simpl.
  destruct (Model.Enabled d); reflexivity.
Qed.

(** One tick: a task for every enabled device among those ListDevices
    returned, and for no other. *)
Lemma schedulePolls_tasks now devices total :
  Service.ListDevices (deviceService s) 1 1000 = Ok (devices, total) ->
  map Model.task_DeviceID (published_tasks (schedulePolls s now))
  = map Model.ID (List.filter Model.Enabled devices).
Proof. intros H. unfold schedulePolls. rewrite H. apply scheduleLoop_tasks. Qed.

(** No task is ever published for a device that is not enabled. *)
Lemma schedulePolls_never_disabled now t :
  In t (published_tasks (schedulePolls s now)) ->
  exists devices total d,
    Service.ListDevices (deviceService s) 1 1000 = Ok (devices, total)
    /\ In d devices /\ Model.Enabled d = true /\ Model.task_DeviceID t = Model.ID d.
Proof.
  intros Ht. unfold schedulePolls in *.
  destruct (Service.ListDevices (deviceService s) 1 1000) as [[devices total]|e|msg] eqn:E;
    [|simpl in Ht; contradiction..].
  pose proof (scheduleLoop_tasks now devices) as Hl.
  assert (In (Model.task_DeviceID t) (map Model.ID (List.filter Model.Enabled devices))) as Hin.
  { rewrite <- Hl. now apply in_map. }
  apply in_map_iff in Hin as (d & Hd & Hf). apply filter_In in Hf as [Hf1 Hf2].
  exists devices, total, d. auto.
Qed.

End Scheduler.

(** A page size above 100 is replaced by 20: asked for 1000 devices,
    ListDevices returns the first 20 rows at most. *)
Lemma ListDevices_page_clamped (rows : list Model.Device) :
  Service.ListDevices (Service.NewDeviceService (Repository.tableDB rows)) 1 1000
  = Ok (take 20 rows, Z.of_nat (length rows)).
Proof. reflexivity. Qed.

(** With the service and the repository wired as in the collector, a tick
    never publishes more than 20 tasks. *)
Lemma schedulePolls_at_most_20 (rows : list Model.Device) (conn : Bus.Conn) (now : nat -> Time) :
  (length (Collector.published_tasks
             (Collector.schedulePolls
                {| Collector.deviceService := Service.NewDeviceService (Repository.tableDB rows);
                   Collector.natsConn := conn |} now)) <= 20)%nat.
Proof.
  rewrite <- (length_map Model.task_DeviceID).
  rewrite (schedulePolls_tasks _ now (take 20 rows) (Z.of_nat (length rows)))
    by apply ListDevices_page_clamped.
  rewrite length_map.
  etransitivity; [apply List.filter_length_le|]. rewrite length_take. lia.
Qed.

(** C4, at the input where the code departs from it: the registry holds
    21 devices, all enabled; one tick publishes 20 poll tasks, for dev-1 to
    dev-20, and none for dev-21. *)
Theorem schedulePolls_misses_device (now : nat -> Time) :
  length SchedulerFixtures.registry21 = 21%nat
  /\ Forall (fun d => Model.Enabled d = true) SchedulerFixtures.registry21
  /\ In "dev-21" (map Model.ID SchedulerFixtures.registry21)
  /\ length (Collector.published_tasks
               (Collector.schedulePolls SchedulerFixtures.scheduler21 now)) = 20%nat
  /\ ~ In "dev-21"
         (map Model.task_DeviceID
            (Collector.published_tasks
               (Collector.schedulePolls SchedulerFixtures.scheduler21 now))).
Proof.
  split; [reflexivity|]. split; [repeat constructor|].
  split; [vm_compute; tauto|].
  assert (map Model.task_DeviceID
            (Collector.published_tasks
               (Collector.schedulePolls SchedulerFixtures.scheduler21 now))
          = map Model.ID (take 20 SchedulerFixtures.registry21)) as E.
  { rewrite (schedulePolls_tasks _ now (take 20 SchedulerFixtures.registry21) 21)
      by reflexivity.
    reflexivity. }
  split.
  - rewrite <- (length_map Model.task_DeviceID), E. reflexivity.
  - rewrite E. vm_compute. intros H.
    repeat (destruct H as [H|H]; [discriminate H|]). exact H.
Qed.

(** ** The worker *)

Section WorkerFacts.

Import Bus Worker WorkerSpec.

(** Copying the adapter's metrics into the value map gives their union,
    the adapter's entries taking precedence. *)
Lemma copyInto_union (metrics values : gmap string any) :
  copyInto metrics values = metrics ∪ values.
Proof.
  unfold copyInto.
  apply (map_fold_weak_ind (fun r m => r = m ∪ values)).
  - now rewrite (left_id_L ∅ (∪)).
  - intros k v m r _ ->. now rewrite insert_union_l.
Qed.

(** A run, event by event: the point is written, a failure of that is
    logged, the Metric is published, a failure of that is logged. *)
Lemma processTask_events (w : World) (task : Model.PollTask) :
  processTask w task
  = EvWritePoint (pointOf w task) :: writeLog w task
    ++ EvPublish "nms.metrics" (MsgMetric (metricOf w task)) :: publishLog w task.
Proof.
  unfold processTask, writeLog, publishLog, pointOf, metricOf, rttMs, adapterMetrics,
    reached, Ping.
  destruct (String.eqb (Model.task_Protocol task) "mikrotik_api").
  - destruct (FetchSystemResources w _ _ _) as [fm fok].
    destruct (runPing w _) as [elapsed [|]]; reflexivity.
  - destruct (runPing w _) as [elapsed [|]]; reflexivity.
Qed.

Lemma written_points_run (w : World) (task : Model.PollTask) :
  written_points (processTask w task) = [pointOf w task].
Proof.
  rewrite processTask_events. unfold written_points, writeLog, publishLog. simpl.
  rewrite omap_app. simpl.
  destruct (WritePoint w _); destruct (Publish _ _ _); reflexivity.
Qed.

Lemma published_metrics_run (w : World) (task : Model.PollTask) :
  published_metrics (processTask w task) = [metricOf w task].
Proof.
  rewrite processTask_events. unfold published_metrics, writeLog, publishLog. simpl.
  rewrite omap_app. simpl.
  destruct (WritePoint w _); destruct (Publish _ _ _); reflexivity.
Qed.

(** The Metric's values: the adapter's fields, then the point's fields
    without the poll duration. *)
Lemma metricOf_values (w : World) (task : Model.PollTask) :
  Model.metric_Values (metricOf w task)
  = adapterMetrics w task ∪ delete "poll_duration_ms" (fields (pointOf w task)).
Proof.
  unfold metricOf, pointOf. simpl. rewrite copyInto_union. reflexivity.
Qed.

End WorkerFacts.



(** ** The alert engine *)

Section AlertFacts.

Import Bus Alert AlertSpec.

Variable format_2f : float64 -> string.

(** [toFloat] coerces exactly the values the specification names. *)
Lemma toFloat_coerced (val : any) :
  toFloat val = match coerced val with
                | Some floatVal => (floatVal, true)
                | None => (fzero, false)
                end.
Proof. destruct val as [| | | | | |[|]| | |]; reflexivity. Qed.

(** The switch applies the comparison the operator stands for. *)
Lemma triggered_compare (op : Op) (value threshold : float64) :
  triggered (opString op) value threshold = compare op value threshold.
Proof. destruct op; reflexivity. Qed.

(** Any other operator string never triggers. *)
Lemma triggered_unknown (operator : string) (value threshold : float64) :
  (forall op, operator <> opString op) ->
  triggered operator value threshold = false.
Proof.
  intros H. unfold triggered.
  destruct (String.eqb operator ">") eqn:E1; [apply String.eqb_eq in E1; now destruct (H OpGt)|].
  destruct (String.eqb operator "<") eqn:E2; [apply String.eqb_eq in E2; now destruct (H OpLt)|].
  destruct (String.eqb operator "=") eqn:E3; [apply String.eqb_eq in E3; now destruct (H OpEq)|].
  destruct (String.eqb operator ">=") eqn:E4; [apply String.eqb_eq in E4; now destruct (H OpGe)|].
  destruct (String.eqb operator "<=") eqn:E5; [apply String.eqb_eq in E5; now destruct (H OpLe)|].
  reflexivity.
Qed.

(** The scope test of the loop. *)
Lemma scope_test (rule : Rule) (metric : Model.Metric) :
  negb (String.eqb (rule_DeviceID rule) "")
  && negb (String.eqb (rule_DeviceID rule) (Model.metric_DeviceID metric)) = false
  <-> inScope rule metric.
Proof.
  unfold inScope. rewrite andb_false_iff, !negb_false_iff, !String.eqb_eq. reflexivity.
Qed.

(** One rule in scope, on a value that is present and coerced: the
    notifier is called once when the rule triggers, and not at all
    otherwise. *)
Lemma evaluateRule_sends (metric : Model.Metric) (rule : Rule) (val : any) (floatVal : float64) :
  inScope rule metric ->
  Model.metric_Values metric !! MetricName rule = Some val ->
  coerced val = Some floatVal ->
  sends (evaluateRule format_2f metric rule)
  = if triggered (Operator rule) floatVal (Threshold rule)
    then [("admin@example.com", "NMS Alert: " ++ rule_Description rule,
           "ALERT [" ++ Severity rule ++ "]: Device " ++ Model.metric_DeviceName metric
           ++ " (" ++ Model.metric_IPAddress metric ++ ") - " ++ rule_Description rule
           ++ " (Value: " ++ format_2f floatVal ++ ")")]
    else [].
Proof.
  intros Hs Hv Hc. unfold evaluateRule.
  apply scope_test in Hs. rewrite Hs, Hv, toFloat_coerced, Hc. simpl.
  destruct (triggered _ _ _); reflexivity.
Qed.

(** A rule out of scope, or whose value is absent or not coerced, is
    skipped. *)
Lemma evaluateRule_skips (metric : Model.Metric) (rule : Rule) :
  ~ inScope rule metric
  \/ Model.metric_Values metric !! MetricName rule = None
  \/ (exists val, Model.metric_Values metric !! MetricName rule = Some val
                  /\ coerced val = None) ->
  evaluateRule format_2f metric rule = [].
Proof.
  unfold evaluateRule. intros [Hs|[Hv|(val & Hv & Hc)]].
  - destruct (_ && _) eqn:E; [reflexivity|]. apply scope_test in E. contradiction.
  - rewrite Hv. now destruct (_ && _).
  - rewrite Hv, toFloat_coerced, Hc. now destruct (_ && _).
Qed.

(** The notifier calls of a run are those of its rules, rule by rule. *)
Lemma evaluate_sends (rules : list Rule) (metric : Model.Metric) :
  sends (evaluate format_2f rules metric)
  = concat (map (fun rule => sends (evaluateRule format_2f metric rule)) rules).
Proof.
  unfold evaluate. induction rules as [|rule rules IH]; [reflexivity|].
  simpl. unfold sends at 1. rewrite omap_app.
  fold (sends (evaluateRule format_2f metric rule)).
  fold (sends (concat (map (evaluateRule format_2f metric) rules))).
  now rewrite IH.
Qed.

End AlertFacts.

(** C5: for every Metric and every rule whose device scope is empty or
    names the Metric's device and whose value is present, the value is
    coerced to float64 (a float64 as it is, an int converted, true to 1.0
    and false to 0.0), the rule's operator, one of the five, is applied
    against the threshold, and the notifier is called exactly once for
    that Metric and rule when the comparison holds and not at all when it
    does not; the calls of a run are those of its rules, one after the
    other. With the built-in rules, rtt_ms = 150.0 fires the latency rule
    once and nothing else, and success = false fires the device-down
    rule. *)
Theorem evaluate_notifies_once (format_2f : float64 -> string) :
  (forall rules metric,
      Alert.sends (Alert.evaluate format_2f rules metric)
      = concat (map (fun rule => Alert.sends (Alert.evaluateRule format_2f metric rule)) rules))
  /\ (forall metric rule val floatVal op,
      AlertSpec.inScope rule metric ->
      Model.metric_Values metric !! Alert.MetricName rule = Some val ->
      AlertSpec.coerced val = Some floatVal ->
      Alert.Operator rule = AlertSpec.opString op ->
      Alert.toFloat val = (floatVal, true)
      /\ (AlertSpec.compare op floatVal (Alert.Threshold rule) = true ->
          exists body,
            Alert.sends (Alert.evaluateRule format_2f metric rule)
            = [("admin@example.com", "NMS Alert: " ++ Alert.rule_Description rule, body)])
      /\ (AlertSpec.compare op floatVal (Alert.Threshold rule) = false ->
          Alert.sends (Alert.evaluateRule format_2f metric rule) = []))
  /\ (forall metric rule,
      Model.metric_Values metric !! Alert.MetricName rule = None ->
      Alert.evaluateRule format_2f metric rule = [])
  /\ length (Alert.sends (Alert.evaluate format_2f Alert.defaultRules AlertSpec.highLatency))
     = 1%nat
  /\ map (fun call => call.1.2)
       (Alert.sends (Alert.evaluate format_2f Alert.defaultRules AlertSpec.highLatency))
     = ["NMS Alert: High Latency (>100ms)"]
  /\ map (fun call => call.1.2)
       (Alert.sends (Alert.evaluate format_2f Alert.defaultRules AlertSpec.deviceDown))
     = ["NMS Alert: Device Down"]
  /\ Alert.toFloat (ABool false) = (fzero, true)
  /\ Alert.toFloat (ABool true) = (float64_of_int 1, true).
Proof.
  split; [apply evaluate_sends|]. split; [|split].
  - intros metric rule val floatVal op Hs Hv Hc Hop.
    split; [now rewrite toFloat_coerced, Hc|].
    rewrite (evaluateRule_sends format_2f metric rule val floatVal Hs Hv Hc).
    rewrite Hop, triggered_compare.
    split; intros ->; eauto.
  - intros metric rule Hv. apply evaluateRule_skips. auto.
  - repeat split; reflexivity.
Qed.

(** The second part, on the latency rule and the high-latency Metric. *)
Lemma evaluate_notifies_once_witness :
  Alert.toFloat (AFloat64 (float64_of_int 150)) = (float64_of_int 150, true)
  /\ (AlertSpec.compare AlertSpec.OpGt (float64_of_int 150) (float64_of_int 100) = true ->
      exists body,
        Alert.sends
          (Alert.evaluateRule (fun _ => "150.00") AlertSpec.highLatency
             {| Alert.rule_ID := "rule-1"; Alert.rule_DeviceID := "";
                Alert.MetricName := "rtt_ms"; Alert.Operator := ">";
                Alert.Threshold := float64_of_int 100;
                Alert.rule_Description := "High Latency (>100ms)";
                Alert.Severity := "warning" |})
        = [("admin@example.com", "NMS Alert: " ++ "High Latency (>100ms)", body)])
  /\ (AlertSpec.compare AlertSpec.OpGt (float64_of_int 150) (float64_of_int 100) = false ->
      Alert.sends
        (Alert.evaluateRule (fun _ => "150.00") AlertSpec.highLatency
           {| Alert.rule_ID := "rule-1"; Alert.rule_DeviceID := "";
              Alert.MetricName := "rtt_ms"; Alert.Operator := ">";
              Alert.Threshold := float64_of_int 100;
              Alert.rule_Description := "High Latency (>100ms)";
              Alert.Severity := "warning" |})
      = []).
Proof.
  apply (proj1 (proj2 (evaluate_notifies_once (fun _ => "150.00"))) AlertSpec.highLatency
           {| Alert.rule_ID := "rule-1"; Alert.rule_DeviceID := "";
              Alert.MetricName := "rtt_ms"; Alert.Operator := ">";
              Alert.Threshold := float64_of_int 100;
              Alert.rule_Description := "High Latency (>100ms)";
              Alert.Severity := "warning" |}
           (AFloat64 (float64_of_int 150)) (float64_of_int 150) AlertSpec.OpGt).
  - left. reflexivity.
  - reflexivity.
  - reflexivity.
  - reflexivity.
Defined.

(* ===================================================================== *)
(** * Further properties                                                  *)
(* ===================================================================== *)

(** ** Printing and scanning integers *)

Section Numerals.

(** The digits of a decimal numeral, as printed, are digits. *)
Lemma string_of_uint_digits (d : Decimal.uint) :
  all_bytes is_digit (DecimalString.NilEmpty.string_of_uint d) = true.
Proof. induction d; simpl; auto. Qed.

(** Their value, read with an accumulator. *)
Lemma decimal_value_of_uint_acc (d : Decimal.uint) (acc : positive) :
  decimal_value (Z.pos acc) (DecimalString.NilEmpty.string_of_uint d)
  = Z.pos (Pos.of_uint_acc d acc).
Proof.
  revert acc. induction d; intros acc; simpl; [reflexivity|..];
    match goal with
    | |- decimal_value ?a _ = Z.pos (Pos.of_uint_acc _ ?b) =>
        replace a with (Z.pos b) by (unfold byte_of; simpl; lia); apply IHd
    end.
Qed.

Lemma decimal_value_of_uint (d : Decimal.uint) :
  decimal_value 0 (DecimalString.NilEmpty.string_of_uint d) = Z.of_N (Pos.of_uint d).
Proof.
  induction d; simpl; [reflexivity| |..].
  - exact IHd.
  - apply (decimal_value_of_uint_acc d 1).
  - apply (decimal_value_of_uint_acc d 2).
  - apply (decimal_value_of_uint_acc d 3).
  - apply (decimal_value_of_uint_acc d 4).
  - apply (decimal_value_of_uint_acc d 5).
  - apply (decimal_value_of_uint_acc d 6).
  - apply (decimal_value_of_uint_acc d 7).
  - apply (decimal_value_of_uint_acc d 8).
  - apply (decimal_value_of_uint_acc d 9).
Qed.

(** What [Sprintf_d] prints: a minus sign for a negative number, then
    at least one digit, the digits of the absolute value. *)
Lemma Sprintf_d_shape (n : Z) :
  exists ds,
    Sprintf_d n = (if n <? 0 then String "-" ds else ds)
    /\ ds <> EmptyString
    /\ all_bytes is_digit ds = true
    /\ decimal_value 0 ds = Z.abs n.
Proof.
  destruct n as [|p|p]; unfold Sprintf_d; simpl.
  - exists "0". repeat split; discriminate.
  - exists (DecimalString.NilEmpty.string_of_uint (Pos.to_uint p)).
    pose proof (DecimalPos.Unsigned.to_uint_nonnil p) as Hnn.
    split; [destruct (Pos.to_uint p); [contradiction|reflexivity..]|].
    split; [destruct (Pos.to_uint p); [contradiction|discriminate..]|].
    split; [apply string_of_uint_digits|].
    rewrite decimal_value_of_uint, DecimalPos.Unsigned.of_to. reflexivity.
  - exists (DecimalString.NilEmpty.string_of_uint (Pos.to_uint p)).
    pose proof (DecimalPos.Unsigned.to_uint_nonnil p) as Hnn.
    split; [destruct (Pos.to_uint p); [contradiction|reflexivity..]|].
    split; [destruct (Pos.to_uint p); [contradiction|discriminate..]|].
    split; [apply string_of_uint_digits|].
    rewrite decimal_value_of_uint, DecimalPos.Unsigned.of_to. reflexivity.
Qed.

(** A printed integer is a numeral whose value is the integer. *)
Lemma Sprintf_d_integer (n : Z) :
  Spec.isInteger (Sprintf_d n) = true /\ Spec.integerValue (Sprintf_d n) = n.
Proof.
  destruct (Sprintf_d_shape n) as (ds & E & Hne & Hd & Hv). rewrite E.
  destruct (n <? 0) eqn:Hn.
  - apply Z.ltb_lt in Hn. unfold Spec.isInteger, Spec.integerValue.
    change (is_sign "-") with true. cbv iota.
    change (byte_of "-" =? 45) with true. cbv iota.
    rewrite Hd, Hv. split; [|lia].
    destruct ds; [congruence|reflexivity].
  - apply Z.ltb_ge in Hn. destruct ds as [|c ds]; [congruence|].
    pose proof Hd as Hd'. simpl in Hd'. apply andb_true_iff in Hd' as [Hc _].
    unfold Spec.isInteger, Spec.integerValue.
    rewrite (is_digit_not_sign c Hc), Hd, Hv. split; [reflexivity|lia].
Qed.

(** Scanning what was printed gives the integer back. *)
Lemma Sscanf_d_Sprintf_d (n : Z) :
  in_int64 n = true -> Sscanf_d (Sprintf_d n) = Some n.
Proof.
  intros Hr. destruct (Sprintf_d_integer n) as [Hi Hv].
  rewrite (Sscanf_d_integer _ Hi); rewrite Hv; [reflexivity|assumption].
Qed.

(** A printed integer contains no dot. *)
Lemma Sprintf_d_no_dot (n : Z) :
  all_bytes (fun c => negb (Ascii.eqb c ".")) (Sprintf_d n) = true.
Proof.
  assert (forall ds, all_bytes is_digit ds = true ->
                     all_bytes (fun c => negb (Ascii.eqb c ".")) ds = true) as H.
  { induction ds as [|c ds IH]; simpl; [reflexivity|].
    intros Hd. apply andb_true_iff in Hd as [Hc Hd]. rewrite (IH Hd), andb_true_r.
    destruct (Ascii.eqb_spec c "."); [subst c; discriminate Hc|reflexivity]. }
  destruct (Sprintf_d_shape n) as (ds & E & _ & Hd & _). rewrite E.
  destruct (n <? 0); [simpl|]; now apply H.
Qed.

End Numerals.

(** ** Strings cut at a separator *)

Section SplitFacts.

Lemma append_cons (c : ascii) (s t : string) : String c s ++ t = String c (s ++ t).
Proof. reflexivity. Qed.

Lemma append_assoc (s t u : string) : (s ++ t) ++ u = s ++ (t ++ u).
Proof.
  induction s as [|c s IH]; [reflexivity|].
  rewrite !append_cons. now rewrite IH.
Qed.

Lemma HasPrefix_empty (s : string) : HasPrefix s EmptyString = true.
Proof. now destruct s. Qed.

Lemma HasPrefix_append (p s : string) : HasPrefix (p ++ s) p = true.
Proof.
  induction p as [|c p IH]; [now destruct s|].
  rewrite append_cons. simpl. now rewrite Ascii.eqb_refl.
Qed.

Lemma drop_bytes_append (p s : string) : drop_bytes (String.length p) (p ++ s) = s.
Proof. induction p as [|c p IH]; [reflexivity|]. rewrite append_cons. exact IH. Qed.

Lemma TrimPrefix_append (p s : string) : TrimPrefix (p ++ s) p = s.
Proof. unfold TrimPrefix. now rewrite HasPrefix_append, drop_bytes_append. Qed.

(** A string without the separator is a single part. *)
Lemma Split_single (d : string) (sep : ascii) :
  all_bytes (fun c => negb (Ascii.eqb c sep)) d = true -> Split d sep = [d].
Proof.
  induction d as [|c d IH]; [reflexivity|]. simpl.
  intros H. apply andb_true_iff in H as [Hc Hd]. apply negb_true_iff in Hc.
  now rewrite Hc, (IH Hd).
Qed.

(** Splitting distributes over a separator. *)
Lemma Split_append (p d : string) (sep : ascii) :
  Split (p ++ String sep d) sep = (Split p sep ++ Split d sep)%list.
Proof.
  induction p as [|c p IH].
  - change (EmptyString ++ String sep d) with (String sep d). simpl.
    now rewrite Ascii.eqb_refl.
  - rewrite append_cons. simpl. rewrite IH.
    destruct (Ascii.eqb c sep); [reflexivity|].
    destruct (Split p sep) as [|h t] eqn:E; [now apply Split_nonempty in E|reflexivity].
Qed.

Lemma Split_append_dot (p d : string) :
  Split (p ++ "." ++ d) "." = (Split p "." ++ Split d ".")%list.
Proof. exact (Split_append p d "."). Qed.

Lemma last_app_cons {A : Type} (l1 : list A) (x : A) (l2 : list A) (d : A) :
  List.last (l1 ++ x :: l2) d = List.last (x :: l2) d.
Proof.
  induction l1 as [|y l1 IH]; [reflexivity|].
  change ((y :: l1) ++ x :: l2)%list with (y :: (l1 ++ x :: l2))%list.
  destruct (l1 ++ x :: l2)%list eqn:E; [now destruct l1|].
  rewrite <- IH. reflexivity.
Qed.

(** The last part of a string that ends with a separator and a string
    without separator is that string. *)
Lemma last_Split_append (p d : string) (sep : ascii) :
  all_bytes (fun c => negb (Ascii.eqb c sep)) d = true ->
  List.last (Split (p ++ String sep d) sep) EmptyString = d.
Proof.
  intros Hd. rewrite Split_append, (Split_single d sep Hd).
  apply last_app_cons.
Qed.

(** The normal forms of an OID made of a non-empty base, a dot and a
    rest, and of the base: one leading dot is gone from both. *)
Lemma normal_forms (base rest : string) :
  base <> EmptyString ->
  TrimPrefix (base ++ "." ++ rest) "." = TrimPrefix base "." ++ "." ++ rest.
Proof.
  intros Hne. destruct base as [|c base]; [congruence|].
  rewrite append_cons. unfold TrimPrefix.
  change (HasPrefix (String c (base ++ "." ++ rest)) ".")
    with (if Ascii.eqb "." c then HasPrefix (base ++ "." ++ rest) "" else false).
  change (HasPrefix (String c base) ".")
    with (if Ascii.eqb "." c then HasPrefix base "" else false).
  rewrite !HasPrefix_empty.
  destruct (Ascii.eqb "." c); reflexivity.
Qed.

Lemma normal_forms_dotted (base rest : string) :
  HasPrefix base "." = false ->
  TrimPrefix ("." ++ base ++ "." ++ rest) "." = TrimPrefix base "." ++ "." ++ rest.
Proof.
  intros H. unfold TrimPrefix at 2. rewrite H.
  apply (TrimPrefix_append "." (base ++ "." ++ rest)).
Qed.

End SplitFacts.

(** ** extractLastOIDIndex and extractTwoLastOIDIndexes on printed indexes *)

Section PrintedIndexes.

Import ZteHelpers.

(** On a normalised OID that is the normalised base, a dot and a rest,
    [extractLastOIDIndex] scans the last component of the rest. *)
Lemma extractLastOIDIndex_rest (oid baseOID rest : string) :
  TrimPrefix oid "." = TrimPrefix baseOID "." ++ "." ++ rest ->
  extractLastOIDIndex oid baseOID
  = match Sscanf_d (Spec.lastComponent rest) with
    | Some index => index
    | None => -1
    end.
Proof.
  intros E.
  assert (TrimPrefix oid "." = (TrimPrefix baseOID "." ++ ".") ++ rest) as E'
    by now rewrite append_assoc.
  rewrite extractLastOIDIndex_prefix by (rewrite E'; apply HasPrefix_append).
  now rewrite E', drop_bytes_append.
Qed.

End PrintedIndexes.

(** X1: [extractLastOIDIndex] gives back an index that was printed with
    "%d" after the base OID and a dot: for every non-empty base and every
    int [n], the OID base.n yields [n]; so does base.mid.n for any text
    [mid] between the base and the last component (only the last
    component counts, so rows that differ in an earlier component share
    one index); and so does the OID with the leading dot gosnmp puts in
    front, when the base has none. *)
Theorem extractLastOIDIndex_round_trip (base mid : string) (n : Z) :
  base <> EmptyString ->
  in_int64 n = true ->
  extractLastOIDIndex (base ++ "." ++ Sprintf_d n) base = n
  /\ extractLastOIDIndex (base ++ "." ++ mid ++ "." ++ Sprintf_d n) base = n
  /\ (HasPrefix base "." = false ->
      extractLastOIDIndex ("." ++ base ++ "." ++ Sprintf_d n) base = n).
Proof.
  intros Hne Hr.
  assert (Spec.lastComponent (Sprintf_d n) = Sprintf_d n) as L1.
  { unfold Spec.lastComponent. now rewrite (Split_single _ _ (Sprintf_d_no_dot n)). }
  assert (Spec.lastComponent (mid ++ "." ++ Sprintf_d n) = Sprintf_d n) as L2.
  { unfold Spec.lastComponent. apply last_Split_append, Sprintf_d_no_dot. }
  split; [|split].
  - rewrite (extractLastOIDIndex_rest _ _ _ (normal_forms base _ Hne)), L1.
    now rewrite Sscanf_d_Sprintf_d.
  - rewrite (extractLastOIDIndex_rest _ _ _ (normal_forms base _ Hne)), L2.
    now rewrite Sscanf_d_Sprintf_d.
  - intros Hd.
    rewrite (extractLastOIDIndex_rest _ _ _ (normal_forms_dotted base _ Hd)), L1.
    now rewrite Sscanf_d_Sprintf_d.
Qed.

(** On the ONT index of the tests, below the ONT status column. *)
Lemma extractLastOIDIndex_round_trip_witness :
  extractLastOIDIndex (OIDZTEONTOperStatus ++ "." ++ Sprintf_d 268435456) OIDZTEONTOperStatus
  = 268435456
  /\ extractLastOIDIndex (OIDZTEONTOperStatus ++ "." ++ "16.3" ++ "." ++ Sprintf_d 268435456)
       OIDZTEONTOperStatus = 268435456
  /\ (HasPrefix OIDZTEONTOperStatus "." = false ->
      extractLastOIDIndex ("." ++ OIDZTEONTOperStatus ++ "." ++ Sprintf_d 268435456)
        OIDZTEONTOperStatus = 268435456).
Proof.
  apply (extractLastOIDIndex_round_trip OIDZTEONTOperStatus "16.3" 268435456).
  - discriminate.
  - reflexivity.
Defined.

Section TwoIndexes.

Import ZteHelpers.

Lemma last_nth {A : Type} (l : list A) (d : A) :
  List.last l d = nth (length l - 1) l d.
Proof.
  induction l as [|x l IH]; [reflexivity|].
  destruct l as [|y l]; [reflexivity|].
  change (List.last (x :: y :: l) d) with (List.last (y :: l) d).
  rewrite IH. simpl. now rewrite Nat.sub_0_r.
Qed.

(** Both functions cut the same suffix off the OID. *)
Lemma extractTwoLastOIDIndexes_rest (oid baseOID rest : string) :
  TrimPrefix oid "." = TrimPrefix baseOID "." ++ "." ++ rest ->
  extractTwoLastOIDIndexes oid baseOID
  = let parts := Split rest "." in
    if (length parts <? 2)%nat then (-1, -1)
    else
      match Sscanf_d (nth (length parts - 2) parts EmptyString) with
      | None => (-1, -1)
      | Some first =>
          match Sscanf_d (nth (length parts - 1) parts EmptyString) with
          | None => (-1, -1)
          | Some second => (first, second)
          end
      end.
Proof.
  intros E.
  assert (TrimPrefix oid "." = (TrimPrefix baseOID "." ++ ".") ++ rest) as E'
    by now rewrite append_assoc.
  unfold extractTwoLastOIDIndexes. cbv zeta.
  rewrite E', TrimPrefix_append.
  rewrite eqb_length_ne; [reflexivity|].
  rewrite !length_append. simpl. lia.
Qed.

End TwoIndexes.

(** X2: whenever [extractTwoLastOIDIndexes] returns something other than
    its failure value (-1, -1), the second index it returns is the index
    [extractLastOIDIndex] returns for the same OID and base. *)
Theorem extractTwoLastOIDIndexes_second (oid baseOID : string) (first second : Z) :
  ZteHelpers.extractTwoLastOIDIndexes oid baseOID = (first, second) ->
  (first, second) <> (-1, -1) ->
  extractLastOIDIndex oid baseOID = second.
Proof.
  unfold ZteHelpers.extractTwoLastOIDIndexes, extractLastOIDIndex. cbv zeta.
  destruct (String.eqb _ (TrimPrefix oid ".")); [congruence|].
  match goal with |- context [Split ?s "."] => generalize (Split s ".") end.
  intros parts.
  destruct (length parts <? 2)%nat eqn:E2; [congruence|].
  apply Nat.ltb_ge in E2.
  destruct (length parts =? 0)%nat eqn:E0; [apply Nat.eqb_eq in E0; lia|].
  rewrite last_nth.
  destruct (Sscanf_d (nth (length parts - 2) parts EmptyString)); [|congruence].
  destruct (Sscanf_d (nth (length parts - 1) parts EmptyString)); congruence.
Qed.

(** On a two-level ONT index below the ONT status column. *)
Lemma extractTwoLastOIDIndexes_second_witness :
  extractLastOIDIndex (OIDZTEONTOperStatus ++ ".2.5") OIDZTEONTOperStatus = 5.
Proof.
  apply (extractTwoLastOIDIndexes_second (OIDZTEONTOperStatus ++ ".2.5")
           OIDZTEONTOperStatus 2 5).
  - reflexivity.
  - discriminate.
Defined.

(** X3: [extractTwoLastOIDIndexes] gives back two indexes that were
    printed with "%d" after the base OID: for every non-empty base and
    all ints [first] and [second], the OID base.first.second yields
    (first, second), also with further text between the base and the two
    components; an OID with a single component after the base yields the
    failure value (-1, -1). *)
Theorem extractTwoLastOIDIndexes_round_trip (base mid : string) (first second : Z) :
  base <> EmptyString ->
  in_int64 first = true ->
  in_int64 second = true ->
  ZteHelpers.extractTwoLastOIDIndexes
    (base ++ "." ++ Sprintf_d first ++ "." ++ Sprintf_d second) base = (first, second)
  /\ ZteHelpers.extractTwoLastOIDIndexes
       (base ++ "." ++ mid ++ "." ++ Sprintf_d first ++ "." ++ Sprintf_d second) base
     = (first, second)
  /\ ZteHelpers.extractTwoLastOIDIndexes (base ++ "." ++ Sprintf_d second) base = (-1, -1).
Proof.
  intros Hne H1 H2.
  assert (Split (Sprintf_d first ++ "." ++ Sprintf_d second) "."
          = [Sprintf_d first; Sprintf_d second]) as S2.
  { rewrite Split_append_dot, !Split_single by apply Sprintf_d_no_dot. reflexivity. }
  split; [|split].
  - rewrite (extractTwoLastOIDIndexes_rest _ _ _ (normal_forms base _ Hne)), S2.
    simpl. now rewrite !Sscanf_d_Sprintf_d.
  - rewrite (extractTwoLastOIDIndexes_rest _ _ _ (normal_forms base _ Hne)).
    rewrite Split_append_dot, S2. cbv zeta.
    rewrite length_app. simpl length.
    replace (length (Split mid ".") + 2 <? 2)%nat with false
      by (symmetry; apply Nat.ltb_ge; lia).
    replace (length (Split mid ".") + 2 - 2)%nat with (length (Split mid ".") + 0)%nat by lia.
    replace (length (Split mid ".") + 2 - 1)%nat with (length (Split mid ".") + 1)%nat by lia.
    rewrite !app_nth2_plus. simpl. now rewrite !Sscanf_d_Sprintf_d.
  - rewrite (extractTwoLastOIDIndexes_rest _ _ _ (normal_forms base _ Hne)).
    rewrite Split_single by apply Sprintf_d_no_dot. reflexivity.
Qed.

(** On slot 2, ONT 5, with and without a shelf number before them. *)
Lemma extractTwoLastOIDIndexes_round_trip_witness :
  ZteHelpers.extractTwoLastOIDIndexes
    (OIDZTEONTOperStatus ++ "." ++ Sprintf_d 2 ++ "." ++ Sprintf_d 5) OIDZTEONTOperStatus
  = (2, 5)
  /\ ZteHelpers.extractTwoLastOIDIndexes
       (OIDZTEONTOperStatus ++ "." ++ "1" ++ "." ++ Sprintf_d 2 ++ "." ++ Sprintf_d 5)
       OIDZTEONTOperStatus
     = (2, 5)
  /\ ZteHelpers.extractTwoLastOIDIndexes (OIDZTEONTOperStatus ++ "." ++ Sprintf_d 5)
       OIDZTEONTOperStatus = (-1, -1).
Proof.
  apply (extractTwoLastOIDIndexes_round_trip OIDZTEONTOperStatus "1" 2 5).
  - discriminate.
  - reflexivity.
  - reflexivity.
Defined.

(** ** formatSerialNumber *)

Section SerialNumbers.

Import GoStrings ZteHelpers SerialSpec.

Lemma byte_of_range (c : ascii) : 0 <= byte_of c < 256.
Proof.
  unfold byte_of. pose proof (N_ascii_bounded c) as H. lia.
Qed.

Lemma byte_of_inj (c d : ascii) : byte_of c = byte_of d -> c = d.
Proof.
  unfold byte_of. intros H. apply N2Z.inj in H.
  rewrite <- (ascii_N_embedding c), <- (ascii_N_embedding d). now rewrite H.
Qed.

Lemma byte_of_hex_digit (n : Z) :
  0 <= n < 16 -> byte_of (hex_digit n) = if n <? 10 then 48 + n else 55 + n.
Proof.
  intros H. unfold hex_digit, byte_of.
  rewrite N_ascii_embedding by (destruct (n <? 10); lia).
  destruct (n <? 10); lia.
Qed.

Lemma hex_digit_inj (a b : Z) :
  0 <= a < 16 -> 0 <= b < 16 -> hex_digit a = hex_digit b -> a = b.
Proof.
  intros Ha Hb E. apply (f_equal byte_of) in E.
  rewrite !byte_of_hex_digit in E by assumption.
  destruct (a <? 10) eqn:Ea, (b <? 10) eqn:Eb;
    try apply Z.ltb_lt in Ea; try apply Z.ltb_ge in Ea;
    try apply Z.ltb_lt in Eb; try apply Z.ltb_ge in Eb; lia.
Qed.

(** Upper-case hexadecimal of bytes can be read back. *)
Lemma Sprintf_X_bytes_inj (b1 b2 : string) :
  Sprintf_X_bytes b1 = Sprintf_X_bytes b2 -> b1 = b2.
Proof.
  revert b2. induction b1 as [|c b1 IH]; intros [|d b2] E; simpl in E;
    try reflexivity; try discriminate.
  injection E as Eh El E.
  pose proof (byte_of_range c) as Hc. pose proof (byte_of_range d) as Hd.
  apply hex_digit_inj in Eh; [|split; [apply Z.div_pos|apply Z.div_lt_upper_bound]; lia..].
  apply hex_digit_inj in El; [|apply Z.mod_pos_bound; lia..].
  assert (byte_of c = byte_of d) as Ecd.
  { rewrite (Z.div_mod (byte_of c) 16), (Z.div_mod (byte_of d) 16) by lia. congruence. }
  apply byte_of_inj in Ecd. subst d. now rewrite (IH b2 E).
Qed.

Lemma Sprintf_X_bytes_length (b : string) :
  String.length (Sprintf_X_bytes b) = (2 * String.length b)%nat.
Proof. induction b as [|c b IH]; simpl; [reflexivity|]. rewrite IH. lia. Qed.

Lemma take_drop_bytes (n : nat) (s : string) : take_bytes n s ++ drop_bytes n s = s.
Proof.
  revert s. induction n as [|n IH]; intros [|c s]; simpl; try reflexivity.
  rewrite append_cons. now rewrite IH.
Qed.

Lemma append_inj_length (p1 p2 s1 s2 : string) :
  String.length p1 = String.length p2 -> p1 ++ s1 = p2 ++ s2 -> p1 = p2 /\ s1 = s2.
Proof.
  revert p2. induction p1 as [|c p1 IH]; intros [|d p2] Hl E; try discriminate Hl.
  - now split.
  - rewrite !append_cons in E. injection E as -> E.
    injection Hl as Hl. destruct (IH p2 Hl E) as [-> ->]. now split.
Qed.

(** With a full vendor code the result is the code itself followed by
    the hexadecimal rendering of the other bytes. *)
Lemma formatSerialNumber_full (raw : string) :
  fullVendor raw = true ->
  String.length (take_bytes 4 raw) = 4%nat
  /\ formatSerialNumber raw = take_bytes 4 raw ++ Sprintf_X_bytes (drop_bytes 4 raw).
Proof.
  unfold fullVendor, formatSerialNumber.
  destruct raw as [|c1 [|c2 [|c3 [|c4 rest]]]]; try discriminate.
  change (drop_bytes 3 (String c1 (String c2 (String c3 (String c4 rest)))))
    with (String c4 rest).
  intros H. apply negb_true_iff, Z.eqb_neq in H.
  split; [reflexivity|].
  change (String.length (String c1 (String c2 (String c3 (String c4 rest)))))
    with (S (S (S (S (String.length rest))))).
  change (S (S (S (S (String.length rest)))) =? 0)%nat with false.
  change (4 <=? S (S (S (S (String.length rest)))))%nat with true.
  cbv iota zeta. f_equal.
  change (take_bytes 4 (String c1 (String c2 (String c3 (String c4 rest)))))
    with (String c1 (String c2 (String c3 (String c4 EmptyString)))).
  unfold TrimRight.
  remember (in_cutset (String (ascii_of_nat 0) EmptyString)) as cut eqn:Ecut.
  assert (cut c4 = false) as Hc.
  { subst cut. simpl. rewrite orb_false_r.
    destruct (Ascii.eqb_spec c4 (ascii_of_nat 0)) as [->|]; [|reflexivity].
    now contradiction H. }
  simpl. now rewrite Hc.
Qed.

End SerialNumbers.

(** X4: for a raw serial number with a full vendor code (at least four
    bytes, the fourth not NUL), [formatSerialNumber] returns the four
    vendor bytes as they are, followed by two upper-case hexadecimal
    digits for each further byte, so the result has 4 + 2 * (n - 4) bytes
    for n raw bytes; and on such serial numbers it is injective: two of
    them that are formatted alike are equal. *)
Theorem formatSerialNumber_injective (raw1 raw2 : string) :
  SerialSpec.fullVendor raw1 = true ->
  SerialSpec.fullVendor raw2 = true ->
  (ZteHelpers.formatSerialNumber raw1
   = GoStrings.take_bytes 4 raw1 ++ GoStrings.Sprintf_X_bytes (drop_bytes 4 raw1)
   /\ String.length (ZteHelpers.formatSerialNumber raw1)
      = (4 + 2 * (String.length raw1 - 4))%nat)
  /\ (ZteHelpers.formatSerialNumber raw1 = ZteHelpers.formatSerialNumber raw2 -> raw1 = raw2).
Proof.
  intros H1 H2.
  destruct (formatSerialNumber_full raw1 H1) as [L1 E1].
  destruct (formatSerialNumber_full raw2 H2) as [L2 E2].
  split; [split; [assumption|]|].
  - rewrite E1, length_append, L1, Sprintf_X_bytes_length, drop_bytes_length. reflexivity.
  - rewrite E1, E2. intros E.
    apply append_inj_length in E as [Ev Eh]; [|congruence].
    apply Sprintf_X_bytes_inj in Eh.
    rewrite <- (take_drop_bytes 4 raw1), <- (take_drop_bytes 4 raw2). congruence.
Qed.

(** On the vendor code ZTEG and the bytes 34 56 78. *)
Lemma formatSerialNumber_injective_witness :
  (ZteHelpers.formatSerialNumber "ZTEG4Vx"
   = GoStrings.take_bytes 4 "ZTEG4Vx" ++ GoStrings.Sprintf_X_bytes (drop_bytes 4 "ZTEG4Vx")
   /\ String.length (ZteHelpers.formatSerialNumber "ZTEG4Vx")
      = (4 + 2 * (String.length "ZTEG4Vx" - 4))%nat)
  /\ (ZteHelpers.formatSerialNumber "ZTEG4Vx" = ZteHelpers.formatSerialNumber "ZTEG4Vx" ->
      "ZTEG4Vx" = "ZTEG4Vx").
Proof.
  apply (formatSerialNumber_injective "ZTEG4Vx" "ZTEG4Vx"); reflexivity.
Defined.

(** ** GetSystemMetrics: range of the uptime, provenance of the card values *)

Section UptimeRange.

Import SystemSpec SystemInvariants CardSpec.

Lemma pduToUint32_range (pdu : SnmpPDU) :
  uint32Typed pdu -> 0 <= pduToUint32 pdu < 2 ^ 32.
Proof.
  unfold uint32Typed, pduToUint32, uint32. intros H.
  destruct (pdu_Value pdu); try (apply Z.mod_pos_bound; lia); try lia.
  now apply H.
Qed.

Lemma scalarCase_uptime_range (m m' : OLTSystemMetrics) (pdu : SnmpPDU) :
  uint32Typed pdu ->
  0 <= UptimeSeconds m <= 42949672 ->
  scalarCase m pdu = Ok m' ->
  0 <= UptimeSeconds m' <= 42949672.
Proof.
  intros Ht Hm. apply pduToUint32_range in Ht.
  unfold scalarCase. cbv zeta.
  repeat match goal with
         | |- context [if ?b then _ else _] => destruct b
         | |- context [match pdu_Value pdu with _ => _ end] => destruct (pdu_Value pdu)
         end; intros [= <-]; simpl; try assumption.
  all: unfold int64; rewrite Z.mod_small by lia;
    replace (pduToUint32 pdu + 2 ^ 63 - 2 ^ 63) with (pduToUint32 pdu) by lia;
    rewrite Z.quot_div_nonneg by lia;
    split; [apply Z.div_pos; lia|];
    apply Z.lt_succ_r, Z.div_lt_upper_bound; lia.
Qed.

Lemma scalarLoop_uptime_range (variables : list SnmpPDU) (m m' : OLTSystemMetrics) :
  Forall uint32Typed variables ->
  0 <= UptimeSeconds m <= 42949672 ->
  foldM scalarCase variables m = Ok m' ->
  0 <= UptimeSeconds m' <= 42949672.
Proof.
  intros H. revert m. induction H as [|pdu variables Hp _ IH]; intros m Hm; simpl.
  - now intros [= <-].
  - destruct (scalarCase m pdu) as [m1| |] eqn:E; simpl; try discriminate.
    apply IH. apply (scalarCase_uptime_range m m1 pdu Hp Hm E).
Qed.

End UptimeRange.

(** X5: the uptime GetSystemMetrics reports is never negative and never
    more than 42 949 672 seconds (2^32 hundredths of a second, about 497
    days): whatever variables the agent sends in answer to the GET, and
    in whatever order the walks run, the TimeTicks value is taken modulo
    2^32 before it is divided by 100. *)
Theorem GetSystemMetrics_uptime_bounded
    (oor : float64 -> Z) (c : ZTEOLTClient) (now : Time)
    (entries : list (string * (SnmpPDU -> OLTSystemMetrics -> OLTSystemMetrics)))
    (d : Model.Device) (variables : list SnmpPDU) :
  device c = Some d ->
  Get (snmp c) [OIDSysDescr; OIDSysName; OIDSysUpTime] = (Some variables, None) ->
  Forall SystemSpec.octetsAreBytes variables ->
  Forall CardSpec.uint32Typed variables ->
  entries ≡ₚ systemWalkOIDs ->
  exists m, GetSystemMetrics oor c now entries = Ok m
            /\ 0 <= UptimeSeconds m <= 42949672.
Proof.
  intros Hd Hget Hwt Hty Hperm.
  destruct (GetSystemMetrics_returns oor c now entries d _ Hd Hget Hwt Hperm)
    as (m1 & m2 & E1 & _ & (Hs & _) & Hr).
  exists (usedMemory oor m2). split; [assumption|].
  destruct (usedMemory_fields oor m2) as (Hs' & _).
  unfold SystemSpec.scalarFields in *.
  assert (UptimeSeconds (usedMemory oor m2) = UptimeSeconds m1) as -> by congruence.
  apply (scalarLoop_uptime_range variables (SystemInvariants.freshMetrics d now) m1 Hty);
    [simpl; lia|assumption].
Qed.

(** On an agent whose sysUpTime arrives as the int -1. *)
Lemma GetSystemMetrics_uptime_bounded_witness :
  exists m,
    GetSystemMetrics (fun _ => MinInt64)
      (testClient (mockSNMPClient (Some [pduInt OIDSysUpTime (-1)]) None ∅ None))
      0 systemWalkOIDs = Ok m
    /\ 0 <= UptimeSeconds m <= 42949672.
Proof.
  apply (GetSystemMetrics_uptime_bounded (fun _ => MinInt64)
           (testClient (mockSNMPClient (Some [pduInt OIDSysUpTime (-1)]) None ∅ None))
           0 systemWalkOIDs newTestDevice [pduInt OIDSysUpTime (-1)]).
  - reflexivity.
  - reflexivity.
  - constructor; [|constructor]. intros H. discriminate H.
  - constructor; [|constructor]. intros v H. discriminate H.
  - reflexivity.
Defined.

Section CardValues.

Import SystemSpec SystemInvariants CardSpec.

Variable c : ZTEOLTClient.

Lemma nonneg_fzero : nonnegFloat fzero.
Proof. now left. Qed.

(** One PDU through one closure of the map literal: the invariant is
    kept when the PDU belongs to the closure's column, and the memory
    total does not shrink. *)
Lemma update_cardInvariant entry (pdu : SnmpPDU) (m : OLTSystemMetrics) :
  In entry systemWalkOIDs ->
  In pdu (column c entry.1) ->
  cardInvariant c m ->
  cardInvariant c (entry.2 pdu m)
  /\ MemoryTotalKB m <= MemoryTotalKB (entry.2 pdu m).
Proof.
  unfold cardInvariant. intros Hin Hpdu ((Hc1 & Hc2) & (Ht1 & Ht2) & (Hu1 & Hu2) & Hk).
  simpl in Hin. destruct Hin as [<-|[<-|[<-|[<-|[]]]]]; simpl in *.
  - destruct (fgt _ (CPUUsagePercent m)) eqn:E; simpl; [|repeat split; auto; lia].
    repeat split; auto; try lia.
    + apply (fgt_nonneg _ _ Hc1 E).
    + right. exists pdu. now split.
  - destruct (fgt _ (TemperatureCelsius m)) eqn:E; simpl; [|repeat split; auto; lia].
    repeat split; auto; try lia.
    + apply (fgt_nonneg _ _ Ht1 E).
    + right. exists pdu. now split.
  - destruct (fgt _ (MemoryUsagePercent m)) eqn:E; simpl; [|repeat split; auto; lia].
    repeat split; auto; try lia.
    + apply (fgt_nonneg _ _ Hu1 E).
    + right. exists pdu. now split.
  - destruct (_ >? MemoryTotalKB m) eqn:E; simpl; [|repeat split; auto; lia].
    apply Z.gtb_lt in E.
    repeat split; auto; try lia.
    right. exists pdu. now split.
Qed.

Lemma updates_cardInvariant entry (pdus : list SnmpPDU) (m : OLTSystemMetrics) :
  In entry systemWalkOIDs ->
  (forall pdu, In pdu pdus -> In pdu (column c entry.1)) ->
  cardInvariant c m ->
  cardInvariant c (fold_left (fun m pdu => entry.2 pdu m) pdus m)
  /\ MemoryTotalKB m <= MemoryTotalKB (fold_left (fun m pdu => entry.2 pdu m) pdus m).
Proof.
  intros Hin. revert m. induction pdus as [|pdu pdus IH]; intros m Hsub Hm; simpl.
  - split; [assumption|lia].
  - destruct (update_cardInvariant entry pdu m Hin (Hsub pdu (or_introl eq_refl)) Hm)
      as [H1 H2].
    destruct (IH (entry.2 pdu m) (fun q Hq => Hsub q (or_intror Hq)) H1) as [H3 H4].
    split; [assumption|lia].
Qed.

Lemma systemWalk_fold entry (m : OLTSystemMetrics) :
  systemWalk c m entry = fold_left (fun m pdu => entry.2 pdu m) (column c entry.1) m.
Proof.
  unfold systemWalk, column. destruct entry as [baseOID updateFunc]. simpl.
  destruct (Walk (snmp c) baseOID) as [pdus [e|]]; reflexivity.
Qed.

Lemma systemWalk_cardInvariant entry (m : OLTSystemMetrics) :
  In entry systemWalkOIDs ->
  cardInvariant c m ->
  cardInvariant c (systemWalk c m entry)
  /\ MemoryTotalKB m <= MemoryTotalKB (systemWalk c m entry).
Proof.
  intros Hin Hm. rewrite systemWalk_fold.
  apply updates_cardInvariant; auto.
Qed.

(** After the memory-total column has been folded in, no card of the
    column exceeds the total. *)
Lemma memoryTotal_fold (pdus : list SnmpPDU) (m : OLTSystemMetrics) (pdu : SnmpPDU) :
  In pdu pdus ->
  cardKB pdu
  <= MemoryTotalKB
       (fold_left (fun m pdu =>
          let val := int64 (int64 (pduToInt pdu) * 1024) in
          if val >? MemoryTotalKB m then set_MemoryTotalKB val m else m) pdus m).
Proof.
  revert m. induction pdus as [|q pdus IH]; intros m Hin; [contradiction|].
  simpl. destruct Hin as [->|Hin]; [|now apply IH].
  match goal with |- _ <= MemoryTotalKB (fold_left ?f pdus ?m1) =>
    assert (forall l m0, MemoryTotalKB m0 <= MemoryTotalKB (fold_left f l m0)) as Hmono;
    [|specialize (Hmono pdus m1)]
  end.
  { induction l as [|x l IHl]; intros m0; simpl; [lia|].
    etransitivity; [|apply IHl].
    destruct (_ >? MemoryTotalKB m0) eqn:E; simpl; [apply Z.gtb_lt in E|]; lia. }
  etransitivity; [|exact Hmono].
  unfold cardKB.
  destruct (_ >? MemoryTotalKB m) eqn:E; simpl; [lia|].
  rewrite Z.gtb_ltb in E. apply Z.ltb_ge in E. exact E.
Qed.

Lemma walks_cardInvariant entries (m : OLTSystemMetrics) :
  (forall entry, In entry entries -> In entry systemWalkOIDs) ->
  cardInvariant c m ->
  cardInvariant c (fold_left (systemWalk c) entries m)
  /\ MemoryTotalKB m <= MemoryTotalKB (fold_left (systemWalk c) entries m)
  /\ ((exists updateFunc, In (OIDZTECardMemoryTotal, updateFunc) entries) ->
      forall pdu, In pdu (column c OIDZTECardMemoryTotal) ->
                  cardKB pdu <= MemoryTotalKB (fold_left (systemWalk c) entries m)).
Proof.
  revert m. induction entries as [|entry entries IH]; intros m Hlit Hm; simpl.
  - split; [assumption|]. split; [lia|]. intros [f []].
  - assert (In entry systemWalkOIDs) as He by (apply Hlit; now left).
    destruct (systemWalk_cardInvariant entry m He Hm) as [H1 H2].
    destruct (IH (systemWalk c m entry) (fun e H => Hlit e (or_intror H)) H1)
      as (H3 & H4 & H5).
    split; [assumption|]. split; [lia|].
    intros [f [Hf|Hf]] pdu Hpdu; [|apply H5; eauto].
    subst entry. etransitivity; [|exact H4].
    rewrite systemWalk_fold.
    pick_entry He. simpl. now apply memoryTotal_fold.
Qed.

(** The record the walks start from satisfies the invariant when the
    scalar loop left the card fields at zero. *)
Lemma cardInvariant_start (m : OLTSystemMetrics) (d : Model.Device) (now : Time) :
  walkFields m = walkFields (freshMetrics d now) -> cardInvariant c m.
Proof.
  unfold walkFields, cardInvariant, fromColumn, fromCards. simpl.
  intros [= -> -> _ -> ->]. repeat split; auto using nonneg_fzero.
Qed.

(** How GetSystemMetrics returns, with the invariant of the card values. *)
Lemma GetSystemMetrics_cards oor now entries d variables :
  device c = Some d ->
  Get (snmp c) [OIDSysDescr; OIDSysName; OIDSysUpTime] = (Some variables, None) ->
  Forall octetsAreBytes variables ->
  entries ≡ₚ systemWalkOIDs ->
  exists m2,
    GetSystemMetrics oor c now entries = Ok (usedMemory oor m2)
    /\ cardInvariant c m2
    /\ (forall pdu, In pdu (column c OIDZTECardMemoryTotal) -> cardKB pdu <= MemoryTotalKB m2).
Proof.
  intros Hd Hget Hwt Hperm.
  destruct (scalarLoop_ok variables (freshMetrics d now) Hwt) as (m1 & E1 & Hw).
  exists (fold_left (systemWalk c) entries m1).
  destruct (walks_cardInvariant entries m1) as (H1 & H2 & H3).
  { intros entry He. apply (Permutation_in _ Hperm He). }
  { apply (cardInvariant_start m1 d now Hw). }
  split; [|split; [assumption|]].
  - unfold GetSystemMetrics. rewrite Hget, Hd.
    change (foldM scalarCase variables _) with (foldM scalarCase variables (freshMetrics d now)).
    rewrite E1. reflexivity.
  - apply H3. eexists. apply (Permutation_in _ (Permutation_sym Hperm)).
    right. right. right. left. reflexivity.
Qed.

End CardValues.

(** X6: the memory total GetSystemMetrics reports is the largest card
    value of the memory-total column, times 1024, and not the sum over
    the cards: no PDU of the column exceeds the reported total, and the
    total is 0 or the value of one of the column's PDUs. This holds for
    every agent and every order of the walks. *)
Theorem GetSystemMetrics_memory_total_is_max
    (oor : float64 -> Z) (c : ZTEOLTClient) (now : Time)
    (entries : list (string * (SnmpPDU -> OLTSystemMetrics -> OLTSystemMetrics)))
    (d : Model.Device) (variables : list SnmpPDU) :
  device c = Some d ->
  Get (snmp c) [OIDSysDescr; OIDSysName; OIDSysUpTime] = (Some variables, None) ->
  Forall SystemSpec.octetsAreBytes variables ->
  entries ≡ₚ systemWalkOIDs ->
  exists m, GetSystemMetrics oor c now entries = Ok m
    /\ (forall pdu, In pdu (CardSpec.column c OIDZTECardMemoryTotal) ->
          CardSpec.cardKB pdu <= MemoryTotalKB m)
    /\ (MemoryTotalKB m = 0
        \/ exists pdu, In pdu (CardSpec.column c OIDZTECardMemoryTotal)
                       /\ MemoryTotalKB m = CardSpec.cardKB pdu).
Proof.
  intros Hd Hget Hwt Hperm.
  destruct (GetSystemMetrics_cards c oor now entries d variables Hd Hget Hwt Hperm)
    as (m2 & Hr & (_ & _ & _ & Hk) & Hmax).
  exists (usedMemory oor m2). split; [assumption|].
  destruct (usedMemory_fields oor m2) as (_ & -> & _).
  split; assumption.
Qed.

(** On three cards of 512, 512 and 2048 MB: the total is 2048 MB. *)
Lemma GetSystemMetrics_memory_total_is_max_witness :
  exists m,
    GetSystemMetrics (fun _ => MinInt64) CardFixtures.threeCards 0 systemWalkOIDs = Ok m
    /\ (forall pdu,
          In pdu (CardSpec.column CardFixtures.threeCards OIDZTECardMemoryTotal) ->
          CardSpec.cardKB pdu <= MemoryTotalKB m)
    /\ (MemoryTotalKB m = 0
        \/ exists pdu,
             In pdu (CardSpec.column CardFixtures.threeCards OIDZTECardMemoryTotal)
             /\ MemoryTotalKB m = CardSpec.cardKB pdu).
Proof.
  apply (GetSystemMetrics_memory_total_is_max (fun _ => MinInt64) CardFixtures.threeCards
           0 systemWalkOIDs newTestDevice []).
  - reflexivity.
  - reflexivity.
  - constructor.
  - reflexivity.
Defined.

(** X7: the CPU load, the temperature and the memory usage
    GetSystemMetrics reports are never negative and never NaN, and each
    is either the zero value or the reading of one PDU of its own column:
    a column whose readings are all zero or below leaves the field at
    zero, so a temperature below zero is never reported. *)
Theorem GetSystemMetrics_readings_nonnegative
    (oor : float64 -> Z) (c : ZTEOLTClient) (now : Time)
    (entries : list (string * (SnmpPDU -> OLTSystemMetrics -> OLTSystemMetrics)))
    (d : Model.Device) (variables : list SnmpPDU) :
  device c = Some d ->
  Get (snmp c) [OIDSysDescr; OIDSysName; OIDSysUpTime] = (Some variables, None) ->
  Forall SystemSpec.octetsAreBytes variables ->
  entries ≡ₚ systemWalkOIDs ->
  exists m, GetSystemMetrics oor c now entries = Ok m
    /\ SystemSpec.nonnegFloat (CPUUsagePercent m)
    /\ CardSpec.fromColumn c OIDZTECardCPUUsage (CPUUsagePercent m)
    /\ SystemSpec.nonnegFloat (TemperatureCelsius m)
    /\ CardSpec.fromColumn c OIDZTECardTemperature (TemperatureCelsius m)
    /\ SystemSpec.nonnegFloat (MemoryUsagePercent m)
    /\ CardSpec.fromColumn c OIDZTECardMemoryUsage (MemoryUsagePercent m).
Proof.
  intros Hd Hget Hwt Hperm.
  destruct (GetSystemMetrics_cards c oor now entries d variables Hd Hget Hwt Hperm)
    as (m2 & Hr & ((Hc1 & Hc2) & (Ht1 & Ht2) & (Hu1 & Hu2) & _) & _).
  exists (usedMemory oor m2). split; [assumption|].
  assert (CPUUsagePercent (usedMemory oor m2) = CPUUsagePercent m2
          /\ TemperatureCelsius (usedMemory oor m2) = TemperatureCelsius m2
          /\ MemoryUsagePercent (usedMemory oor m2) = MemoryUsagePercent m2) as (-> & -> & ->).
  { unfold usedMemory. destruct (_ && _); simpl; auto. }
  repeat (split; [assumption|]). assumption.
Qed.

(** On a chassis whose only temperature reading is -5 degrees. *)
Lemma GetSystemMetrics_readings_nonnegative_witness :
  exists m,
    GetSystemMetrics (fun _ => MinInt64) CardFixtures.coldChassis 0 systemWalkOIDs = Ok m
    /\ SystemSpec.nonnegFloat (CPUUsagePercent m)
    /\ CardSpec.fromColumn CardFixtures.coldChassis OIDZTECardCPUUsage (CPUUsagePercent m)
    /\ SystemSpec.nonnegFloat (TemperatureCelsius m)
    /\ CardSpec.fromColumn CardFixtures.coldChassis OIDZTECardTemperature (TemperatureCelsius m)
    /\ SystemSpec.nonnegFloat (MemoryUsagePercent m)
    /\ CardSpec.fromColumn CardFixtures.coldChassis OIDZTECardMemoryUsage (MemoryUsagePercent m).
Proof.
  apply (GetSystemMetrics_readings_nonnegative (fun _ => MinInt64) CardFixtures.coldChassis
           0 systemWalkOIDs newTestDevice []).
  - reflexivity.
  - reflexivity.
  - constructor.
  - reflexivity.
Defined.

(** ** GetPONPortMetrics: one record per walked index *)

Section PONPortMap.

Import PortSpec.

Variable c : ZTEOLTClient.
Variable now : Time.
Variable entries : list (string * (SnmpPDU -> PONPortMetrics -> PONPortMetrics)).
Hypothesis entries_literal : forall entry, In entry entries -> In entry ponWalkOIDs.

Lemma pon_grows_refl m : grows m m.
Proof. unfold grows. auto. Qed.

Lemma pon_grows_trans m1 m2 m3 : grows m1 m2 -> grows m2 m3 -> grows m1 m3.
Proof. unfold grows. auto. Qed.

Lemma pon_grows_insert (m : gmap Z PONPortMetrics) i port : grows m (<[i := port]> m).
Proof.
  intros j H. destruct (decide (i = j)) as [->|Hne].
  - rewrite lookup_insert_eq. eauto.
  - now rewrite lookup_insert_ne.
Qed.

Lemma pon_mapInvariant_insert (m : gmap Z PONPortMetrics) port i :
  mapInvariant c entries m -> 0 <= i -> PortIndex port = i -> walked c entries i ->
  mapInvariant c entries (<[i := port]> m).
Proof.
  intros Hm Hi Hp Hw j port' Hl. destruct (decide (i = j)) as [<-|Hne].
  - rewrite lookup_insert_eq in Hl. injection Hl as <-. auto.
  - rewrite lookup_insert_ne in Hl by assumption. eauto.
Qed.

(** One callback: the invariant is kept, no index is lost, and the
    PDU's own record is in the map afterwards. *)
Lemma ponCallback_invariant baseOID setter m pdu m' :
  In (baseOID, setter) entries ->
  In pdu (Walk (snmp c) baseOID).1 ->
  mapInvariant c entries m ->
  ponCallback c now baseOID setter m pdu = Ok m' ->
  mapInvariant c entries m' /\ grows m m' /\ covered m' baseOID pdu.
Proof.
  intros Hin Hpdu Hm. unfold ponCallback, covered. cbv zeta.
  set (index := extractLastOIDIndex (pdu_Name pdu) baseOID).
  assert (walked c entries index) as Hw by (exists baseOID, setter, pdu; auto).
  pose proof (entries_literal _ Hin) as Hlit.
  destruct (index <? 0) eqn:E.
  - intros [= <-]. apply Z.ltb_lt in E.
    split; [assumption|]. split; [apply pon_grows_refl|]. intros Hi. lia.
  - apply Z.ltb_ge in E.
    destruct (m !! index) as [port|] eqn:El.
    + intros [= <-]. destruct (Hm _ _ El) as (_ & Hp & _).
      split; [|split].
      * apply pon_mapInvariant_insert; auto.
        now rewrite (setter_keeps_PortIndex baseOID setter pdu port Hlit).
      * apply pon_grows_insert.
      * intros _. rewrite lookup_insert_eq. eauto.
    + destruct (device c) as [d|]; [|discriminate].
      intros [= <-]. split; [|split].
      * apply pon_mapInvariant_insert; auto.
        now rewrite (setter_keeps_PortIndex baseOID setter pdu _ Hlit).
      * apply pon_grows_insert.
      * intros _. rewrite lookup_insert_eq. eauto.
Qed.

(** The callbacks of one walk, over any part [pdus] of what the walk
    delivers. *)
Lemma ponCallbacks_invariant baseOID setter pdus m m' :
  In (baseOID, setter) entries ->
  (forall pdu, In pdu pdus -> In pdu (Walk (snmp c) baseOID).1) ->
  mapInvariant c entries m ->
  foldM (ponCallback c now baseOID setter) pdus m = Ok m' ->
  mapInvariant c entries m' /\ grows m m'
  /\ (forall pdu, In pdu pdus -> covered m' baseOID pdu).
Proof.
  intros Hin. revert m. induction pdus as [|pdu pdus IH]; intros m Hsub Hm; cbn [foldM].
  - intros [= <-]. split; [assumption|]. split; [apply pon_grows_refl|]. intros ? [].
  - destruct (ponCallback c now baseOID setter m pdu) as [m1| |] eqn:E1; cbn [bind];
      try discriminate.
    intros E2.
    destruct (ponCallback_invariant baseOID setter m pdu m1 Hin
                (Hsub pdu (or_introl eq_refl)) Hm E1) as (H1 & H2 & H3).
    destruct (IH m1 (fun q Hq => Hsub q (or_intror Hq)) H1 E2) as (H4 & H5 & H6).
    split; [assumption|]. split; [eapply pon_grows_trans; eassumption|].
    intros q [<-|Hq]; [|now apply H6].
    intros Hi. apply H5. now apply H3.
Qed.

Lemma ponWalk_invariant entry m m' :
  In entry entries ->
  mapInvariant c entries m ->
  ponWalk c now m entry = Ok m' ->
  mapInvariant c entries m' /\ grows m m'
  /\ (forall pdu, In pdu (Walk (snmp c) entry.1).1 -> covered m' entry.1 pdu).
Proof.
  intros Hin Hm. unfold ponWalk. destruct entry as [baseOID setter]. simpl.
  destruct (Walk (snmp c) baseOID) as [pdus err] eqn:Ew. simpl.
  destruct (foldM (ponCallback c now baseOID setter) pdus m) as [m1| |] eqn:E1; cbn [bind];
    try discriminate.
  destruct err; [discriminate|]. intros [= <-].
  apply (ponCallbacks_invariant baseOID setter pdus m m1 Hin); auto.
  intros pdu Hp. now rewrite Ew.
Qed.

Lemma ponWalks_invariant l m m' :
  (forall entry, In entry l -> In entry entries) ->
  mapInvariant c entries m ->
  foldM (ponWalk c now) l m = Ok m' ->
  mapInvariant c entries m' /\ grows m m'
  /\ (forall entry pdu, In entry l -> In pdu (Walk (snmp c) entry.1).1 ->
                        covered m' entry.1 pdu).
Proof.
  revert m. induction l as [|entry l IH]; intros m Hsub Hm; cbn [foldM].
  - intros [= <-]. split; [assumption|]. split; [apply pon_grows_refl|]. intros ? ? [].
  - destruct (ponWalk c now m entry) as [m1| |] eqn:E1; cbn [bind]; try discriminate.
    intros E2.
    destruct (ponWalk_invariant entry m m1 (Hsub entry (or_introl eq_refl)) Hm E1)
      as (H1 & H2 & H3).
    destruct (IH m1 (fun e He => Hsub e (or_intror He)) H1 E2) as (H4 & H5 & H6).
    split; [assumption|]. split; [eapply pon_grows_trans; eassumption|].
    intros e pdu [<-|He] Hp; [|now apply H6].
    intros Hi. apply H5. now apply H3.
Qed.

End PONPortMap.

(** The port indexes of the records of a map that satisfies the
    invariant are pairwise distinct. *)
Lemma ports_NoDup (c : ZTEOLTClient)
    (entries : list (string * (SnmpPDU -> PONPortMetrics -> PONPortMetrics)))
    (m : gmap Z PONPortMetrics) :
  PortSpec.mapInvariant c entries m ->
  List.NoDup (map PortIndex (map_to_list m).*2).
Proof.
  intros Hm.
  assert (map PortIndex (map_to_list m).*2 = (map_to_list m).*1) as ->.
  { assert (forall l : list (Z * PONPortMetrics),
              (forall i port, In (i, port) l -> PortIndex port = i) ->
              map PortIndex l.*2 = l.*1) as H.
    { induction l as [|[i port] l IH]; intros Hl; [reflexivity|].
      simpl. rewrite (Hl i port (or_introl eq_refl)).
      f_equal. apply IH. intros j q Hq. apply Hl. now right. }
    apply H. intros i port Hin.
    apply list_elem_of_In, elem_of_map_to_list in Hin.
    now destruct (Hm i port Hin) as (_ & Hp & _). }
  apply NoDup_ListNoDup, NoDup_fst_map_to_list.
Qed.

(** What a PON-port collection returns: records with pairwise distinct
    indexes, each the index of a walked PDU, and one for every walked
    PDU with a valid index. *)
Lemma GetPONPortMetrics_records
    (c : ZTEOLTClient) (now : Time)
    (entries : list (string * (SnmpPDU -> PONPortMetrics -> PONPortMetrics)))
    (ports : list PONPortMetrics) :
  entries ≡ₚ ponWalkOIDs ->
  GetPONPortMetrics c now entries = Ok ports ->
  List.NoDup (map PortIndex ports)
  /\ (forall port, In port ports ->
        0 <= PortIndex port /\ PortSpec.walked c entries (PortIndex port))
  /\ (forall baseOID setter pdu,
        In (baseOID, setter) entries ->
        In pdu (Walk (snmp c) baseOID).1 ->
        0 <= extractLastOIDIndex (pdu_Name pdu) baseOID ->
        exists port, In port ports
                     /\ PortIndex port = extractLastOIDIndex (pdu_Name pdu) baseOID).
Proof.
  intros Hperm. unfold GetPONPortMetrics.
  destruct (foldM (ponWalk c now) entries ∅) as [m| |] eqn:E; simpl; try discriminate.
  intros [= <-].
  destruct (ponWalks_invariant c now entries
              (fun entry He => Permutation_in _ Hperm He) entries ∅ m (fun e He => He))
    as (Hm & _ & Hc); [|assumption|].
  { intros i port Hl. rewrite lookup_empty in Hl. discriminate. }
  split; [now apply (ports_NoDup c entries)|]. split.
  - intros port Hin.
    rewrite <- list_elem_of_In, list_elem_of_fmap in Hin.
    destruct Hin as ([i port'] & -> & Hin). apply elem_of_map_to_list in Hin.
    destruct (Hm i port' Hin) as (Hi & Hp & Hw). simpl. rewrite Hp. now split.
  - intros baseOID setter pdu Hin Hpdu Hi.
    destruct (Hc (baseOID, setter) pdu Hin Hpdu Hi) as [port Hport].
    exists port. split.
    + rewrite <- list_elem_of_In, list_elem_of_fmap.
      exists (extractLastOIDIndex (pdu_Name pdu) baseOID, port).
      split; [reflexivity|]. now apply elem_of_map_to_list.
    + now destruct (Hm _ port Hport) as (_ & Hp & _).
Qed.

(** X8: GetPONPortMetrics returns one record per walked port index. In
    whatever order the five columns are walked, no two returned records
    have the same PortIndex; every returned record carries the index, not
    negative, of a PDU that one of the walks delivered; and every
    delivered PDU whose index is not negative has its record in the
    result. *)
Theorem GetPONPortMetrics_one_record_per_index
    (c : ZTEOLTClient) (now : Time)
    (entries : list (string * (SnmpPDU -> PONPortMetrics -> PONPortMetrics)))
    (ports : list PONPortMetrics) :
  entries ≡ₚ ponWalkOIDs ->
  GetPONPortMetrics c now entries = Ok ports ->
  List.NoDup (map PortIndex ports)
  /\ (forall port, In port ports ->
        0 <= PortIndex port /\ PortSpec.walked c entries (PortIndex port))
  /\ (forall baseOID setter pdu,
        In (baseOID, setter) entries ->
        In pdu (Walk (snmp c) baseOID).1 ->
        0 <= extractLastOIDIndex (pdu_Name pdu) baseOID ->
        exists port, In port ports
                     /\ PortIndex port = extractLastOIDIndex (pdu_Name pdu) baseOID).
Proof. apply GetPONPortMetrics_records. Qed.

(** On the agent of the PON-port test, with its two ports. *)
Lemma GetPONPortMetrics_one_record_per_index_witness :
  List.NoDup (map PortIndex (PortFixtures.twoPorts "test-olt-001"))
  /\ (forall port,
        In port (PortFixtures.twoPorts "test-olt-001") ->
        0 <= PortIndex port /\ PortSpec.walked PowerSpec.ponClient ponWalkOIDs (PortIndex port))
  /\ (forall baseOID setter pdu,
        In (baseOID, setter) ponWalkOIDs ->
        In pdu (Walk (snmp PowerSpec.ponClient) baseOID).1 ->
        0 <= extractLastOIDIndex (pdu_Name pdu) baseOID ->
        exists port,
          In port (PortFixtures.twoPorts "test-olt-001")
          /\ PortIndex port = extractLastOIDIndex (pdu_Name pdu) baseOID).
Proof.
  apply (GetPONPortMetrics_one_record_per_index PowerSpec.ponClient 0 ponWalkOIDs).
  - reflexivity.
  - vm_compute. reflexivity.
Defined.

(** ** The Mikrotik adapter *)

Section ParseBytes.

Import Adapter.

(** Scanning digits (optionally followed by other bytes), whatever
    their value: a value outside int64 is an error. *)
Lemma Sscanf_d_digits_any (ds rest : string) :
  ds <> EmptyString ->
  all_bytes is_digit ds = true ->
  Spec.startsWith (fun c => is_digit c || is_underscore c) rest = false ->
  Sscanf_d (ds ++ rest)
  = if in_int64 (decimal_value 0 ds) then Some (decimal_value 0 ds) else None.
Proof.
  intros Hne Hd Hr.
  destruct ds as [|c ds]; [congruence|].
  pose proof Hd as Hd'. simpl in Hd'. apply andb_true_iff in Hd' as [Hc _].
  unfold Sscanf_d. change (String c ds ++ rest) with (String c (ds ++ rest)).
  destruct (is_digit_not_space c Hc) as [Hnl Hsp].
  rewrite (SkipSpace_stop c (ds ++ rest) (is_digit_low c Hc) Hnl Hsp).
  rewrite (is_digit_not_sign c Hc).
  change (String c (ds ++ rest)) with (String c ds ++ rest).
  rewrite (span_digits (String c ds) rest Hd Hr).
  rewrite Hd. reflexivity.
Qed.

End ParseBytes.



Section AdapterFields.

Import Adapter AdapterSpec.

Variable Dial : string -> string -> string -> Client + error.
Variable Sscanf_f : string -> option float64.

(** What the adapter returns is filed under its four names only, and a
    failure carries no field at all. *)
Lemma FetchSystemResources_names (ip username password k : string) :
  is_Some ((FetchSystemResources Dial Sscanf_f ip username password).1 !! k) ->
  (FetchSystemResources Dial Sscanf_f ip username password).2 = true
  /\ In k adapterNames.
Proof.
  unfold FetchSystemResources. cbv zeta.
  destruct (Dial _ _ _) as [c|e]; [|simpl; rewrite lookup_empty; intros [? [=]]].
  destruct (Run c _) as [[|res re]|e]; try (simpl; rewrite lookup_empty; intros [? [=]]).
  simpl. intros H. split; [reflexivity|]. revert H.
  unfold adapterNames.
  destruct (res !! "total-memory"), (res !! "free-memory"), (res !! "cpu-load"),
    (res !! "uptime");
    repeat match goal with
           | |- context [<[?j := _]> _ !! k] =>
               destruct (decide (j = k)) as [<-|?];
               [intros _; simpl; tauto | rewrite lookup_insert_ne by assumption]
           end;
    rewrite lookup_empty; intros [? [=]].
Qed.

End AdapterFields.



(** ** The command sent to a router *)

Section ApiCommand.

Import GoStrings Adapter AdapterSpec.

Lemma Contains_cons (d : ascii) (s p : string) :
  Contains (String d s) p = HasPrefix (String d s) p || Contains s p.
Proof. reflexivity. Qed.

Lemma HasPrefix_byte (d c : ascii) (s : string) :
  HasPrefix (String d s) (String c EmptyString) = Ascii.eqb c d.
Proof.
  change (HasPrefix (String d s) (String c EmptyString))
    with (if Ascii.eqb c d then HasPrefix s EmptyString else false).
  rewrite HasPrefix_empty. now destruct (Ascii.eqb c d).
Qed.

Lemma Contains_byte (d c : ascii) (s : string) :
  Contains (String d s) (String c EmptyString)
  = Ascii.eqb c d || Contains s (String c EmptyString).
Proof. now rewrite Contains_cons, HasPrefix_byte. Qed.

Lemma Contains_append_byte (s t : string) (c : ascii) :
  Contains (s ++ t) (String c EmptyString)
  = Contains s (String c EmptyString) || Contains t (String c EmptyString).
Proof.
  induction s as [|d s IH]; [reflexivity|].
  rewrite append_cons, !Contains_byte, IH. now rewrite orb_assoc.
Qed.

(** A string that holds the two bytes [a b] in a row holds each. *)
Lemma Contains_pair (s : string) (a b : ascii) :
  Contains s (String a (String b EmptyString)) = true ->
  Contains s (String a EmptyString) = true /\ Contains s (String b EmptyString) = true.
Proof.
  induction s as [|d s IH]; [discriminate|].
  rewrite Contains_cons, !Contains_byte. intros H. apply orb_true_iff in H as [H|H].
  - change (HasPrefix (String d s) (String a (String b EmptyString)))
      with (if Ascii.eqb a d then HasPrefix s (String b EmptyString) else false) in H.
    destruct (Ascii.eqb a d); [|discriminate]. split; [reflexivity|].
    destruct s as [|e s]; [discriminate|]. rewrite HasPrefix_byte in H.
    rewrite Contains_byte, H. now rewrite orb_true_r.
  - destruct (IH H) as [-> ->]. now rewrite !orb_true_r.
Qed.

(** After the replacement no space is left, and the slashes are those
    that were there and those that were spaces. *)
Lemma ReplaceAll_no_space (s : string) : Contains (ReplaceAll s " " "/") " " = false.
Proof.
  induction s as [|d s IH]; [reflexivity|].
  simpl ReplaceAll. rewrite Contains_byte, IH, orb_false_r.
  destruct (Ascii.eqb_spec d " ") as [->|Hne]; [reflexivity|].
  destruct (Ascii.eqb_spec " " d); [congruence|reflexivity].
Qed.

Lemma ReplaceAll_slashes (s : string) :
  Contains (ReplaceAll s " " "/") "/" = Contains s "/" || Contains s " ".
Proof.
  induction s as [|d s IH]; [reflexivity|].
  simpl ReplaceAll. rewrite !Contains_byte, IH.
  destruct (Ascii.eqb_spec d " ") as [->|Hne].
  - simpl. now rewrite orb_true_r.
  - destruct (Ascii.eqb_spec " " d) as [E|_]; [congruence|].
    destruct (Ascii.eqb "/" d); simpl; [reflexivity|]. reflexivity.
Qed.

Lemma ReplaceAll_append (s t : string) (old new : ascii) :
  ReplaceAll (s ++ t) old new = ReplaceAll s old new ++ ReplaceAll t old new.
Proof.
  induction s as [|d s IH]; [reflexivity|].
  rewrite append_cons. simpl. now rewrite IH.
Qed.

Lemma ReplaceAll_absent (s : string) (old new : ascii) :
  Contains s (String old EmptyString) = false -> ReplaceAll s old new = s.
Proof.
  induction s as [|d s IH]; [reflexivity|].
  rewrite Contains_byte. intros H. apply orb_false_iff in H as [Hd Hs].
  simpl. rewrite (IH Hs). rewrite Ascii.eqb_sym in Hd. now rewrite Hd.
Qed.

(** A command with a slash and no space, or with a slash followed by a
    space, is sent as it is. *)
Lemma apiCommand_fixed (s : string) :
  Contains s "/" = true ->
  Contains s " " = false \/ Contains s "/ " = true ->
  apiCommand s = s.
Proof.
  intros H1 H2. unfold apiCommand. rewrite H1. simpl.
  destruct H2 as [->| ->]; [reflexivity|]. now rewrite andb_false_r.
Qed.

End ApiCommand.

(** X11: the command [RunCommand] and [RunCommandStructured] send to the
    router always contains a slash; it contains a space exactly when the
    command given contains a slash directly followed by a space (the one
    case the conversion leaves alone); and converting is idempotent: a
    converted command is sent unchanged when it is given again. *)
Theorem apiCommand_normal_form (command : string) :
  GoStrings.Contains (Adapter.apiCommand command) "/" = true
  /\ GoStrings.Contains (Adapter.apiCommand command) " "
     = GoStrings.Contains command "/ "
  /\ Adapter.apiCommand (Adapter.apiCommand command) = Adapter.apiCommand command.
Proof.
  assert (GoStrings.Contains command "/ " = true ->
          GoStrings.Contains command "/" = true /\ GoStrings.Contains command " " = true)
    as Hpair by apply Contains_pair.
  destruct (GoStrings.Contains command "/") eqn:E1.
  - destruct (GoStrings.Contains command " " && negb (GoStrings.Contains command "/ "))
      eqn:E2.
    + assert (Adapter.apiCommand command = GoStrings.ReplaceAll command " " "/") as ->
        by (unfold Adapter.apiCommand; rewrite E1, E2; reflexivity).
      apply andb_true_iff in E2 as [E2 E3]. apply negb_true_iff in E3.
      assert (GoStrings.Contains (GoStrings.ReplaceAll command " " "/") "/" = true) as H1
        by (rewrite ReplaceAll_slashes, E1; reflexivity).
      split; [assumption|]. split.
      * rewrite E3. apply ReplaceAll_no_space.
      * apply apiCommand_fixed; [assumption|left; apply ReplaceAll_no_space].
    + assert (Adapter.apiCommand command = command) as ->
        by (unfold Adapter.apiCommand; rewrite E1, E2; reflexivity).
      split; [assumption|].
      assert (GoStrings.Contains command " " = GoStrings.Contains command "/ ") as E.
      { destruct (GoStrings.Contains command "/ ") eqn:E3.
        - now destruct (Hpair eq_refl).
        - rewrite andb_true_r in E2. exact E2. }
      split; [assumption|].
      apply apiCommand_fixed; [assumption|].
      destruct (GoStrings.Contains command "/ "); [now right|now left].
  - assert (Adapter.apiCommand command
            = String "/" (GoStrings.ReplaceAll (GoStrings.TrimSpace command) " " "/")) as ->
      by (unfold Adapter.apiCommand; rewrite E1; reflexivity).
    assert (GoStrings.Contains command "/ " = false) as E3.
    { destruct (GoStrings.Contains command "/ ") eqn:E3; [|reflexivity].
      destruct (Hpair eq_refl). congruence. }
    rewrite E3.
    match goal with |- context [String "/" ?r] => set (rest := r) end.
    assert (GoStrings.Contains (String "/" rest) "/" = true) as H1
      by (rewrite Contains_byte; reflexivity).
    assert (GoStrings.Contains (String "/" rest) " " = false) as H2
      by (rewrite Contains_byte; subst rest; rewrite ReplaceAll_no_space; reflexivity).
    split; [assumption|]. split; [assumption|].
    apply apiCommand_fixed; auto.
Qed.

Section PlainWords.

Import GoStrings Adapter AdapterSpec.

Lemma reverse_onto_append (s acc : string) : reverse_onto s acc = reverse s ++ acc.
Proof.
  unfold reverse. revert acc. induction s as [|c s IH]; intros acc; [reflexivity|].
  simpl. rewrite (IH (String c acc)), (IH (String c EmptyString)).
  now rewrite append_assoc.
Qed.

Lemma reverse_cons (c : ascii) (s : string) :
  reverse (String c s) = reverse s ++ String c EmptyString.
Proof. unfold reverse at 1. simpl. apply reverse_onto_append. Qed.

Lemma reverse_append (s t : string) : reverse (s ++ t) = reverse t ++ reverse s.
Proof.
  induction s as [|c s IH].
  - change (EmptyString ++ t) with t. now rewrite append_empty_r.
  - rewrite append_cons, !reverse_cons, IH. now rewrite append_assoc.
Qed.

Lemma reverse_involutive (s : string) : reverse (reverse s) = s.
Proof.
  induction s as [|c s IH]; [reflexivity|].
  rewrite reverse_cons, reverse_append. simpl. now rewrite IH.
Qed.

Lemma plainByte_facts (c : ascii) :
  plainByte c = true ->
  33 <= byte_of c <= 126 /\ byte_of c <> 47 /\ is_white1 c = false.
Proof.
  unfold plainByte, is_white1, is_space1. cbv zeta. intros H.
  apply andb_true_iff in H as [H H3]. apply andb_true_iff in H as [H1 H2].
  apply Z.leb_le in H1. apply Z.leb_le in H2.
  apply negb_true_iff, Z.eqb_neq in H3.
  split; [lia|]. split; [assumption|].
  repeat (apply orb_false_iff; split); apply Z.eqb_neq; lia.
Qed.

Lemma plainByte_not (c d : ascii) :
  plainByte c = true -> plainByte d = false -> Ascii.eqb d c = false.
Proof. intros Hc Hd. destruct (Ascii.eqb_spec d c); [congruence|reflexivity]. Qed.

(** White space is trimmed neither before a plain byte nor after one. *)
Lemma TrimLeftSpace_plain (c : ascii) (r : string) :
  plainByte c = true -> TrimLeftSpace (String c r) = String c r.
Proof.
  intros H. destruct (plainByte_facts c H) as (Hr & _ & Hw).
  simpl. rewrite Hw.
  destruct r as [|c2 r]; [reflexivity|].
  rewrite low_byte_no_space2 by lia.
  destruct r as [|c3 r]; [reflexivity|].
  now rewrite low_byte_no_space3 by lia.
Qed.

Lemma TrimLeftSpace_reversed_plain (c : ascii) (r : string) :
  plainByte c = true -> TrimLeftSpace_reversed (String c r) = String c r.
Proof.
  intros H. destruct (plainByte_facts c H) as (Hr & _ & Hw).
  simpl. rewrite Hw.
  destruct r as [|c2 r]; [reflexivity|].
  assert (is_space2 c2 c = false) as ->.
  { unfold is_space2. apply andb_false_iff. right.
    apply orb_false_iff. split; apply Z.eqb_neq; lia. }
  destruct r as [|c3 r]; [reflexivity|].
  assert (is_space3 c3 c2 c = false) as ->; [|reflexivity].
  unfold is_space3. cbv zeta.
  repeat (apply orb_false_iff; split);
    repeat (apply andb_false_iff; right);
    repeat (apply orb_false_iff; split);
    try (apply Z.eqb_neq; lia).
  apply andb_false_iff. left. apply Z.leb_gt. lia.
Qed.

Lemma TrimSpace_plain (c d : ascii) (s : string) :
  plainByte c = true -> plainByte d = true ->
  TrimSpace (String c (s ++ String d EmptyString)) = String c (s ++ String d EmptyString).
Proof.
  intros Hc Hd. unfold TrimSpace. rewrite (TrimLeftSpace_plain c _ Hc).
  unfold TrimRightSpace.
  change (String c (s ++ String d EmptyString)) with (String c s ++ String d EmptyString).
  rewrite reverse_append.
  change (reverse (String d EmptyString) ++ reverse (String c s))
    with (String d (reverse (String c s))).
  rewrite (TrimLeftSpace_reversed_plain d _ Hd).
  change (String d (reverse (String c s)))
    with (reverse (String d EmptyString) ++ reverse (String c s)).
  now rewrite <- reverse_append, reverse_involutive.
Qed.

Lemma TrimSpace_byte (c : ascii) :
  plainByte c = true -> TrimSpace (String c EmptyString) = String c EmptyString.
Proof.
  intros Hc. unfold TrimSpace. rewrite (TrimLeftSpace_plain c _ Hc).
  unfold TrimRightSpace.
  change (reverse (String c EmptyString)) with (String c EmptyString).
  now rewrite (TrimLeftSpace_reversed_plain c _ Hc).
Qed.

(** A non-empty string of plain bytes, seen from its end. *)
Lemma plain_last (w : string) :
  w <> EmptyString -> all_bytes plainByte w = true ->
  exists w' d, w = w' ++ String d EmptyString /\ plainByte d = true.
Proof.
  induction w as [|c w IH]; [congruence|]. intros _ H.
  simpl in H. apply andb_true_iff in H as [Hc Hw].
  destruct w as [|c2 w].
  - exists EmptyString, c. now split.
  - destruct (IH ltac:(discriminate) Hw) as (w' & d & E & Hd).
    exists (String c w'), d. rewrite append_cons, <- E. now split.
Qed.

Lemma plain_no_byte (w : string) (c : ascii) :
  all_bytes plainByte w = true -> plainByte c = false ->
  Contains w (String c EmptyString) = false.
Proof.
  intros Hw Hc. induction w as [|d w IH]; [reflexivity|].
  simpl in Hw. apply andb_true_iff in Hw as [Hd Hw].
  rewrite Contains_byte, (IH Hw), orb_false_r.
  apply (plainByte_not d c Hd Hc).
Qed.

Lemma Join_cons (w : string) (words : list string) (sep : string) :
  words <> [] -> Join (w :: words) sep = w ++ sep ++ Join words sep.
Proof. destruct words; [congruence|reflexivity]. Qed.

(** Words joined by spaces: what the text contains, how it begins and
    ends, and what the replacement makes of it. *)
Lemma Join_plain (words : list string) :
  words <> [] -> Forall plainWord words ->
  Contains (Join words " ") "/" = false
  /\ ReplaceAll (Join words " ") " " "/" = Join words "/"
  /\ (exists c r, Join words " " = String c r /\ plainByte c = true)
  /\ (exists r d, Join words " " = r ++ String d EmptyString /\ plainByte d = true).
Proof.
  intros Hne H. induction H as [|w words [Hw1 Hw2] Hrest IH]; [congruence|].
  assert (Contains w "/" = false) as Hs by (apply plain_no_byte; auto).
  assert (Contains w " " = false) as Hb by (apply plain_no_byte; auto).
  assert (exists c r, w = String c r /\ plainByte c = true) as (c & r & Ew & Hc).
  { destruct w as [|c r]; [congruence|]. simpl in Hw2.
    apply andb_true_iff in Hw2 as [Hc _]. eauto. }
  destruct words as [|w2 words].
  - simpl. split; [assumption|]. split; [now apply ReplaceAll_absent|].
    split; [eauto|]. now apply plain_last.
  - destruct (IH ltac:(discriminate)) as (I1 & I2 & _ & (r' & d & I4 & Hd)).
    rewrite !Join_cons by discriminate.
    split; [|split; [|split]].
    + rewrite !Contains_append_byte, Hs, I1. reflexivity.
    + rewrite !ReplaceAll_append, I2, (ReplaceAll_absent w _ _ Hb). reflexivity.
    + exists c, (r ++ " " ++ Join (w2 :: words) " "). rewrite Ew. now split.
    + exists (w ++ " " ++ r'), d. rewrite I4, !append_assoc. now split.
Qed.

End PlainWords.

(** X12: a command typed as plain words separated by single spaces is
    sent as the slash-separated API path of these words, whether or not
    it was typed with a leading slash: "system resource print" and
    "/system resource print" both become "/system/resource/print". A
    plain word is one or more visible ASCII bytes other than the slash. *)
Theorem apiCommand_of_words (words : list string) :
  words <> [] ->
  Forall AdapterSpec.plainWord words ->
  Adapter.apiCommand (GoStrings.Join words " ") = "/" ++ GoStrings.Join words "/"
  /\ Adapter.apiCommand ("/" ++ GoStrings.Join words " ") = "/" ++ GoStrings.Join words "/".
Proof.
  intros Hne Hw.
  destruct (Join_plain words Hne Hw) as (H1 & H2 & (c & r & E3 & Hc) & (r' & d & E4 & Hd)).
  split.
  - unfold Adapter.apiCommand. rewrite H1. simpl negb. cbv iota.
    assert (GoStrings.TrimSpace (GoStrings.Join words " ") = GoStrings.Join words " ") as ->.
    { destruct r' as [|c' r'].
      - rewrite E4. now apply TrimSpace_byte.
      - rewrite E4 in E3. rewrite append_cons in E3. injection E3 as -> _.
        rewrite E4, append_cons. now apply TrimSpace_plain. }
    now rewrite H2.
  - change ("/" ++ GoStrings.Join words " ") with (String "/" (GoStrings.Join words " ")).
    assert (GoStrings.Contains (String "/" (GoStrings.Join words " ")) "/ " = false) as Hp.
    { rewrite Contains_cons.
      assert (HasPrefix (String "/" (GoStrings.Join words " ")) "/ " = false) as ->.
      { change (HasPrefix (String "/" (GoStrings.Join words " ")) "/ ")
          with (HasPrefix (GoStrings.Join words " ") " ").
        rewrite E3, HasPrefix_byte. apply (plainByte_not c " " Hc eq_refl). }
      rewrite orb_false_l.
      destruct (GoStrings.Contains (GoStrings.Join words " ") "/ ") eqn:E; [|reflexivity].
      apply Contains_pair in E as [E _]. congruence. }
    unfold Adapter.apiCommand. rewrite Hp.
    rewrite (Contains_byte "/" "/"). simpl negb. cbv iota. rewrite andb_true_r.
    destruct (GoStrings.Contains (String "/" (GoStrings.Join words " ")) " ") eqn:Es.
    + simpl GoStrings.ReplaceAll. now rewrite H2.
    + rewrite Contains_byte in Es. simpl in Es.
      rewrite <- H2. now rewrite (ReplaceAll_absent _ _ _ Es).
Qed.

(** On the command of the source's own comment. *)
Lemma apiCommand_of_words_witness :
  Adapter.apiCommand (GoStrings.Join ["system"; "resource"; "print"] " ")
  = "/" ++ GoStrings.Join ["system"; "resource"; "print"] "/"
  /\ Adapter.apiCommand ("/" ++ GoStrings.Join ["system"; "resource"; "print"] " ")
     = "/" ++ GoStrings.Join ["system"; "resource"; "print"] "/".
Proof.
  apply (apiCommand_of_words ["system"; "resource"; "print"]).
  - discriminate.
  - repeat constructor; discriminate.
Defined.

(** ** Subnet discovery: the next address *)

Section NextAddress.

Import Discovery DiscoverySpec.

Lemma leValue_range (l : list Z) :
  isBytes l -> 0 <= leValue l < 256 ^ Z.of_nat (length l).
Proof.
  induction 1 as [|b l Hb _ IH]; [simpl; lia|].
  cbn [leValue length]. rewrite Nat2Z.inj_succ, Z.pow_succ_r by lia. lia.
Qed.

Lemma beValue_app (l : list Z) (b : Z) : beValue (l ++ [b]) = beValue l * 256 + b.
Proof. unfold beValue. now rewrite fold_left_app. Qed.

Lemma beValue_rev (l : list Z) : beValue (rev l) = leValue l.
Proof.
  induction l as [|b l IH]; [reflexivity|].
  simpl rev. rewrite beValue_app, IH. simpl. lia.
Qed.

Lemma inc_from_last_spec (l : list Z) :
  isBytes l ->
  isBytes (inc_from_last l)
  /\ length (inc_from_last l) = length l
  /\ leValue (inc_from_last l) = (leValue l + 1) mod 256 ^ Z.of_nat (length l).
Proof.
  induction 1 as [|b l Hb Hl IH]; [repeat split; constructor|].
  destruct IH as (I1 & I2 & I3).
  pose proof (leValue_range l Hl) as Hr.
  cbn [inc_from_last]. cbv zeta.
  assert (256 ^ Z.of_nat (length (b :: l)) = 256 * 256 ^ Z.of_nat (length l)) as Ep.
  { cbn [length]. rewrite Nat2Z.inj_succ, Z.pow_succ_r by lia. reflexivity. }
  rewrite Ep.
  destruct (Z.eq_dec b 255) as [->|Hne].
  - change ((255 + 1) mod 256) with 0. change (0 >? 0) with false. cbv iota.
    split; [constructor; [lia|assumption]|].
    split; [cbn [length]; now rewrite I2|].
    cbn [leValue]. rewrite I3.
    replace (255 + 256 * leValue l + 1) with (256 * (leValue l + 1)) by lia.
    rewrite Z.mul_mod_distr_l by lia. lia.
  - rewrite (Z.mod_small (b + 1)) by lia.
    replace (b + 1 >? 0) with true by (symmetry; apply Z.gtb_lt; lia). cbv iota.
    split; [constructor; [lia|assumption]|].
    split; [reflexivity|].
    cbn [leValue]. rewrite Z.mod_small by lia. lia.
Qed.

End NextAddress.

(** X13: [inc] steps an address to the next one: read as a number, most
    significant byte first, the address after the call is the address
    before it plus one, modulo 256 to the power of its length (so the
    all-ones address wraps to the all-zero address); the length is
    unchanged and every element is still a byte. *)
Theorem inc_adds_one (ip : list Z) :
  DiscoverySpec.isBytes ip ->
  DiscoverySpec.isBytes (Discovery.inc ip)
  /\ length (Discovery.inc ip) = length ip
  /\ DiscoverySpec.beValue (Discovery.inc ip)
     = (DiscoverySpec.beValue ip + 1) mod 256 ^ Z.of_nat (length ip).
Proof.
  intros H. unfold Discovery.inc.
  assert (DiscoverySpec.isBytes (rev ip)) as Hrev.
  { unfold DiscoverySpec.isBytes in *. apply List.Forall_forall.
    intros b Hb. apply (proj1 (List.Forall_forall _ _) H). now apply in_rev. }
  destruct (inc_from_last_spec (rev ip) Hrev) as (I1 & I2 & I3).
  split; [|split].
  - unfold DiscoverySpec.isBytes in *. apply List.Forall_forall.
    intros b Hb. apply (proj1 (List.Forall_forall _ _) I1). now apply in_rev.
  - now rewrite length_rev, I2, length_rev.
  - rewrite beValue_rev, I3, <- beValue_rev, rev_involutive, length_rev. reflexivity.
Qed.

(** On 10.0.0.255, the last address before a carry. *)
Lemma inc_adds_one_witness :
  DiscoverySpec.isBytes (Discovery.inc [10; 0; 0; 255])
  /\ length (Discovery.inc [10; 0; 0; 255]) = length [10; 0; 0; 255]
  /\ DiscoverySpec.beValue (Discovery.inc [10; 0; 0; 255])
     = (DiscoverySpec.beValue [10; 0; 0; 255] + 1) mod 256 ^ Z.of_nat (length [10; 0; 0; 255]).
Proof.
  apply (inc_adds_one [10; 0; 0; 255]).
  repeat constructor; lia.
Defined.

(** ** StringArray: the text[] encoding of a device's tags *)

Section TextArray.

Import GoStrings DeviceModel DeviceModelSpec.

Variable cut : ascii -> bool.

Lemma all_bytes_append (p : ascii -> bool) (s t : string) :
  all_bytes p (s ++ t) = all_bytes p s && all_bytes p t.
Proof.
  induction s as [|c s IH]; [reflexivity|].
  rewrite append_cons. simpl. now rewrite IH, andb_assoc.
Qed.

Lemma TrimRightBytes_all (t : string) :
  all_bytes cut t = true -> TrimRightBytes cut t = EmptyString.
Proof.
  induction t as [|c t IH]; [reflexivity|]. simpl.
  intros H. apply andb_true_iff in H as [Hc Ht]. now rewrite (IH Ht), Hc.
Qed.

(** Trailing cutset bytes go, and nothing of a text that has none. *)
Lemma TrimRightBytes_append (s t : string) :
  s <> EmptyString ->
  all_bytes (fun c => negb (cut c)) s = true ->
  all_bytes cut t = true ->
  TrimRightBytes cut (s ++ t) = s.
Proof.
  intros Hne Hs Ht. induction s as [|c s IH]; [congruence|].
  simpl in Hs. apply andb_true_iff in Hs as [Hc Hs]. apply negb_true_iff in Hc.
  rewrite append_cons. cbn [TrimRightBytes].
  destruct s as [|d s].
  - change (EmptyString ++ t) with t. now rewrite (TrimRightBytes_all t Ht), Hc.
  - now rewrite (IH ltac:(discriminate) Hs).
Qed.

End TextArray.

Section TextArrayRoundTrip.

Import GoStrings DeviceModel DeviceModelSpec.

Lemma plainTag_bytes (tag : string) (c : ascii) :
  plainTag tag -> in_cutset "{}," c = true ->
  all_bytes (fun d => negb (Ascii.eqb d c)) tag = true.
Proof.
  unfold plainTag. intros Ht Hc. induction tag as [|d tag IH]; [reflexivity|].
  simpl in Ht. apply andb_true_iff in Ht as [Hd Ht].
  cbn [all_bytes]. rewrite (IH Ht), andb_true_r.
  destruct (Ascii.eqb_spec d c) as [->|]; [|reflexivity].
  apply negb_true_iff in Hd. cbn [in_cutset] in Hd, Hc. congruence.
Qed.

Lemma plainTag_no_brace (tag : string) :
  plainTag tag -> all_bytes (fun c => negb (in_cutset "{}" c)) tag = true.
Proof.
  unfold plainTag. induction tag as [|d tag IH]; [reflexivity|].
  cbn [all_bytes]. intros H. apply andb_true_iff in H as [Hd Ht].
  rewrite (IH Ht), andb_true_r.
  apply negb_true_iff in Hd. apply negb_true_iff.
  cbn [in_cutset] in *.
  destruct (Ascii.eqb d "{"); [discriminate|].
  destruct (Ascii.eqb d "}"); [discriminate|]. reflexivity.
Qed.

(** Tags joined by commas: the text has no brace, and splitting it at
    the commas gives the tags back. *)
Lemma Join_tags (tags : list string) :
  tags <> [] -> Forall plainTag tags ->
  all_bytes (fun c => negb (in_cutset "{}" c)) (Join tags ",") = true
  /\ Split (Join tags ",") "," = tags.
Proof.
  intros Hne H. induction H as [|tag tags Ht Hrest IH]; [congruence|].
  pose proof (plainTag_no_brace tag Ht) as Hb.
  pose proof (Split_single tag "," (plainTag_bytes tag "," Ht eq_refl)) as Hs.
  destruct tags as [|tag2 tags]; [now split|].
  destruct (IH ltac:(discriminate)) as [I1 I2].
  rewrite Join_cons by discriminate.
  split.
  - rewrite !all_bytes_append, Hb, I1. reflexivity.
  - change ("," ++ Join (tag2 :: tags) ",") with (String "," (Join (tag2 :: tags) ",")).
    rewrite Split_append, Hs, I2. reflexivity.
Qed.

Lemma Join_empty (tags : list string) (sep : string) :
  Join tags sep = EmptyString -> sep <> EmptyString -> tags = [] \/ tags = [EmptyString].
Proof.
  intros E Hsep. destruct tags as [|tag [|tag2 tags]]; [now left|right; now rewrite <- E|].
  exfalso. rewrite Join_cons in E by discriminate.
  apply (f_equal String.length) in E. rewrite !length_append in E.
  destruct sep; [congruence|]. simpl in E. lia.
Qed.

End TextArrayRoundTrip.

(** X14: a list of tags written with [StringArray.Value] and read with
    [StringArray.Scan] comes back unchanged, provided no tag contains a
    brace or a comma and the list is not the single empty tag; the nil
    slice comes back as nil. The list that holds just the empty tag is
    written as "{}" like the empty list, and comes back empty. *)
Theorem StringArray_round_trip (tags : list string) :
  Forall DeviceModelSpec.plainTag tags ->
  tags <> [EmptyString] ->
  DeviceModel.StringArray_Scan (DeviceModel.StringArray_Value (Some tags)) = Ok (Some tags)
  /\ DeviceModel.StringArray_Scan (DeviceModel.StringArray_Value None) = Ok None
  /\ DeviceModel.StringArray_Scan (DeviceModel.StringArray_Value (Some [EmptyString]))
     = Ok (Some []).
Proof.
  intros Hp Hne. split; [|split; reflexivity].
  unfold DeviceModel.StringArray_Value, DeviceModel.StringArray_Scan. cbv zeta.
  destruct (String.eqb_spec (GoStrings.Join tags ",") "") as [E|E].
  - destruct (Join_empty tags "," E ltac:(discriminate)) as [-> | ->]; [reflexivity|congruence].
  - assert (tags <> []) as Hn by (intros ->; now apply E).
    destruct (Join_tags tags Hn Hp) as [Hb Hs].
    assert (GoStrings.Trim ("{" ++ GoStrings.Join tags "," ++ "}") "{}"
            = GoStrings.Join tags ",") as ->.
    { unfold GoStrings.Trim.
      change ("{" ++ GoStrings.Join tags "," ++ "}")
        with (String "{" (GoStrings.Join tags "," ++ "}")).
      cbn [GoStrings.TrimRightBytes].
      rewrite (TrimRightBytes_append _ (GoStrings.Join tags ",") "}" E Hb eq_refl).
      destruct (GoStrings.Join tags ",") as [|c r] eqn:Ej; [congruence|].
      cbn [all_bytes] in Hb. apply andb_true_iff in Hb as [Hc _].
      apply negb_true_iff in Hc.
      cbn [GoStrings.TrimLeftBytes].
      change (GoStrings.in_cutset "{}" "{") with true. cbv iota.
      now rewrite Hc. }
    apply String.eqb_neq in E. rewrite E. now rewrite Hs.
Qed.

(** On two tags of a core router. *)
Lemma StringArray_round_trip_witness :
  DeviceModel.StringArray_Scan (DeviceModel.StringArray_Value (Some ["core"; "pop-1"]))
  = Ok (Some ["core"; "pop-1"])
  /\ DeviceModel.StringArray_Scan (DeviceModel.StringArray_Value None) = Ok None
  /\ DeviceModel.StringArray_Scan (DeviceModel.StringArray_Value (Some [EmptyString]))
     = Ok (Some []).
Proof.
  apply (StringArray_round_trip ["core"; "pop-1"]).
  - repeat constructor.
  - discriminate.
Defined.

(** ** ListDevices: pages of the device table *)

Section Paging.

Import PagingSpec.

Lemma int64_small (z : Z) : MinInt64 <= z <= MaxInt64 -> int64 z = z.
Proof.
  unfold MinInt64, MaxInt64, int64. intros H. rewrite Z.mod_small by lia. lia.
Qed.

(** The page a valid request gets. *)
Lemma ListDevices_valid (rows : list Model.Device) (page pageSize : Z) :
  1 <= page -> 1 <= pageSize <= 100 -> (page - 1) * pageSize <= MaxInt64 ->
  Service.ListDevices (Service.NewDeviceService (Repository.tableDB rows)) page pageSize
  = Ok (take (Z.to_nat pageSize) (drop (Z.to_nat ((page - 1) * pageSize)) rows),
        Z.of_nat (length rows)).
Proof.
  intros Hp Hs Ho. simpl. unfold Service.deviceService_ListDevices. cbv zeta.
  replace (page <? 1) with false by (symmetry; apply Z.ltb_ge; lia).
  replace (pageSize <? 1) with false by (symmetry; apply Z.ltb_ge; lia).
  replace (pageSize >? 100) with false by (symmetry; rewrite Z.gtb_ltb; apply Z.ltb_ge; lia).
  cbn [orb]. unfold Repository.List, Repository.Count. cbn [Repository.Limit Repository.Offset].
  replace (pageSize >? 0) with true by (symmetry; apply Z.gtb_lt; lia).
  rewrite int64_small by (unfold MinInt64; nia).
  destruct ((page - 1) * pageSize >? 0) eqn:E; simpl.
  - reflexivity.
  - rewrite Z.gtb_ltb in E. apply Z.ltb_ge in E.
    replace ((page - 1) * pageSize) with 0 by nia. reflexivity.
Qed.

End Paging.



(** X16: whatever page and page size are asked for, ListDevices over a
    table of rows returns at most 100 devices, all of them rows of the
    table in table order, and the number of all rows as the total; a
    page below 1 is served as page 1 and a page size outside 1..100 as
    20. *)
Theorem ListDevices_at_most_100 (rows : list Model.Device) (page pageSize : Z) :
  exists devices,
    Service.ListDevices (Service.NewDeviceService (Repository.tableDB rows)) page pageSize
    = Ok (devices, Z.of_nat (length rows))
    /\ (length devices <= 100)%nat
    /\ devices `sublist_of` rows
    /\ Service.ListDevices (Service.NewDeviceService (Repository.tableDB rows)) page pageSize
       = Service.ListDevices (Service.NewDeviceService (Repository.tableDB rows))
           (if page <? 1 then 1 else page)
           (if (pageSize <? 1) || (pageSize >? 100) then 20 else pageSize).
Proof.
  simpl. unfold Service.deviceService_ListDevices. cbv zeta.
  set (page' := if page <? 1 then 1 else page).
  set (pageSize' := if (pageSize <? 1) || (pageSize >? 100) then 20 else pageSize).
  assert (1 <= page') as Hp.
  { subst page'. destruct (page <? 1) eqn:E; [lia|]. now apply Z.ltb_ge in E. }
  assert (1 <= pageSize' <= 100) as Hs.
  { subst pageSize'. destruct (pageSize <? 1) eqn:E1; [simpl; lia|].
    destruct (pageSize >? 100) eqn:E2; [simpl; lia|]. simpl.
    apply Z.ltb_ge in E1. rewrite Z.gtb_ltb in E2. apply Z.ltb_ge in E2. lia. }
  replace (page' <? 1) with false by (symmetry; apply Z.ltb_ge; lia).
  replace (pageSize' <? 1) with false by (symmetry; apply Z.ltb_ge; lia).
  replace (pageSize' >? 100) with false
    by (symmetry; rewrite Z.gtb_ltb; apply Z.ltb_ge; lia).
  cbn [orb]. unfold Repository.List, Repository.Count.
  cbn [Repository.Limit Repository.Offset].
  replace (pageSize' >? 0) with true by (symmetry; apply Z.gtb_lt; lia).
  simpl.
  eexists. split; [reflexivity|]. split; [|split; [|reflexivity]].
  - rewrite length_take. lia.
  - etransitivity; [apply sublist_take|].
    destruct (_ >? 0); [apply sublist_drop|reflexivity].
Qed.

(** ** The scheduler's tick, in general *)

Section SchedulerTick.

Import Bus Collector SchedulerSpec.

Variable s : Scheduler.

Lemma scheduleOne_keys now i d :
  map taskKey (published_tasks (scheduleOne s now i d))
  = (if Model.Enabled d then [deviceKey d] else [])
  /\ subjects (scheduleOne s now i d)
     = (if Model.Enabled d then ["nms.poll.tasks"] else []).
Proof.
  unfold scheduleOne. destruct (Model.Enabled d); simpl; [|now split].
  destruct (Publish (natsConn s) _ _); now split.
Qed.

Lemma scheduleLoop_keys now devices :
  map taskKey (published_tasks (concat (imap (scheduleOne s now) devices)))
  = map deviceKey (List.filter Model.Enabled devices)
  /\ subjects (concat (imap (scheduleOne s now) devices))
     = map (fun _ => "nms.poll.tasks") (List.filter Model.Enabled devices).
Proof.
  revert now. induction devices as [|d devices IH]; intros now; [now split|].
  change (imap (scheduleOne s now) (d :: devices))
    with (scheduleOne s now 0%nat d :: imap (scheduleOne s (fun i => now (S i))) devices).
  simpl concat. unfold published_tasks at 1, subjects at 1. rewrite !omap_app.
  fold (published_tasks (scheduleOne s now 0%nat d)).
  fold (published_tasks (concat (imap (scheduleOne s (fun i => now (S i))) devices))).
  fold (subjects (scheduleOne s now 0%nat d)).
  fold (subjects (concat (imap (scheduleOne s (fun i => now (S i))) devices))).
  destruct (IH (fun i => now (S i))) as [I1 I2].
  destruct (scheduleOne_keys now 0%nat d) as [O1 O2].
  rewrite map_app, O1, O2, I1, I2. simpl.
  destruct (Model.Enabled d); now split.
Qed.

End SchedulerTick.

(** X17: on a tick, for the devices the device service returns, the
    scheduler publishes one poll task per enabled device, in the order of
    the list, each carrying the device's id, address, type and protocol,
    all on the subject nms.poll.tasks, and nothing for a device that is
    not enabled; a publish that fails does not stop the loop, the later
    devices still get their task. When the device service returns an
    error, nothing is published. *)
Theorem schedulePolls_one_task_per_enabled
    (s : Collector.Scheduler) (now : nat -> Time) (devices : list Model.Device) (total : Z) :
  Service.ListDevices (Collector.deviceService s) 1 1000 = Ok (devices, total) ->
  map SchedulerSpec.taskKey (Collector.published_tasks (Collector.schedulePolls s now))
  = map SchedulerSpec.deviceKey (List.filter Model.Enabled devices)
  /\ SchedulerSpec.subjects (Collector.schedulePolls s now)
     = map (fun _ => "nms.poll.tasks") (List.filter Model.Enabled devices)
  /\ (forall (s' : Collector.Scheduler) (err : error),
        Service.ListDevices (Collector.deviceService s') 1 1000 = Err err ->
        SchedulerSpec.subjects (Collector.schedulePolls s' now) = []).
Proof.
  intros H. unfold Collector.schedulePolls at 1 2. rewrite H.
  destruct (scheduleLoop_keys s now devices) as [H1 H2].
  split; [assumption|]. split; [assumption|].
  intros s' err He. unfold Collector.schedulePolls. now rewrite He.
Qed.

(** On an enabled and a disabled device, over a bus that refuses every
    publish. *)
Lemma schedulePolls_one_task_per_enabled_witness :
  map SchedulerSpec.taskKey
    (Collector.published_tasks
       (Collector.schedulePolls
          {| Collector.deviceService := SchedulerSpec.fixedService SchedulerSpec.mixedDevices;
             Collector.natsConn := SchedulerSpec.brokenBus |} (fun _ => 0)))
  = map SchedulerSpec.deviceKey (List.filter Model.Enabled SchedulerSpec.mixedDevices)
  /\ SchedulerSpec.subjects
       (Collector.schedulePolls
          {| Collector.deviceService := SchedulerSpec.fixedService SchedulerSpec.mixedDevices;
             Collector.natsConn := SchedulerSpec.brokenBus |} (fun _ => 0))
     = map (fun _ => "nms.poll.tasks") (List.filter Model.Enabled SchedulerSpec.mixedDevices)
  /\ (forall (s' : Collector.Scheduler) (err : error),
        Service.ListDevices (Collector.deviceService s') 1 1000 = Err err ->
        SchedulerSpec.subjects (Collector.schedulePolls s' (fun _ => 0)) = []).
Proof.
  apply (schedulePolls_one_task_per_enabled
           {| Collector.deviceService := SchedulerSpec.fixedService SchedulerSpec.mixedDevices;
              Collector.natsConn := SchedulerSpec.brokenBus |}
           (fun _ => 0) SchedulerSpec.mixedDevices 2).
  reflexivity.
Defined.

(** ** The alert engine: bounds and silent rules *)

Section AlertBounds.

Import Bus Alert AlertSpec.

Variable format_2f : float64 -> string.

(** One rule sends at most once, to the administrator, under the rule's
    own description, and only for a value the metric has. *)
Lemma evaluateRule_send (metric : Model.Metric) (rule : Rule) :
  sends (evaluateRule format_2f metric rule) = []
  \/ (is_Some (Model.metric_Values metric !! MetricName rule)
      /\ exists body,
           sends (evaluateRule format_2f metric rule)
           = [("admin@example.com", "NMS Alert: " ++ rule_Description rule, body)]).
Proof.
  unfold evaluateRule.
  destruct (_ && _); [now left|].
  destruct (Model.metric_Values metric !! MetricName rule) as [val|]; [|now left].
  destruct (toFloat val) as [floatVal [|]]; [|now left]. simpl.
  destruct (triggered _ _ _); [|now left].
  right. split; [eauto|]. eexists. reflexivity.
Qed.

(** A comparison with a NaN on either side is false, whatever the
    operator. *)
Lemma triggered_nan (operator : string) (x y : float64) :
  x = S754_nan \/ y = S754_nan -> triggered operator x y = false.
Proof.
  intros H. unfold triggered, fgt, flt, feq, fge, fle, SFltb, SFeqb, SFleb.
  assert (SFcompare x y = None /\ SFcompare y x = None) as [-> ->].
  { destruct H as [-> | ->]; [destruct y|destruct x]; now split. }
  repeat match goal with |- context [if ?b then _ else _] => destruct b end; reflexivity.
Qed.

End AlertBounds.

(** X18: for every metric and every list of rules, the engine calls the
    notifier at most once per rule, so at most as many times as there are
    rules; every call goes to admin@example.com, and its subject is
    "NMS Alert: " followed by the description of one of the rules, a rule
    whose metric name is a key of the metric's values. *)
Theorem evaluate_at_most_one_per_rule
    (format_2f : float64 -> string) (rules : list Alert.Rule) (metric : Model.Metric) :
  (length (Alert.sends (Alert.evaluate format_2f rules metric)) <= length rules)%nat
  /\ Forall (fun call =>
       call.1.1 = "admin@example.com"
       /\ exists rule,
            In rule rules
            /\ call.1.2 = "NMS Alert: " ++ Alert.rule_Description rule
            /\ is_Some (Model.metric_Values metric !! Alert.MetricName rule))
       (Alert.sends (Alert.evaluate format_2f rules metric)).
Proof.
  rewrite evaluate_sends.
  induction rules as [|rule rules [IH1 IH2]]; [split; [reflexivity|constructor]|].
  cbn [map concat]. rewrite length_app. cbn [length].
  destruct (evaluateRule_send format_2f metric rule) as [->|(Hv & body & ->)].
  - simpl. split; [lia|].
    eapply Forall_impl; [exact IH2|].
    intros call (H1 & r & Hr & H2 & H3). split; [assumption|].
    exists r. split; [now right|now split].
  - simpl. split; [lia|].
    constructor.
    + split; [reflexivity|]. exists rule. split; [now left|now split].
    + eapply Forall_impl; [exact IH2|].
      intros call (H1 & r & Hr & H2 & H3). split; [assumption|].
      exists r. split; [now right|now split].
Qed.

(** X19: a rule stays silent, whatever the metric's value, when its
    operator is not one of the five spellings ">", "<", "=", ">=", "<="
    (a rule written with "==" or "!=" never fires); and it stays silent
    whenever the value or the threshold is NaN. *)
Theorem evaluateRule_silent
    (format_2f : float64 -> string) (metric : Model.Metric) (rule : Alert.Rule) :
  (forall op, Alert.Operator rule <> AlertSpec.opString op)
  \/ Alert.Threshold rule = S754_nan
  \/ Model.metric_Values metric !! Alert.MetricName rule = Some (AFloat64 S754_nan) ->
  Alert.evaluateRule format_2f metric rule = [].
Proof.
  intros H. unfold Alert.evaluateRule.
  destruct (_ && _); [reflexivity|].
  destruct (Model.metric_Values metric !! Alert.MetricName rule) as [val|] eqn:Ev;
    [|reflexivity].
  destruct (Alert.toFloat val) as [floatVal [|]] eqn:Ef; [|reflexivity]. simpl.
  assert (Alert.triggered (Alert.Operator rule) floatVal (Alert.Threshold rule) = false)
    as ->; [|reflexivity].
  destruct H as [H|[H|H]].
  - now apply triggered_unknown.
  - apply triggered_nan. now right.
  - injection H as ->. simpl in Ef. injection Ef as <-.
    apply triggered_nan. now left.
Qed.

(** On the device-down rule spelt with "==", and a device that is down. *)
Lemma evaluateRule_silent_witness :
  Alert.evaluateRule (fun _ => "0.00") AlertSpec.deviceDown AlertFixtures.doubleEquals = [].
Proof.
  apply (evaluateRule_silent (fun _ => "0.00") AlertSpec.deviceDown AlertFixtures.doubleEquals).
  left. intros op. destruct op; discriminate.
Defined.

(** ** The monitoring target store *)

Section Targets.

Import Monitoring MonitoringSpec.

Lemma ReplaceAll_lookup_from (targets : list DeviceTarget) (m : gmap string DeviceTarget)
    (ip : string) :
  fold_left (fun (targets : gmap string DeviceTarget) t => <[IP t := t]> targets) targets m !! ip
  = fold_left (fun found t => if String.eqb (IP t) ip then Some t else found) targets (m !! ip).
Proof.
  revert m. induction targets as [|t targets IH]; intros m; [reflexivity|].
  simpl. rewrite IH. f_equal.
  destruct (String.eqb_spec (IP t) ip) as [->|Hne].
  - apply lookup_insert_eq.
  - now apply lookup_insert_ne.
Qed.

Lemma lastWithIP_from (targets : list DeviceTarget) (found : option DeviceTarget)
    (ip : string) (t : DeviceTarget) :
  fold_left (fun found t => if String.eqb (IP t) ip then Some t else found) targets found
  = Some t ->
  found = Some t \/ (IP t = ip /\ In t targets).
Proof.
  revert found. induction targets as [|x targets IH]; intros found H; [now left|].
  simpl in H. apply IH in H as [H|[H1 H2]].
  - destruct (String.eqb_spec (IP x) ip) as [E|_]; [|now left].
    injection H as <-. right. split; [assumption|now left].
  - right. split; [assumption|now right].
Qed.

Lemma ReplaceAll_size_from (targets : list DeviceTarget) (m : gmap string DeviceTarget) :
  (size (fold_left (fun (targets : gmap string DeviceTarget) t => <[IP t := t]> targets)
           targets m)
   <= size m + length targets)%nat.
Proof.
  revert m. induction targets as [|t targets IH]; intros m; cbn [fold_left length]; [lia|].
  etransitivity; [apply IH|]. rewrite map_size_insert.
  destruct (m !! IP t); simpl; lia.
Qed.

Lemma GetAll_In (m : gmap string DeviceTarget) (t : DeviceTarget) :
  In t (GetAll m) <-> exists ip, m !! ip = Some t.
Proof.
  unfold GetAll. rewrite <- list_elem_of_In, list_elem_of_fmap. split.
  - intros ([ip t'] & -> & H). apply elem_of_map_to_list in H. eauto.
  - intros [ip H]. exists (ip, t). split; [reflexivity|]. now apply elem_of_map_to_list.
Qed.

Lemma GetAll_NoDup (m : gmap string DeviceTarget) :
  (forall ip t, m !! ip = Some t -> IP t = ip) ->
  List.NoDup (map IP (GetAll m)).
Proof.
  intros Hk. unfold GetAll.
  assert (map IP (map_to_list m).*2 = (map_to_list m).*1) as ->.
  { assert (forall l : list (string * DeviceTarget),
              (forall ip t, In (ip, t) l -> IP t = ip) -> map IP l.*2 = l.*1) as H.
    { induction l as [|[ip t] l IH]; intros Hall; [reflexivity|].
      simpl. rewrite (Hall ip t (or_introl eq_refl)).
      f_equal. apply IH. intros ip' t' H'. apply Hall. now right. }
    apply H. intros ip t H'.
    apply list_elem_of_In, elem_of_map_to_list in H'. now apply Hk. }
  apply NoDup_ListNoDup, NoDup_fst_map_to_list.
Qed.

Lemma GetAll_length (m : gmap string DeviceTarget) : length (GetAll m) = size m.
Proof. unfold GetAll. now rewrite length_fmap, length_map_to_list. Qed.

End Targets.

(** X20: after [ReplaceAll], the store holds, for every address, the
    last of the new targets with that address and nothing else: what was
    stored before is gone, and of several targets with one address only
    the last is kept. So [GetAll] returns targets with pairwise distinct
    addresses, each one of the new targets, and never more of them than
    were given. *)
Theorem ReplaceAll_last_wins
    (old : Monitoring.TargetStore) (targets : list Monitoring.DeviceTarget) :
  (forall ip, Monitoring.ReplaceAll old targets !! ip = MonitoringSpec.lastWithIP targets ip)
  /\ (forall t, In t (Monitoring.GetAll (Monitoring.ReplaceAll old targets))
                <-> MonitoringSpec.lastWithIP targets (Monitoring.IP t) = Some t)
  /\ List.NoDup (map Monitoring.IP (Monitoring.GetAll (Monitoring.ReplaceAll old targets)))
  /\ (forall t, In t (Monitoring.GetAll (Monitoring.ReplaceAll old targets)) -> In t targets)
  /\ (length (Monitoring.GetAll (Monitoring.ReplaceAll old targets)) <= length targets)%nat.
Proof.
  assert (forall ip, Monitoring.ReplaceAll old targets !! ip
                     = MonitoringSpec.lastWithIP targets ip) as Hl.
  { intros ip. unfold Monitoring.ReplaceAll, MonitoringSpec.lastWithIP.
    rewrite ReplaceAll_lookup_from. now rewrite lookup_empty. }
  assert (forall ip t, Monitoring.ReplaceAll old targets !! ip = Some t ->
                       Monitoring.IP t = ip /\ In t targets) as Hk.
  { intros ip t H. rewrite Hl in H. unfold MonitoringSpec.lastWithIP in H.
    apply lastWithIP_from in H as [H|H]; [discriminate|assumption]. }
  split; [assumption|]. split; [|split; [|split]].
  - intros t. rewrite GetAll_In. split.
    + intros [ip H]. destruct (Hk ip t H) as [<- _]. now rewrite <- Hl.
    + intros H. exists (Monitoring.IP t). now rewrite Hl.
  - apply GetAll_NoDup. intros ip t H. now destruct (Hk ip t H).
  - intros t Ht. apply GetAll_In in Ht as [ip H]. now destruct (Hk ip t H).
  - rewrite GetAll_length. unfold Monitoring.ReplaceAll.
    etransitivity; [apply ReplaceAll_size_from|]. rewrite map_size_empty. lia.
Qed.

(** ** The OLT service over the SNMP adapter *)

Section OltService.

Import ZteHelpers ZteConnect Olt OltSpec.

Variable ConnectIPv4 : string -> string -> SNMPClient + error.
Variable now : Time.
Variable ponEntries : list (string * (SnmpPDU -> PONPortMetrics -> PONPortMetrics)).
Variable ontEntries : list (string * (SnmpPDU -> ONTMetrics -> ONTMetrics)).

(** The client the service works with once the session is open. *)
Lemma connectToOLT_connected (target : SNMPTarget) (session : SNMPClient) :
  ConnectIPv4 (target_IP target) (communityOf target) = inl session ->
  exists client,
    connectToOLT ConnectIPv4 target = Ok client
    /\ snmp client = GoSNMPClient session
    /\ exists d, device client = Some d /\ Model.ID d = target_IP target.
Proof.
  intros H. unfold connectToOLT, Connect, GoSNMPClient_Connect. cbv zeta.
  cbn [SNMPCommunity Model.IPAddress].
  fold (communityOf target).
  assert ((if String.eqb (communityOf target) "" then defaultCommunity else communityOf target)
          = communityOf target) as ->.
  { unfold communityOf. destruct (String.eqb (Community target) "") eqn:E; [reflexivity|].
    now rewrite E. }
  rewrite H. eexists. split; [reflexivity|]. split; [reflexivity|].
  eexists. split; reflexivity.
Qed.

(** The session could not be opened: the error names the OLT twice. *)
Lemma connectToOLT_refused (target : SNMPTarget) (e : error) :
  ConnectIPv4 (target_IP target) (communityOf target) = inr e ->
  connectToOLT ConnectIPv4 target
  = Err (Wrapf ("failed to connect to OLT " ++ target_IP target ++ " via SNMP: ")
           (Wrapf ("snmp connect to " ++ target_IP target ++ " failed: ") e)).
Proof.
  intros H. unfold connectToOLT, Connect, GoSNMPClient_Connect. cbv zeta.
  cbn [SNMPCommunity Model.IPAddress].
  fold (communityOf target).
  assert ((if String.eqb (communityOf target) "" then defaultCommunity else communityOf target)
          = communityOf target) as ->.
  { unfold communityOf. destruct (String.eqb (Community target) "") eqn:E; [reflexivity|].
    now rewrite E. }
  now rewrite H.
Qed.

(** The production client hands on the session's walk error, wrapped. *)
Lemma GoSNMPClient_walk_error (session : SNMPClient) (oid : string) :
  (Walk (GoSNMPClient session) oid).2
  = match (Walk session oid).2 with
    | Some e => Some (Wrapf ("snmp walk on " ++ oid ++ " failed: ") e)
    | None => None
    end.
Proof. simpl. destruct (Walk session oid) as [pdus [e|]]; reflexivity. Qed.

Lemma PONPortStatus_String_values (s : Z) :
  In (PONPortStatus_String s) ["up"; "down"; "unknown"].
Proof.
  unfold PONPortStatus_String.
  destruct (s =? 1); [now left|]. destruct (s =? 2); [right; now left|right; right; now left].
Qed.

End OltService.

(** X21: when the OLT cannot be reached or one of the PON-port walks
    fails, [GetPONPorts] returns an error and no list, and the text of
    the error tells where it failed: a refused session gives "failed to
    connect to OLT <ip> via SNMP: snmp connect to <ip> failed: " and the
    cause; a failed walk gives "failed to get PON port metrics from OLT
    <ip>: failed to walk PON port OID <oid>: snmp walk on <oid> failed: "
    and the cause, for the first column, in the order walked, whose walk
    failed. The session is opened with the target's community, or with
    "public" when the target gives none. *)
Theorem GetPONPorts_failure_text
    (ConnectIPv4 : string -> string -> SNMPClient + error) (now : Time)
    (ponEntries : list (string * (SnmpPDU -> PONPortMetrics -> PONPortMetrics)))
    (target : Olt.SNMPTarget) :
  (forall e,
      ConnectIPv4 (Olt.target_IP target) (OltSpec.communityOf target) = inr e ->
      exists err,
        Olt.GetPONPorts ConnectIPv4 now ponEntries target = Err err
        /\ Error err
           = "failed to connect to OLT " ++ Olt.target_IP target
             ++ " via SNMP: snmp connect to " ++ Olt.target_IP target ++ " failed: "
             ++ Error e)
  /\ (forall session,
      ConnectIPv4 (Olt.target_IP target) (OltSpec.communityOf target) = inl session ->
      (exists entry e, In entry ponEntries /\ (Walk session entry.1).2 = Some e) ->
      exists entry e err,
        In entry ponEntries
        /\ (Walk session entry.1).2 = Some e
        /\ Olt.GetPONPorts ConnectIPv4 now ponEntries target = Err err
        /\ Error err = OltSpec.walkFailure target entry.1 e).
Proof.
  split.
  - intros e H. unfold Olt.GetPONPorts.
    rewrite (connectToOLT_refused ConnectIPv4 target e H). cbn [bind].
    eexists. split; [reflexivity|]. cbn [Error].
    rewrite !append_assoc. reflexivity.
  - intros session H (entry & e & Hin & He).
    destruct (connectToOLT_connected ConnectIPv4 target session H)
      as (client & Ec & Es & d & Hd & _).
    unfold Olt.GetPONPorts. rewrite Ec. cbn [bind].
    destruct (foldM_first_error (ponWalk client now) (Spec.ponWalkError client) ponEntries
                (fun s x => ponWalk_outcome client now d s x Hd))
      with (s := (∅ : gmap Z PONPortMetrics)) as (x & e' & Hx & Hb & Hr).
    + exists entry. split; [assumption|]. unfold Spec.ponWalkError.
      rewrite Es, GoSNMPClient_walk_error, He. discriminate.
    + unfold Spec.ponWalkError in Hb. rewrite Es, GoSNMPClient_walk_error in Hb.
      destruct ((Walk session x.1).2) as [e0|] eqn:E0; [|discriminate].
      injection Hb as <-.
      exists x, e0. eexists. split; [assumption|]. split; [exact E0|].
      unfold GetPONPortMetrics. rewrite Hr. cbn [bind].
      split; [reflexivity|]. unfold OltSpec.walkFailure. cbn [Error].
      rewrite !append_assoc. reflexivity.
Qed.

(** The second part, on an OLT whose walks all time out. *)
Lemma GetPONPorts_failure_text_witness :
  exists entry e err,
    In entry ponWalkOIDs
    /\ (Walk OltSpec.deafSession entry.1).2 = Some e
    /\ Olt.GetPONPorts (fun _ _ => inl OltSpec.deafSession) 0 ponWalkOIDs OltSpec.olt1 = Err err
    /\ Error err = OltSpec.walkFailure OltSpec.olt1 entry.1 e.
Proof.
  apply (proj2 (GetPONPorts_failure_text (fun _ _ => inl OltSpec.deafSession) 0 ponWalkOIDs
                  OltSpec.olt1) OltSpec.deafSession).
  - reflexivity.
  - exists (OIDZTEPONPortAdminStatus, fun pdu port => set_AdminStatus (pduToInt pdu) port).
    exists (ErrorString "request timeout").
    split; [left; reflexivity|reflexivity].
Defined.

(** X22: a successful [GetPONPorts] answers with one entry per PON port:
    the count is the number of entries, no two entries have the same
    port index, and every entry is labelled with the target's address,
    has a port index that is not negative, and gives both of its statuses
    as one of "up", "down" and "unknown". *)
Theorem GetPONPorts_response
    (ConnectIPv4 : string -> string -> SNMPClient + error) (now : Time)
    (ponEntries : list (string * (SnmpPDU -> PONPortMetrics -> PONPortMetrics)))
    (target : Olt.SNMPTarget) (resp : Olt.PONPortListResponse) :
  ponEntries ≡ₚ ponWalkOIDs ->
  Olt.GetPONPorts ConnectIPv4 now ponEntries target = Ok resp ->
  Olt.ppl_IPAddress resp = Olt.target_IP target
  /\ Olt.Count resp = Z.of_nat (length (Olt.PonPorts resp))
  /\ List.NoDup (map Olt.ppr_PortIndex (Olt.PonPorts resp))
  /\ Forall (fun r =>
       Olt.ppr_IPAddress r = Olt.target_IP target
       /\ 0 <= Olt.ppr_PortIndex r
       /\ In (Olt.ppr_AdminStatus r) ["up"; "down"; "unknown"]
       /\ In (Olt.ppr_OperStatus r) ["up"; "down"; "unknown"])
     (Olt.PonPorts resp).
Proof.
  intros Hperm. unfold Olt.GetPONPorts.
  destruct (Olt.connectToOLT ConnectIPv4 target) as [client| |]; cbn [bind]; try discriminate.
  destruct (GetPONPortMetrics client now ponEntries) as [ports| |] eqn:E; try discriminate.
  intros [= <-]. cbn [Olt.ppl_IPAddress Olt.Count Olt.PonPorts].
  destruct (GetPONPortMetrics_records client now ponEntries ports Hperm E) as (Hnd & Hidx & _).
  split; [reflexivity|]. split; [reflexivity|]. split.
  - rewrite map_map. exact Hnd.
  - apply List.Forall_forall. intros r Hr. apply in_map_iff in Hr as (p & <- & Hp).
    cbn [Olt.mapPONPort Olt.ppr_IPAddress Olt.ppr_PortIndex Olt.ppr_AdminStatus
         Olt.ppr_OperStatus].
    split; [reflexivity|]. split; [now apply Hidx|].
    split; apply PONPortStatus_String_values.
Qed.

(** On the agent of the PON-port test, behind the production client. *)
Lemma GetPONPorts_response_witness :
  Olt.ppl_IPAddress OltFixtures.twoPortResponse
  = Olt.target_IP OltSpec.olt1
  /\ Olt.Count OltFixtures.twoPortResponse
     = Z.of_nat (length (Olt.PonPorts OltFixtures.twoPortResponse))
  /\ List.NoDup (map Olt.ppr_PortIndex (Olt.PonPorts OltFixtures.twoPortResponse))
  /\ Forall (fun r =>
       Olt.ppr_IPAddress r = Olt.target_IP OltSpec.olt1
       /\ 0 <= Olt.ppr_PortIndex r
       /\ In (Olt.ppr_AdminStatus r) ["up"; "down"; "unknown"]
       /\ In (Olt.ppr_OperStatus r) ["up"; "down"; "unknown"])
     (Olt.PonPorts OltFixtures.twoPortResponse).
Proof.
  apply (GetPONPorts_response (fun _ _ => inl (snmp PowerSpec.ponClient)) 0 ponWalkOIDs
           OltSpec.olt1).
  - reflexivity.
  - vm_compute. reflexivity.
Defined.

(** ** Listing devices over HTTP *)

Section ListHandler.

Import Strconv DeviceHandler.

Lemma decimal_value_ge (ds : string) (acc : Z) :
  all_bytes is_digit ds = true -> 0 <= acc -> acc <= decimal_value acc ds.
Proof.
  revert acc. induction ds as [|c ds IH]; intros acc Hd Hacc; simpl; [lia|].
  simpl in Hd. apply andb_true_iff in Hd as [Hc Hd].
  unfold is_digit in Hc. apply andb_true_iff in Hc as [H1 H2].
  apply Z.leb_le in H1. apply Z.leb_le in H2.
  etransitivity; [|apply IH; [assumption|lia]]. lia.
Qed.

(** Digits whose value fits uint64 are read to that value. *)
Lemma ParseUint_loop_digits (ds : string) (acc : Z) :
  all_bytes is_digit ds = true -> 0 <= acc ->
  decimal_value acc ds <= 18446744073709551615 ->
  ParseUint_loop ds acc = UintOk (decimal_value acc ds).
Proof.
  revert acc. induction ds as [|c ds IH]; intros acc Hd Hacc Hv; [reflexivity|].
  pose proof Hd as Hd'. simpl in Hd'. apply andb_true_iff in Hd' as [Hc Hds].
  pose proof Hc as Hc'. unfold is_digit in Hc'. apply andb_true_iff in Hc' as [H1 H2].
  apply Z.leb_le in H1. apply Z.leb_le in H2.
  simpl in Hv.
  pose proof (decimal_value_ge ds (10 * acc + (byte_of c - 48)) Hds ltac:(lia)) as Hge.
  cbn [ParseUint_loop]. rewrite Hc. cbv zeta.
  replace (acc >=? 1844674407370955162) with false
    by (symmetry; rewrite Z.geb_leb; apply Z.leb_gt; lia).
  replace (acc * 10 + (byte_of c - 48) >? 18446744073709551615) with false
    by (symmetry; rewrite Z.gtb_ltb; apply Z.ltb_ge; lia).
  replace (acc * 10) with (10 * acc) by lia.
  apply IH; [assumption|lia|assumption].
Qed.

(** [Atoi] reads a printed int back. *)
Lemma Atoi_Sprintf_d (n : Z) : in_int64 n = true -> Atoi (Sprintf_d n) = (n, true).
Proof.
  intros Hr. unfold in_int64, MinInt64, MaxInt64 in Hr.
  apply andb_true_iff in Hr as [Hlo Hhi]. apply Z.leb_le in Hlo. apply Z.leb_le in Hhi.
  destruct (Sprintf_d_shape n) as (ds & E & Hne & Hd & Hv). rewrite E.
  assert (ParseUint_loop ds 0 = UintOk (Z.abs n)) as Hp.
  { rewrite <- Hv. apply ParseUint_loop_digits; [assumption|lia|]. rewrite Hv. lia. }
  destruct (n <? 0) eqn:Hn.
  - apply Z.ltb_lt in Hn. unfold Atoi.
    change (byte_of "-" =? 45) with true. change (is_sign "-") with true. cbv iota zeta.
    destruct ds as [|c ds]; [congruence|]. rewrite Hp.
    cbn [negb andb].
    replace (Z.abs n >? 2 ^ 63) with false
      by (symmetry; rewrite Z.gtb_ltb; apply Z.ltb_ge; lia).
    f_equal. lia.
  - apply Z.ltb_ge in Hn. destruct ds as [|c ds]; [congruence|].
    pose proof Hd as Hd'. simpl in Hd'. apply andb_true_iff in Hd' as [Hc _].
    unfold Atoi. rewrite (is_digit_not_sign c Hc). cbv zeta. rewrite Hp.
    assert ((byte_of c =? 45) = false) as ->.
    { unfold is_digit in Hc. apply andb_true_iff in Hc as [H1 H2].
      apply Z.leb_le in H1. apply Z.eqb_neq. lia. }
    cbn [negb andb].
    replace (Z.abs n >=? 2 ^ 63) with false
      by (symmetry; rewrite Z.geb_leb; apply Z.leb_gt; lia).
    f_equal. lia.
Qed.

End ListHandler.

(** X23: the handler of GET /devices, over a table of device rows,
    answers a request for page p with page size q (1 <= p, 1 <= q <= 100,
    written in decimal) with status 200, exactly the rows of that page,
    the number of all rows, and p and q themselves; without parameters it
    serves the first 20 rows as page 1. The body repeats the page and the
    page size as they were asked, not as they were served: asked for a
    page size of 1000 it says page_size 1000 and holds at most 20 rows. *)
Theorem ListDevices_handler (rows : list Model.Device) (p q : Z) :
  1 <= p -> 1 <= q <= 100 -> (p - 1) * q <= MaxInt64 -> p <= MaxInt64 ->
  DeviceHandler.ListDevices (Service.NewDeviceService (Repository.tableDB rows))
    (<["page" := Sprintf_d p]> (<["page_size" := Sprintf_d q]> ∅))
  = Ok {| DeviceHandler.status := 200;
          DeviceHandler.body :=
            DeviceHandler.ListBody
              (take (Z.to_nat q) (drop (Z.to_nat ((p - 1) * q)) rows))
              (Z.of_nat (length rows)) p q |}
  /\ DeviceHandler.ListDevices (Service.NewDeviceService (Repository.tableDB rows)) ∅
     = Ok {| DeviceHandler.status := 200;
             DeviceHandler.body :=
               DeviceHandler.ListBody (take 20 rows) (Z.of_nat (length rows)) 1 20 |}
  /\ DeviceHandler.ListDevices (Service.NewDeviceService (Repository.tableDB rows))
       (<["page_size" := "1000"]> ∅)
     = Ok {| DeviceHandler.status := 200;
             DeviceHandler.body :=
               DeviceHandler.ListBody (take 20 rows) (Z.of_nat (length rows)) 1 1000 |}.
Proof.
  intros Hp Hq Ho Hmax. split; [|split; reflexivity].
  unfold DeviceHandler.ListDevices, DeviceHandler.DefaultQuery. cbv zeta.
  rewrite lookup_insert_eq, lookup_insert_ne by discriminate. rewrite lookup_insert_eq.
  rewrite !Atoi_Sprintf_d
    by (unfold in_int64, MinInt64, MaxInt64 in *; apply andb_true_iff;
        split; apply Z.leb_le; lia).
  cbn [fst]. now rewrite ListDevices_valid.
Qed.

(** On the registry of 21 devices: the third page of ten holds one row. *)
Lemma ListDevices_handler_witness :
  DeviceHandler.ListDevices
    (Service.NewDeviceService (Repository.tableDB SchedulerFixtures.registry21))
    (<["page" := Sprintf_d 3]> (<["page_size" := Sprintf_d 10]> ∅))
  = Ok {| DeviceHandler.status := 200;
          DeviceHandler.body :=
            DeviceHandler.ListBody
              (take (Z.to_nat 10)
                 (drop (Z.to_nat ((3 - 1) * 10)) SchedulerFixtures.registry21))
              (Z.of_nat (length SchedulerFixtures.registry21)) 3 10 |}
  /\ DeviceHandler.ListDevices
       (Service.NewDeviceService (Repository.tableDB SchedulerFixtures.registry21)) ∅
     = Ok {| DeviceHandler.status := 200;
             DeviceHandler.body :=
               DeviceHandler.ListBody (take 20 SchedulerFixtures.registry21)
                 (Z.of_nat (length SchedulerFixtures.registry21)) 1 20 |}
  /\ DeviceHandler.ListDevices
       (Service.NewDeviceService (Repository.tableDB SchedulerFixtures.registry21))
       (<["page_size" := "1000"]> ∅)
     = Ok {| DeviceHandler.status := 200;
             DeviceHandler.body :=
               DeviceHandler.ListBody (take 20 SchedulerFixtures.registry21)
                 (Z.of_nat (length SchedulerFixtures.registry21)) 1 1000 |}.
Proof.
  apply (ListDevices_handler SchedulerFixtures.registry21 3 10).
  - lia.
  - lia.
  - vm_compute. discriminate.
  - vm_compute. discriminate.
Defined.

(** ** The records of an ONT collection *)

Section ONTRecords.

Import ONTSpec ONTRecordSpec.

Variable c : ZTEOLTClient.
Variable now : Time.

Lemma setter_keeps_Description baseOID setter pdu o :
  In (baseOID, setter) ontWalkOIDs -> Description (setter pdu o) = Description o.
Proof.
  intros H. simpl in H.
  repeat (destruct H as [H|H]; [inversion H; subst; reflexivity|]).
  contradiction.
Qed.

Lemma described_insert (m : gmap string ONTMetrics) k o :
  described m -> Description o = "ONT-" ++ k -> described (<[k := o]> m).
Proof.
  intros Hm Ho k' o' Hl. destruct (decide (k = k')) as [<-|Hne].
  - rewrite lookup_insert_eq in Hl. congruence.
  - rewrite lookup_insert_ne in Hl by assumption. eauto.
Qed.

Lemma ontCallback_described ponPortIndex baseOID setter m pdu m' :
  In (baseOID, setter) ontWalkOIDs ->
  described m ->
  ontCallback c now ponPortIndex baseOID setter m pdu = Ok m' ->
  described m'.
Proof.
  intros Hin Hm. unfold ontCallback. cbv zeta.
  set (index := extractLastOIDIndex (pdu_Name pdu) baseOID).
  destruct (index <? 0); [now intros [= <-]|].
  destruct (m !! Sprintf_d index) as [o|] eqn:El; simpl.
  - destruct (String.eqb baseOID OIDZTEONTSerialNumber); [now intros [= <-]|].
    rewrite El. intros [= <-]. apply described_insert; [assumption|].
    rewrite (setter_keeps_Description baseOID) by assumption. eauto.
  - destruct (device c) as [d|]; [|discriminate]. simpl.
    destruct (String.eqb baseOID OIDZTEONTSerialNumber).
    + intros [= <-]. now apply described_insert.
    + rewrite lookup_insert_eq. intros [= <-].
      apply described_insert; [now apply described_insert|].
      now rewrite (setter_keeps_Description baseOID) by assumption.
Qed.

Lemma ontCallbacks_described ponPortIndex baseOID setter pdus m m' :
  In (baseOID, setter) ontWalkOIDs ->
  described m ->
  foldM (ontCallback c now ponPortIndex baseOID setter) pdus m = Ok m' ->
  described m'.
Proof.
  intros Hin. revert m. induction pdus as [|pdu pdus IH]; intros m Hm; simpl.
  - now intros [= <-].
  - destruct (ontCallback c now ponPortIndex baseOID setter m pdu) as [m1| |] eqn:E1;
      simpl; try discriminate.
    apply IH. eapply ontCallback_described; eauto.
Qed.

Lemma ontWalks_described ponPortIndex l m m' :
  (forall entry, In entry l -> In entry ontWalkOIDs) ->
  described m ->
  foldM (ontWalk c now ponPortIndex) l m = Ok m' ->
  described m'.
Proof.
  revert m. induction l as [|[baseOID setter] l IH]; intros m Hsub Hm; cbn [foldM].
  - now intros [= <-].
  - destruct (ontWalk c now ponPortIndex m (baseOID, setter)) as [m1| |] eqn:E1;
      cbn [bind]; try discriminate.
    apply IH; [intros e He; apply Hsub; now right|].
    unfold ontWalk in E1.
    destruct (Walk (snmp c) baseOID) as [pdus err].
    destruct (foldM _ pdus m) as [m2| |] eqn:E2; simpl in E1; try discriminate.
    destruct err; [discriminate|]. injection E1 as <-.
    eapply ontCallbacks_described; [apply Hsub; now left|exact Hm|exact E2].
Qed.

(** The indexes of the records of a map that satisfies the invariant are
    pairwise distinct. *)
Lemma onts_NoDup (entries : list (string * (SnmpPDU -> ONTMetrics -> ONTMetrics)))
    (m : gmap string ONTMetrics) :
  mapInvariant c entries m ->
  List.NoDup (map ONTIndex (map_to_list m).*2).
Proof.
  intros Hm.
  apply (List.NoDup_map_inv Sprintf_d).
  assert (map Sprintf_d (map ONTIndex (map_to_list m).*2) = (map_to_list m).*1) as ->.
  { assert (forall l : list (string * ONTMetrics),
              (forall k o, In (k, o) l -> Sprintf_d (ONTIndex o) = k) ->
              map Sprintf_d (map ONTIndex l.*2) = l.*1) as H.
    { induction l as [|[k o] l IH]; intros Hl; [reflexivity|].
      simpl. rewrite (Hl k o (or_introl eq_refl)).
      f_equal. apply IH. intros j q Hq. apply Hl. now right. }
    apply H. intros k o Hin.
    apply list_elem_of_In, elem_of_map_to_list in Hin.
    destruct (Hm k o Hin) as (i & -> & (_ & _ & -> & _) & _). reflexivity. }
  apply NoDup_ListNoDup, NoDup_fst_map_to_list.
Qed.

End ONTRecords.

(** X24: GetONTMetrics returns one record per walked index. In whatever
    order the five columns are walked, no two returned records have the
    same ONTIndex, and the Description of each record is the text ONT-
    followed by its index in decimal. *)
Theorem GetONTMetrics_one_record_per_index
    (c : ZTEOLTClient) (now : Time)
    (entries : list (string * (SnmpPDU -> ONTMetrics -> ONTMetrics)))
    (ponPortIndex : Z) (onts : list ONTMetrics) :
  entries ≡ₚ ontWalkOIDs ->
  GetONTMetrics c now entries ponPortIndex = Ok onts ->
  List.NoDup (map ONTIndex onts)
  /\ List.Forall (fun o => Description o = "ONT-" ++ Sprintf_d (ONTIndex o)) onts.
Proof.
  intros Hperm. unfold GetONTMetrics.
  destruct (foldM (ontWalk c now ponPortIndex) entries ∅) as [m| |] eqn:E;
    simpl; try discriminate.
  intros [= <-].
  assert (forall entry, In entry entries -> In entry ontWalkOIDs) as Hlit.
  { intros entry He. apply (Permutation_in _ Hperm He). }
  destruct (ontWalks_invariant c now entries Hlit ponPortIndex entries ∅ m
              (fun e He => He)) as (Hm & _ & _); [|assumption|].
  { intros k o Hl. rewrite lookup_empty in Hl. discriminate. }
  split; [now apply (onts_NoDup c entries)|].
  apply List.Forall_forall. intros o Ho. apply In_map_values in Ho as [k Hk].
  rewrite (ontWalks_described c now ponPortIndex entries ∅ m Hlit) with (k := k) (o := o);
    [|intros k' o' Hl; rewrite lookup_empty in Hl; discriminate|assumption|assumption].
  destruct (Hm k o Hk) as (i & -> & (_ & _ & -> & _) & _). reflexivity.
Qed.

(** On the agent of the ONT test, with its two ONTs. *)
Lemma GetONTMetrics_one_record_per_index_witness :
  List.NoDup (map ONTIndex ONTRecordSpec.collected)
  /\ List.Forall (fun o => Description o = "ONT-" ++ Sprintf_d (ONTIndex o))
       ONTRecordSpec.collected.
Proof.
  apply (GetONTMetrics_one_record_per_index ONTFixtures.ontClient 0 ontWalkOIDs 0).
  - reflexivity.
  - vm_compute. reflexivity.
Defined.
